(** * ProtAtlasViz: the tissue dictionary, the tissue resolver, the aggregator
      and the chart callbacks of [data_loader.py] and [app.py]

    Python values are embedded as follows.
    - [str] is [string]; a character stands for the code point of the same
      number (0..255), which fixes what [str.strip] and [str.lower] do.
    - A [dict] that the code iterates ([tissue_groups]) is an association
      list in insertion order with unique keys; a [dict] that is only read by
      key ([tissue_to_group]) is a [gmap string string].
    - An [nTPM] cell is [option Q]: [None] is pandas' NaN, [Some q] the
      double that is the finite number [q].  What the libraries compute in
      floating point (a mean, a rounded sum, [log2], [2 ** x]) is taken from
      the class [Numpy].  Infinite values (a cell [inf], a mean too large
      for a double) are not modelled, except where raising depends on them.
    - A [DataFrame] that is handed to a chart builder is an object in a store,
      and the builder holds a reference to it; a [DataFrame] that is only
      read is its list of rows. *)

From Stdlib Require Import Ascii QArith Qround.
From Stdlib Require DecimalString DecimalNat DecimalFacts.
From stdpp Require Import base option list strings gmap sorting.

Local Open Scope nat_scope.

(** ** Text: the [str] methods used by the parser and the resolver *)

Module Text.

(** [str.isspace] on one character, for code points below 256. *)
Definition isspace (c : ascii) : bool :=
  let n := nat_of_ascii c in
  ((9 <=? n) && (n <=? 13)) || ((28 <=? n) && (n <=? 32))
  || (n =? 133) || (n =? 160).

Fixpoint lstrip (s : string) : string :=
  match s with
  | EmptyString => EmptyString
  | String c s' => if isspace c then lstrip s' else s
  end.

Fixpoint rstrip (s : string) : string :=
  match s with
  | EmptyString => EmptyString
  | String c s' =>
      match rstrip s' with
      | EmptyString => if isspace c then EmptyString else String c EmptyString
      | r => String c r
      end
  end.

(** [s.strip()] *)
Definition strip (s : string) : string := rstrip (lstrip s).

(** [str.lower] on one character: A-Z, and the upper-case letters of the
    Latin-1 block (0xC0..0xDE without the multiplication sign 0xD7). *)
Definition lower_char (c : ascii) : ascii :=
  let n := nat_of_ascii c in
  if ((65 <=? n) && (n <=? 90))
     || ((192 <=? n) && (n <=? 222) && negb (n =? 215))
  then ascii_of_nat (n + 32) else c.

(** [s.lower()] *)
Fixpoint lower (s : string) : string :=
  match s with
  | EmptyString => EmptyString
  | String c s' => String (lower_char c) (lower s')
  end.

(** [s.startswith('#')] *)
Definition startswith_hash (s : string) : bool :=
  match s with
  | String c _ => bool_decide (c = "#"%char)
  | EmptyString => false
  end.

(** [s[1:]] *)
Definition tail (s : string) : string :=
  match s with
  | String _ s' => s'
  | EmptyString => EmptyString
  end.

Definition LF : ascii := ascii_of_nat 10.
Definition CR : ascii := ascii_of_nat 13.

(** [for line in f] on a file opened in text mode: the text is cut after
    every line end (LF, CR or CR LF, each read as one LF); a last line
    without a line end is yielded when it is not empty.  [cur] is the line
    being read, reversed. *)
Fixpoint readlines_go (cur : string) (s : string) : list string :=
  match s with
  | EmptyString =>
      match cur with
      | EmptyString => []
      | _ => [String.rev cur]
      end
  | String c s' =>
      if bool_decide (c = LF) then
        String.rev (String LF cur) :: readlines_go EmptyString s'
      else if bool_decide (c = CR) then
        String.rev (String LF cur) ::
          match s' with
          | String c' s'' =>
              if bool_decide (c' = LF) then readlines_go EmptyString s''
              else readlines_go EmptyString s'
          | EmptyString => []
          end
      else readlines_go (String c cur) s'
  end.

Definition readlines (s : string) : list string := readlines_go EmptyString s.

End Text.

(** ** Insertion-ordered dictionaries (a Python [dict] that is iterated) *)

Module PyDict.

Definition t (V : Type) : Type := list (string * V).

(** [d.get(k)] *)
Fixpoint get {V} (d : t V) (k : string) : option V :=
  match d with
  | [] => None
  | (k', v) :: d' => if bool_decide (k' = k) then Some v else get d' k
  end.

(** [d[k] = v]: an existing key keeps its position. *)
Fixpoint set {V} (d : t V) (k : string) (v : V) : t V :=
  match d with
  | [] => [(k, v)]
  | (k', v') :: d' =>
      if bool_decide (k' = k) then (k, v) :: d' else (k', v') :: set d' k v
  end.

(** [d[k] = f(d[k])] for a key that is present (here: [d[k].append(x)]). *)
Fixpoint update {V} (d : t V) (k : string) (f : V → V) : t V :=
  match d with
  | [] => []
  | (k', v') :: d' =>
      if bool_decide (k' = k) then (k', f v') :: d' else (k', v') :: update d' k f
  end.

Definition keys {V} (d : t V) : list string := d.*1.

End PyDict.

(** ** Sorting *)

Module Py.

(** Insertion into an increasing list, before the first larger element. *)
Fixpoint insert_sorted {A} (leb : A → A → bool) (x : A) (l : list A) : list A :=
  match l with
  | [] => [x]
  | y :: l' => if leb x y then x :: l else y :: insert_sorted leb x l'
  end.

(** [sorted(l)] *)
Definition sorted {A} (leb : A → A → bool) (l : list A) : list A :=
  foldr (insert_sorted leb) [] l.

End Py.

(** ** Floating point *)

Module Floats.

(** What pandas, numpy and Python's [float] compute on doubles: library
    code that has no exact description on rationals.
    - [round64 q] is the double nearest to [q].  The sum and the difference
      of two doubles are the exact ones rounded, so [x + 1] on doubles is
      [round64 (x + 1)].
    - [mean_of xs] is what [mean()] of a pandas group returns for the
      values [xs] (not empty, none NaN, in the order of the rows).
    - [log2 x] is [np.log2(x)]; [None] where the result is not a finite
      number.
    - [pow2 x] is [2 ** x]; [None] where the result is too large for a
      double: there Python's [float] raises [OverflowError] and numpy's
      [float64] yields [inf].
    - [argsort codes] is the permutation that [argsort] with
      [kind='quicksort'] yields for a list of category codes (the order it
      gives to equal codes is not documented). *)
Class Numpy := {
  round64 : Q → Q;
  mean_of : list Q → Q;
  log2 : Q → option Q;
  pow2 : Q → option Q;
  argsort : list nat → list nat
}.

End Floats.

(** ** [data_loader.py] *)

(** The methods of [DataLoader] are given the two fields they read,
    [tissue_groups] and [expression_data].  [app.py] loads both when it is
    imported, so the branches that load a field that is still [None] are
    not taken. *)

Module DataLoader.
Export Floats.

(** One line of the expression file: the columns [Gene], [Gene name],
    [Tissue] and [nTPM]. *)
Record Row := mkRow {
  Gene : string;
  Gene_name : string;
  Tissue : string;
  nTPM : option Q
}.

Definition Table := list Row.

(** [Series.unique()]: the distinct values in the order of their first
    occurrence. *)
Definition unique {A} `{EqDecision A} (l : list A) : list A :=
  foldl (λ seen x, if bool_decide (x ∈ seen) then seen else seen ++ [x]) [] l.

(** *** [load_histology_dictionary] *)

Record parser_state := mkState {
  tissue_groups : PyDict.t (list string);
  current_group : option string
}.

Definition parser_init : parser_state :=
  {| tissue_groups := []; current_group := None |}.

(** The body of the loop over the lines of the file.  [elif current_group:]
    is false for [None] and for the empty string. *)
Definition parse_line (st : parser_state) (line : string) : parser_state :=
  let line := Text.strip line in
  if bool_decide (line = "") then st
  else if Text.startswith_hash line then
    let g := Text.strip (Text.tail line) in
    {| tissue_groups := PyDict.set (tissue_groups st) g [];
       current_group := Some g |}
  else
    match current_group st with
    | Some g =>
        if bool_decide (g = "") then st
        else {| tissue_groups :=
                  PyDict.update (tissue_groups st) g (λ l, l ++ [line]);
                current_group := Some g |}
    | None => st
    end.

Definition parse_lines (lines : list string) : PyDict.t (list string) :=
  tissue_groups (foldl parse_line parser_init lines).

Definition load_histology_dictionary (text : string) : PyDict.t (list string) :=
  parse_lines (Text.readlines text).

(** *** [get_tissue_to_group_mapping] *)

(** [self.expression_data['Tissue'].unique()] *)
Definition all_tissues_in_data (table : Table) : list string :=
  unique (Tissue <$> table).

(** [[t for t in all_tissues_in_data if t.lower() == tissue.lower()]] *)
Definition matching_tissues (all : list string) (tissue : string) : list string :=
  filter (λ t, Text.lower t = Text.lower tissue) all.

Definition get_tissue_to_group_mapping
    (groups : PyDict.t (list string)) (table : Table) : gmap string string :=
  let all := all_tissues_in_data table in
  foldl (λ acc '(group, tissues),
           foldl (λ acc tissue,
                    match matching_tissues all tissue with
                    | m :: _ => <[m := group]> acc
                    | [] => acc
                    end) acc tissues)
        ∅ groups.

(** *** [get_expression_for_genes] *)

Definition get_expression_for_genes (gene_names : list string) (table : Table) : Table :=
  filter (λ r, Gene_name r ∈ gene_names) table.

(** *** [get_ordered_tissues_by_group] *)

Definition get_ordered_tissues_by_group
    (groups : PyDict.t (list string)) (table : Table)
    : list string * gmap string string :=
  let tissue_to_group := get_tissue_to_group_mapping groups table in
  let all := all_tissues_in_data table in
  let ordered_tissues :=
    foldl (λ acc '(group, tissues),
             foldl (λ acc tissue,
                      match matching_tissues all tissue with
                      | m :: _ => acc ++ [m]
                      | [] => acc
                      end) acc tissues)
          [] groups in
  foldl (λ '(ordered_tissues, tissue_to_group) tissue,
           if bool_decide (tissue ∈ ordered_tissues)
           then (ordered_tissues, tissue_to_group)
           else (ordered_tissues ++ [tissue], <[tissue := "Other"]> tissue_to_group))
        (ordered_tissues, tissue_to_group) all.

(** *** [aggregate_by_organ_group] *)

(** [data['Tissue'].map(tissue_to_group)] followed by [fillna('Other')] *)
Definition organ_group (tissue_to_group : gmap string string) (r : Row) : string :=
  default "Other" (tissue_to_group !! Tissue r).

(** The key of [groupby(['Gene', 'Gene name', 'Organ Group'])]. *)
Definition group_key (tissue_to_group : gmap string string) (r : Row)
    : string * string * string :=
  (Gene r, Gene_name r, organ_group tissue_to_group r).

(** [groupby] lists its groups in increasing key order, keys compared
    column by column. *)
Definition key_leb (a b : string * string * string) : bool :=
  match String.compare a.1.1 b.1.1 with
  | Lt => true
  | Gt => false
  | Eq =>
      match String.compare a.1.2 b.1.2 with
      | Lt => true
      | Gt => false
      | Eq => String.leb a.2 b.2
      end
  end.

Definition sort_keys (l : list (string * string * string))
    : list (string * string * string) :=
  Py.sorted key_leb l.

(** The values that are not NaN. *)
Definition present (vs : list (option Q)) : list Q := omap id vs.

(** [mean()] of a group: NaN cells are skipped; a group with no value left
    has mean NaN; otherwise the mean is the one pandas computes, in floating
    point, of the values left. *)
Definition mean `{Numpy} (vs : list (option Q)) : option Q :=
  match present vs with
  | [] => None
  | xs => Some (mean_of xs)
  end.

(** The body of [aggregate_by_organ_group] after the mapping is computed. *)
Definition aggregate_rows `{Numpy}
    (tissue_to_group : gmap string string) (data : Table) : Table :=
  let key := group_key tissue_to_group in
  (λ k, {| Gene := k.1.1;
           Gene_name := k.1.2;
           Tissue := k.2;
           nTPM := mean (nTPM <$> filter (λ r, key r = k) data) |})
    <$> sort_keys (unique (key <$> data)).

Definition aggregate_by_organ_group `{Numpy}
    (groups : PyDict.t (list string)) (table : Table) (data : Table) : Table :=
  aggregate_rows (get_tissue_to_group_mapping groups table) data.

(** *** [load_expression_data] *)

(** [sorted(self.expression_data['Gene name'].unique())], the options of
    the gene selector. *)
Definition genes (table : Table) : list string :=
  Py.sorted String.leb (unique (Gene_name <$> table)).

End DataLoader.

(** ** The [DataLoader] object: its fields and the loading on demand *)

Module LoaderObject.

(** The two files, as [read_csv] and [open] give them.  [None] is a file on
    which the call raises, before anything is assigned.  [Some table] is a
    data file that reads as a frame with the four columns and strings for
    the gene names: on such a frame the line that follows [read_csv] in
    [load_expression_data] ([sorted] of the distinct gene names) cannot
    raise.  A file that reads as another kind of frame is not covered. *)
Record Files := mkFiles {
  data_file : option DataLoader.Table;
  histology_file : option string
}.

(** [self.expression_data], [self.tissue_groups] and [self.genes]; the two
    paths are fixed when the object is made and stand behind [Files]. *)
Record loader := mkLoader {
  expression_data : option DataLoader.Table;
  tissue_groups : option (PyDict.t (list string));
  genes : option (list string)
}.

(** [__init__] *)
Definition init : loader :=
  {| expression_data := None; tissue_groups := None; genes := None |}.

(** A method: its result ([None] when it raises) and the object after it.
    An exception keeps what was assigned before it. *)
Definition L (A : Type) : Type := loader → option A * loader.

Definition load_expression_data (files : Files) : L DataLoader.Table :=
  λ self,
    match data_file files with
    | Some table =>
        (* self.expression_data = pd.read_csv(self.data_path, sep='\t') *)
        let self :=
          {| expression_data := Some table;
             tissue_groups := tissue_groups self;
             genes := genes self |} in
        (* self.genes = sorted(self.expression_data['Gene name'].unique()) *)
        let self :=
          {| expression_data := expression_data self;
             tissue_groups := tissue_groups self;
             genes := Some (DataLoader.genes table) |} in
        (Some table, self)
    | None => (None, self)
    end.

Definition load_histology_dictionary (files : Files) : L (PyDict.t (list string)) :=
  λ self,
    match histology_file files with
    | Some text =>
        let groups := DataLoader.load_histology_dictionary text in
        (Some groups,
         {| expression_data := expression_data self;
            tissue_groups := Some groups;
            genes := genes self |})
    | None => (None, self)
    end.

(** [if self.tissue_groups is None: self.load_histology_dictionary()] *)
Definition need_tissue_groups (files : Files) : L (PyDict.t (list string)) :=
  λ self,
    match tissue_groups self with
    | Some groups => (Some groups, self)
    | None => load_histology_dictionary files self
    end.

(** [if self.expression_data is None: self.load_expression_data()] *)
Definition need_expression_data (files : Files) : L DataLoader.Table :=
  λ self,
    match expression_data self with
    | Some table => (Some table, self)
    | None => load_expression_data files self
    end.

Definition get_tissue_to_group_mapping (files : Files) : L (gmap string string) :=
  λ self,
    match need_tissue_groups files self with
    | (Some groups, self) =>
        match need_expression_data files self with
        | (Some table, self) =>
            (Some (DataLoader.get_tissue_to_group_mapping groups table), self)
        | (None, self) => (None, self)
        end
    | (None, self) => (None, self)
    end.

Definition get_expression_for_genes (files : Files) (gene_names : list string)
    : L DataLoader.Table :=
  λ self,
    match need_expression_data files self with
    | (Some table, self) =>
        (Some (DataLoader.get_expression_for_genes gene_names table), self)
    | (None, self) => (None, self)
    end.

(** The two tests at its start load what is missing, so the call of
    [get_tissue_to_group_mapping] inside finds both fields set. *)
Definition get_ordered_tissues_by_group (files : Files)
    : L (list string * gmap string string) :=
  λ self,
    match need_tissue_groups files self with
    | (Some _, self) =>
        match need_expression_data files self with
        | (Some _, self) =>
            match get_tissue_to_group_mapping files self with
            | (Some _, self) =>
                match tissue_groups self, expression_data self with
                | Some groups, Some table =>
                    (Some (DataLoader.get_ordered_tissues_by_group groups table), self)
                | _, _ => (None, self)
                end
            | (None, self) => (None, self)
            end
        | (None, self) => (None, self)
        end
    | (None, self) => (None, self)
    end.

Definition aggregate_by_organ_group `{Floats.Numpy} (files : Files)
    (data : DataLoader.Table) : L DataLoader.Table :=
  λ self,
    match get_tissue_to_group_mapping files self with
    | (Some tissue_to_group, self) =>
        (Some (DataLoader.aggregate_rows tissue_to_group data), self)
    | (None, self) => (None, self)
    end.

End LoaderObject.


(** ** [app.py] *)

Module App.
Import DataLoader.

(** *** Data frames and the store *)

(** A row of a [DataFrame]; the [Tissue] cell of a categorical column is
    NaN ([None]) for a value outside the categories. *)
Record FrameRow := mkCell {
  cell_Gene : string;
  cell_Gene_name : string;
  cell_Tissue : option string;
  cell_nTPM : option Q
}.

Record Frame := mkFrame {
  rows : list FrameRow;
  (** [Some cats] when the column [Tissue] is an ordered [Categorical] *)
  categories : option (list string)
}.

Definition to_frame (t : Table) : Frame :=
  {| rows := (λ r, mkCell (Gene r) (Gene_name r) (Some (Tissue r)) (nTPM r)) <$> t;
     categories := None |}.

(** The state a callback runs in: the two fields of the module-level
    [data_loader] (loaded when the module is imported) and the [DataFrame]
    objects that are passed by reference. *)
Record World := mkWorld {
  expression_data : Table;
  tissue_groups : PyDict.t (list string);
  heap : list Frame
}.

(** State and exceptions: [None] is a raised exception. *)
Definition M (A : Type) : Type := World → option (A * World).

Definition ret {A} (x : A) : M A := λ w, Some (x, w).
Definition bind {A B} (m : M A) (f : A → M B) : M B :=
  λ w, match m w with
       | Some (x, w') => f x w'
       | None => None
       end.
Definition raise {A} : M A := λ _, None.
Definition lift {A} (o : option A) : M A := λ w, (λ x, (x, w)) <$> o.
Definition get_world : M World := λ w, Some (w, w).

#[export] Instance M_ret : MRet M := @ret.
#[export] Instance M_bind : MBind M := λ A B f m, bind m f.

(** A new object. *)
Definition alloc (f : Frame) : M nat :=
  λ w, Some (length (heap w),
             {| expression_data := expression_data w;
                tissue_groups := tissue_groups w;
                heap := heap w ++ [f] |}).

Definition deref (r : nat) : M Frame := λ w, (λ f, (f, w)) <$> heap w !! r.

(** An update of the object in place. *)
Definition store (r : nat) (f : Frame) : M unit :=
  λ w, if bool_decide (r < length (heap w)) then
         Some (tt, {| expression_data := expression_data w;
                      tissue_groups := tissue_groups w;
                      heap := <[r := f]> (heap w) |})
       else None.

(** [data.copy()] *)
Definition df_copy (data : nat) : M nat := f ← deref data; alloc f.

(** [pd.Categorical(data['Tissue'], categories=cats, ordered=True)] as the
    new column [Tissue] of a frame: a value outside the categories becomes
    NaN. *)
Definition as_categorical (f : Frame) (cats : list string) : Frame :=
  {| rows := (λ r, mkCell (cell_Gene r) (cell_Gene_name r)
                     (t ← cell_Tissue r; if bool_decide (t ∈ cats) then Some t else None)
                     (cell_nTPM r)) <$> rows f;
     categories := Some cats |}.

(** [data['Tissue'] = pd.Categorical(data['Tissue'], categories=cats,
    ordered=True)]: the frame is updated in place; categories that are not
    unique raise [ValueError]. *)
Definition set_tissue_categorical (data : nat) (cats : list string) : M unit :=
  if bool_decide (NoDup cats) then
    f ← deref data;
    store data (as_categorical f cats)
  else raise.

(** The code of a value: its position among the categories; for a column
    of plain strings, its rank among the distinct values. *)
Definition tissue_code (cats : list string) (t : string) : nat :=
  default 0 (fst <$> list_find (λ c, c = t) cats).

(** [data.sort_values('Tissue')]: the rows with a value follow the order
    [argsort] gives their codes, the rows with NaN come last. *)
Definition sort_values_tissue `{Numpy} (f : Frame) : list FrameRow :=
  let valued := filter (λ r, is_Some (cell_Tissue r)) (rows f) in
  let missing := filter (λ r, cell_Tissue r = None) (rows f) in
  let cats :=
    default (Py.sorted String.leb (unique (omap cell_Tissue valued))) (categories f) in
  let codes := (λ r, tissue_code cats (default "" (cell_Tissue r))) <$> valued in
  omap (λ i, valued !! i) (argsort codes) ++ missing.

(** *** Chart descriptions *)

(** The text of a hover label, by the format string that builds it and the
    values it formats; a value [None] is one that is not a finite number
    (NaN, or [inf] for an original value too large for a double). *)
Inductive Hover :=
| HoverNA (gene : string) (tissue : option string)
| HoverLinear (gene : string) (tissue : option string) (organ : string)
    (ntpm : option Q)
| HoverLog (gene : string) (tissue : option string) (organ : string)
    (log_ntpm : option Q) (original_value : option Q).

Record VLine := mkVLine {
  vline_x : Q;
  line_width : Z;
  line_color : string
}.

Inductive Trace :=
| Heatmap (z : list (list (option Q))) (x : list string) (y : list string)
    (customdata : list (list Hover)) (colorbar_title : string)
| Bar (name : string) (x : list (option string)) (y : list (option Q))
    (customdata : list Hover)
| Box (name : string) (x : list (option string)) (y : list (option Q)).

Record Layout := mkLayout {
  title_text : string;
  xaxis_title : string;
  yaxis_title : string;
  barmode : option string;
  height : Z;
  width : Z
}.

Record Figure := mkFigure {
  traces : list Trace;
  vlines : list VLine;
  layout : Layout
}.

(** [max(800, min(2000, num_tissues * 25 + 200))] *)
Definition dynamic_width (num_tissues : nat) : Z :=
  800 `max` (2000 `min` (Z.of_nat num_tissues * 25 + 200)).

(** [tissue_to_group.get(tissue, "Other")] *)
Definition group_of (tissue_to_group : gmap string string) (tissue : option string)
    : string :=
  default "Other" (t ← tissue; tissue_to_group !! t).

(** *** [create_heatmap] *)

(** [data.pivot(index='Gene name', columns='Tissue', values='nTPM')]: the
    row labels are the gene names in increasing order; [ValueError] when a
    (gene name, tissue) pair occurs twice.  The order of the column labels
    is left as found: the caller replaces it on the next line. *)
Definition df_pivot (f : Frame) : option (list string * list (option string)) :=
  if bool_decide (NoDup ((λ r, (cell_Gene_name r, cell_Tissue r)) <$> rows f)) then
    Some (Py.sorted String.leb (unique (cell_Gene_name <$> rows f)),
          unique (cell_Tissue <$> rows f))
  else None.

(** The cell of the pivot table for a gene and a tissue; NaN when the frame
    has no such row. *)
Definition pivot_cell (f : Frame) (gene tissue : string) : option Q :=
  p ← list_find (λ r, cell_Gene_name r = gene ∧ cell_Tissue r = Some tissue) (rows f);
  cell_nTPM p.2.

(** [pivot_data.loc[gene, tissue]] yields a number only when the column
    label is unique; otherwise it yields a Series, and the test
    [pd.isna(value)] that follows raises [ValueError]. *)
Definition loc (f : Frame) (columns : list string) (gene tissue : string)
    : option (option Q) :=
  if bool_decide (length (filter (λ c, c = tissue) columns) = 1)
  then Some (pivot_cell f gene tissue)
  else None.

(** The loop that adds the group separators: [i] counts the columns,
    [current_group] is [None] until the first column is seen. *)
Fixpoint group_separators (tissue_to_group : gmap string string)
    (i : nat) (current_group : option string) (columns : list string)
    : list VLine :=
  match columns with
  | [] => []
  | tissue :: columns' =>
      let group := group_of tissue_to_group (Some tissue) in
      if bool_decide (Some group ≠ current_group) then
        {| vline_x := inject_Z (Z.of_nat i) - (1 # 2);
           line_width := 2;
           line_color := "white" |}
          :: group_separators tissue_to_group (S i) (Some group) columns'
      else group_separators tissue_to_group (S i) current_group columns'
  end.

(** The body of [create_heatmap], which only reads the frame. *)
Definition heatmap_figure `{Numpy} (f : Frame) (ordered_tissues : list string)
    (tissue_to_group : gmap string string) (show_groups log_scale : bool)
    : option Figure :=
  '(index, pivot_columns) ← df_pivot f;
  let available_tissues :=
    filter (λ t, Some t ∈ pivot_columns) ordered_tissues in
  let columns := available_tissues in
  hover_text ← mapM (λ gene,
    mapM (λ tissue,
      value ← loc f columns gene tissue;
      Some match value with
           | None => HoverNA gene (Some tissue)
           | Some v =>
               let group := group_of tissue_to_group (Some tissue) in
               if log_scale : bool
               then HoverLog gene (Some tissue) group (Some v)
                      ((λ p, round64 (p - 1)%Q) <$> pow2 v)
               else HoverLinear gene (Some tissue) group (Some v)
           end) columns) index;
  let fig_data :=
    Heatmap ((λ gene, pivot_cell f gene <$> columns) <$> index)
      columns index hover_text
      (if log_scale then "log2(nTPM+1)" else "nTPM") in
  let separators :=
    if show_groups then group_separators tissue_to_group 0 None columns
    else [] in
  Some {| traces := [fig_data];
          vlines := separators;
          layout :=
            {| title_text :=
                 "Gene Expression Heatmap" +:+ (if log_scale then " (Log Scale)" else "");
               xaxis_title := "Tissue";
               yaxis_title := "Gene";
               barmode := None;
               height := 600 `max` (Z.of_nat (length index) * 60);
               width := dynamic_width (length columns) |} |}.

Definition create_heatmap `{Numpy} (data : nat) (ordered_tissues : list string)
    (tissue_to_group : gmap string string) (show_groups log_scale : bool)
    : M Figure :=
  f ← deref data;
  lift (heatmap_figure f ordered_tissues tissue_to_group show_groups log_scale).

(** *** [create_bar_chart] and [create_box_plot] *)

(** The hover label of one bar.  The values of a [Series] that is iterated
    are Python [float]s, so on the log scale [2**ntpm] raises
    [OverflowError] where the power is too large for a double; of NaN it is
    NaN. *)
Definition bar_hover `{Numpy} (tissue_to_group : gmap string string)
    (log_scale : bool) (gene : string) (r : FrameRow) : option Hover :=
  let group := group_of tissue_to_group (cell_Tissue r) in
  if log_scale then
    match cell_nTPM r with
    | Some ntpm =>
        p ← pow2 ntpm;
        Some (HoverLog gene (cell_Tissue r) group (Some ntpm)
                (Some (round64 (p - 1)%Q)))
    | None => Some (HoverLog gene (cell_Tissue r) group None None)
    end
  else Some (HoverLinear gene (cell_Tissue r) group (cell_nTPM r)).

(** The body of [create_bar_chart] from [sort_values] on, which only reads
    the frame; [None] when a hover label raises. *)
Definition bar_figure `{Numpy} (f : Frame)
    (tissue_to_group : gmap string string) (log_scale : bool) : option Figure :=
  let data := sort_values_tissue f in
  fig_data ← mapM (λ gene,
    let gene_data := filter (λ r, cell_Gene_name r = gene) data in
    hover_text ← mapM (bar_hover tissue_to_group log_scale gene) gene_data;
    Some (Bar gene (cell_Tissue <$> gene_data) (cell_nTPM <$> gene_data) hover_text))
    (unique (cell_Gene_name <$> data));
  let num_tissues := length (unique (cell_Tissue <$> data)) in
  Some {| traces := fig_data;
          vlines := [];
          layout :=
            {| title_text :=
                 "Gene Expression by Tissue"
                 +:+ (if log_scale then " (Log Scale)" else "");
               xaxis_title := "Tissue";
               yaxis_title := if log_scale then "log2(nTPM+1)" else "nTPM";
               barmode := Some "group";
               height := 700;
               width := dynamic_width num_tissues |} |}.

Definition create_bar_chart `{Numpy} (data : nat) (ordered_tissues : list string)
    (tissue_to_group : gmap string string) (log_scale : bool) : M Figure :=
  data ← df_copy data;
  set_tissue_categorical data ordered_tissues;;
  f ← deref data;
  lift (bar_figure f tissue_to_group log_scale).

(** The body of [create_box_plot] from [sort_values] on. *)
Definition box_figure `{Numpy} (f : Frame) (log_scale : bool) : Figure :=
  let data := sort_values_tissue f in
  let fig_data :=
    (λ gene,
       let gene_data := filter (λ r, cell_Gene_name r = gene) data in
       Box gene (cell_Tissue <$> gene_data) (cell_nTPM <$> gene_data))
      <$> unique (cell_Gene_name <$> data) in
  let num_tissues := length (unique (cell_Tissue <$> data)) in
  {| traces := fig_data;
     vlines := [];
     layout :=
       {| title_text :=
            "Gene Expression Distribution" +:+ (if log_scale then " (Log Scale)" else "");
          xaxis_title := "Tissue";
          yaxis_title := if log_scale then "log2(nTPM+1)" else "nTPM";
          barmode := None;
          height := 700;
          width := dynamic_width num_tissues |} |}.

Definition create_box_plot `{Numpy} (data : nat) (ordered_tissues : list string)
    (tissue_to_group : gmap string string) (log_scale : bool) : M Figure :=
  data ← df_copy data;
  set_tissue_categorical data ordered_tissues;;
  f ← deref data;
  mret (box_figure f log_scale).

(** *** [update_visualization] *)

(** What the callback returns: a [dbc.Alert] with its text and colour, or
    a [dcc.Graph] with its figure. *)
Inductive Component :=
| Alert (children : string) (color : string)
| Graph (figure : Figure).

Definition empty_selection_alert : Component :=
  Alert "👆 Please select one or more genes to visualize" "info".
Definition selection_too_large_alert : Component :=
  Alert "⚠️ Please select no more than 10 genes" "warning".
Definition no_data_alert : Component :=
  Alert "No expression data found for selected genes" "warning".
Definition invalid_type_alert : Component :=
  Alert "Invalid visualization type" "danger".

(** [expression_data['nTPM'] = np.log2(expression_data['nTPM'] + 1)] *)
Definition log_transform `{Numpy} (data : Table) : Table :=
  (λ r, {| Gene := Gene r; Gene_name := Gene_name r; Tissue := Tissue r;
           nTPM := v ← nTPM r; log2 (round64 (v + 1)%Q) |}) <$> data.

(** The callback after its two checks of the selection (from
    [get_expression_for_genes] on).  The frames it makes itself are new
    objects that nothing else refers to; the one handed to a chart builder
    is put in the store. *)
Definition build_visualization `{Numpy} (selected_genes : list string)
    (grouping viz_type log_scale : string) : M Component :=
  w ← get_world;
  let expression_data :=
    get_expression_for_genes selected_genes (expression_data w) in
  if bool_decide (expression_data = []) then mret no_data_alert
  else
    let '(ordered_tissues, tissue_to_group) :=
      get_ordered_tissues_by_group (tissue_groups w) (App.expression_data w) in
    let '(expression_data, ordered_tissues, tissue_to_group) :=
      if bool_decide (grouping = "organ") then
        let expression_data :=
          aggregate_by_organ_group (tissue_groups w) (App.expression_data w)
            expression_data in
        let ordered_tissues :=
          Py.sorted String.leb (unique (Tissue <$> expression_data)) in
        (expression_data, ordered_tissues,
         list_to_map ((λ t, (t, t)) <$> ordered_tissues) : gmap string string)
      else (expression_data, ordered_tissues, tissue_to_group) in
    let expression_data :=
      if bool_decide (log_scale = "log") then log_transform expression_data
      else expression_data in
    data ← alloc (to_frame expression_data);
    if bool_decide (viz_type = "heatmap") then
      fig ← create_heatmap data ordered_tissues tissue_to_group
              (bool_decide (grouping = "tissue")) (bool_decide (log_scale = "log"));
      mret (Graph fig)
    else if bool_decide (viz_type = "bar") then
      fig ← create_bar_chart data ordered_tissues tissue_to_group
              (bool_decide (log_scale = "log"));
      mret (Graph fig)
    else if bool_decide (viz_type = "box") then
      fig ← create_box_plot data ordered_tissues tissue_to_group
              (bool_decide (log_scale = "log"));
      mret (Graph fig)
    else mret invalid_type_alert.

(** [selected_genes] is [None] until the user has chosen something;
    [not selected_genes] holds for [None] and for the empty list. *)
Definition update_visualization `{Numpy} (selected_genes : option (list string))
    (grouping viz_type log_scale : string) : M Component :=
  match selected_genes with
  | None | Some [] => mret empty_selection_alert
  | Some selected_genes =>
      if bool_decide (10 < length selected_genes) then
        mret selection_too_large_alert
      else build_visualization selected_genes grouping viz_type log_scale
  end.

(** *** [update_gene_count] *)

(** What the counter shows: a plain text, or a red bold [html.Span]. *)
Inductive CountDisplay :=
| CountText (children : string)
| CountWarning (children : string) (color : string) (fontWeight : string).

(** [f"{count}"] *)
Definition format_count (count : nat) : string :=
  DecimalString.NilZero.string_of_uint (Nat.to_uint count).

Definition update_gene_count (selected_genes : option (list string)) : CountDisplay :=
  match selected_genes with
  | None | Some [] => CountText "No genes selected"
  | Some selected_genes =>
      let count := length selected_genes in
      if bool_decide (10 < count) then
        CountWarning
          ("⚠️ " +:+ format_count count +:+ "/10 genes selected (maximum 10 allowed)")
          "red" "bold"
      else CountText ("✓ " +:+ format_count count +:+ "/10 genes selected")
  end.

End App.

(** ** Vocabulary of the statements *)

Module Notions.
Import DataLoader App.

(** One step of [unique]: a value seen before is skipped. *)
Definition remember {A} `{EqDecision A} (seen : list A) (x : A) : list A :=
  if bool_decide (x ∈ seen) then seen else seen ++ [x].

(** *** Lines of the dictionary file *)

(** The group a line opens, if it is a header. *)
Definition header_name (line : string) : option string :=
  let line := Text.strip line in
  if bool_decide (line = "") then None
  else if Text.startswith_hash line then Some (Text.strip (Text.tail line))
  else None.

(** The tissue a line names: neither blank nor a header. *)
Definition tissue_name (line : string) : option string :=
  let line := Text.strip line in
  if bool_decide (line = "") then None
  else if Text.startswith_hash line then None
  else Some line.

Definition header_names (lines : list string) : list string :=
  omap header_name lines.

(** The tissues listed from here up to the next header. *)
Fixpoint tissue_block (lines : list string) : list string :=
  match lines with
  | [] => []
  | line :: lines' =>
      match header_name line with
      | Some _ => []
      | None =>
          match tissue_name line with
          | Some t => t :: tissue_block lines'
          | None => tissue_block lines'
          end
      end
  end.

(** *** Entries of the dictionary *)

(** The (group, tissue) pairs in the order the two nested loops visit
    them. *)
Definition entries (groups : PyDict.t (list string)) : list (string * string) :=
  '(group, tissues) ← groups; (λ tissue, (group, tissue)) <$> tissues.

(** The table tissue a dictionary tissue stands for: [matching_tissues[0]]. *)
Definition resolve (table : Table) (tissue : string) : option string :=
  head (matching_tissues (all_tissues_in_data table) tissue).

(** The table tissues the dictionary entries stand for, entry by entry. *)
Definition resolved (groups : PyDict.t (list string)) (table : Table) : list string :=
  omap (λ e, resolve table e.2) (entries groups).

(** One step of the loop of [get_tissue_to_group_mapping], on an entry. *)
Definition record_group (table : Table) (acc : gmap string string)
    (e : string * string) : gmap string string :=
  match resolve table e.2 with
  | Some m => <[m := e.1]> acc
  | None => acc
  end.

(** One step of the last loop of [get_ordered_tissues_by_group]. *)
Definition append_other (acc : list string * gmap string string) (tissue : string)
    : list string * gmap string string :=
  let '(ordered_tissues, tissue_to_group) := acc in
  if bool_decide (tissue ∈ ordered_tissues)
  then (ordered_tissues, tissue_to_group)
  else (ordered_tissues ++ [tissue], <[tissue := "Other"]> tissue_to_group).

(** *** Rows *)

Definition output_key (r : Row) : string * string * string :=
  (Gene r, Gene_name r, Tissue r).

(** *** Separators of the heatmap *)

(** The line [fig.add_vline(x=i-0.5, line_width=2, line_color="white")]. *)
Definition separator (i : nat) : VLine :=
  {| vline_x := inject_Z (Z.of_nat i) - (1 # 2);
     line_width := 2;
     line_color := "white" |}.

(** Column [i] starts a group: the column before it is in another group. *)
Definition group_changes_at (tissue_to_group : gmap string string)
    (columns : list string) (i : nat) : Prop :=
  0 < i ∧
  group_of tissue_to_group (columns !! (i - 1)) ≠ group_of tissue_to_group (columns !! i).

#[export] Instance group_changes_at_dec ttg columns i :
  Decision (group_changes_at ttg columns i).
Proof. unfold group_changes_at. apply _. Defined.

(** *** Purity of a chart builder *)

(** The figure depends on the store only through the frame [data] refers
    to, and a run changes nothing that existed before it. *)
Definition pure_builder (builder : nat → M Figure) : Prop :=
  (∀ w1 w2 data1 data2,
      heap w1 !! data1 = heap w2 !! data2 →
      fst <$> builder data1 w1 = fst <$> builder data2 w2)
  ∧ (∀ w data fig w',
      builder data w = Some (fig, w') →
      expression_data w' = expression_data w
      ∧ tissue_groups w' = App.tissue_groups w
      ∧ heap w `prefix_of` heap w').

(** *** An instance of the numeric primitives, for the examples *)

Fixpoint insert_index (codes : list nat) (i : nat) (l : list nat) : list nat :=
  match l with
  | [] => [i]
  | j :: l' =>
      if default 0 (codes !! j) <=? default 0 (codes !! i)
      then j :: insert_index codes i l'
      else i :: l
  end.

(** A stable [argsort]. *)
Definition stable_argsort (codes : list nat) : list nat :=
  foldl (λ acc i, insert_index codes i acc) [] (seq 0 (length codes)).

(** The functions of [Numpy] where they need no rounding: [log2] on the
    powers of two, [2 ** x] on the integers (too large for a double from
    1024 on), the mean where the sum and the quotient are doubles, and the
    rounding of a double.  On other arguments the instance is a stand-in. *)
Definition exact_log2 (q : Q) : option Q :=
  let q := Qred q in
  if bool_decide (Qden q = 1%positive ∧ (0 < Qnum q)%Z
                  ∧ (2 ^ Z.log2 (Qnum q))%Z = Qnum q)
  then Some (inject_Z (Z.log2 (Qnum q)))
  else None.

Definition exact_pow2 (q : Q) : option Q :=
  let n := Qfloor q in
  if bool_decide (1024 ≤ n)%Z then None else Some (Qred (2 ^ n)%Q).

Definition exact_mean (xs : list Q) : Q :=
  Qred (foldl Qplus 0%Q xs / inject_Z (Z.of_nat (length xs))).

Definition example_numpy : Numpy :=
  {| round64 := Qred;
     mean_of := exact_mean;
     log2 := exact_log2;
     pow2 := exact_pow2;
     argsort := stable_argsort |}.

(** The rows a chart is drawn from, before the change of scale: the rows
    of the selected genes, aggregated when the grouping is by organ. *)
Definition prepared_rows `{Numpy} (w : World) (selected_genes : list string)
    (grouping : string) : Table :=
  let expression_data :=
    get_expression_for_genes selected_genes (expression_data w) in
  if bool_decide (grouping = "organ") then
    aggregate_by_organ_group (App.tissue_groups w) (App.expression_data w)
      expression_data
  else expression_data.

(** *** A small table and dictionary, for the examples *)

Definition example_table : Table :=
  [mkRow "ENSG01" "ALB" "liver" (Some 10%Q);
   mkRow "ENSG01" "ALB" "cortex" (Some 2%Q);
   mkRow "ENSG02" "GFAP" "skin" (Some 3%Q);
   mkRow "ENSG02" "GFAP" "CEREBELLUM" (Some 4%Q)].

Definition example_groups : PyDict.t (list string) :=
  [("Liver", ["liver"]); ("Brain", ["cortex"; "cerebellum"])].

(** The state after start-up, with one frame (the whole table) to chart. *)
Definition example_world : World :=
  {| expression_data := example_table;
     tissue_groups := example_groups;
     heap := [to_frame example_table] |}.

(** A later state: another frame was made before the same frame. *)
Definition later_world : World :=
  {| expression_data := example_table;
     tissue_groups := example_groups;
     heap := [to_frame []; to_frame example_table] |}.

Definition example_order : list string * gmap string string :=
  get_ordered_tissues_by_group example_groups example_table.

(** The figure and the final state of a run; an empty figure and the
    initial state stand for a run that raised. *)
Definition figure_of (run : option (Figure * World)) : Figure :=
  match run with
  | Some (fig, _) => fig
  | None => {| traces := []; vlines := [];
               layout := mkLayout "" "" "" None 0 0 |}
  end.

Definition world_of (w : World) (run : option (Figure * World)) : World :=
  match run with
  | Some (_, w') => w'
  | None => w
  end.

Definition example_heatmap : option (Figure * World) :=
  create_heatmap (H := example_numpy) 0 example_order.1 example_order.2
    true false example_world.

Definition example_box_plot : option (Figure * World) :=
  create_box_plot (H := example_numpy) 0 example_order.1 ∅ true example_world.

Definition example_bar_chart : option (Figure * World) :=
  create_bar_chart (H := example_numpy) 0 example_order.1 example_order.2
    false example_world.

(** The heatmap by organ of the two genes of the example, as the callback
    builds it, and the state after it. *)
Definition heatmap_by_organ : Figure * World :=
  Eval vm_compute in
    match update_visualization (H := example_numpy) (Some ["ALB"; "GFAP"])
            "organ" "heatmap" "linear" example_world with
    | Some (Graph fig, w') => (fig, w')
    | _ => ({| traces := []; vlines := []; layout := mkLayout "" "" "" None 0 0 |},
            example_world)
    end.

(** A table with a value whose power of two is too large for a double (on
    the log scale the value is the logarithm), and the state with its frame
    to chart. *)
Definition large_value_table : Table :=
  [mkRow "ENSG01" "ALB" "liver" (Some 1024%Q);
   mkRow "ENSG02" "GFAP" "skin" (Some 3%Q)].

Definition large_value_world : World :=
  {| expression_data := large_value_table;
     tissue_groups := example_groups;
     heap := [to_frame large_value_table] |}.

(** A selection of ten gene names, two of them in the table. *)
Definition ten_genes : list string :=
  ["ALB"; "GFAP"; "TP53"; "BRCA1"; "EGFR"; "MYC"; "KRAS"; "PTEN"; "INS"; "APOE"].

(** A selection of ten gene names, none of them in the table. *)
Definition ten_unknown_genes : list string :=
  ["TP53"; "BRCA1"; "EGFR"; "MYC"; "KRAS"; "PTEN"; "INS"; "APOE"; "TNF"; "IL6"].

(** *** Well-formed names *)

(** A name as the parser stores it: not empty, no white space around it. *)
Definition trimmed (s : string) : Prop := Text.strip s = s.

(** A tissue name as the parser stores it. *)
Definition tissue_like (s : string) : Prop :=
  s ≠ "" ∧ trimmed s ∧ Text.startswith_hash s = false.

(** What the parser keeps true of a group of the dictionary it builds. *)
Definition well_formed_group (p : string * list string) : Prop :=
  trimmed p.1 ∧ (p.1 = "" → p.2 = []) ∧ Forall tissue_like p.2.

(** *** Parts of a figure *)

(** The name of a series and its points, for a bar or a box trace. *)
Definition series (trace : Trace)
    : option (string * list (option string) * list (option Q)) :=
  match trace with
  | Bar name x y _ => Some (name, x, y)
  | Box name x y => Some (name, x, y)
  | Heatmap _ _ _ _ _ => None
  end.

(** The (gene name, tissue, value) points a bar or box trace draws. *)
Definition points (trace : Trace) : list (string * option string * option Q) :=
  match trace with
  | Bar name x y _ => zip_with (λ t v, (name, t, v)) x y
  | Box name x y => zip_with (λ t v, (name, t, v)) x y
  | Heatmap _ _ _ _ _ => []
  end.

(** The hover label of a heatmap cell. *)
Definition cell_hover `{Numpy} (tissue_to_group : gmap string string)
    (log_scale : bool) (gene tissue : string) (value : option Q) : Hover :=
  match value with
  | None => HoverNA gene (Some tissue)
  | Some v =>
      if log_scale
      then HoverLog gene (Some tissue) (group_of tissue_to_group (Some tissue))
             (Some v) ((λ p, round64 (p - 1)%Q) <$> pow2 v)
      else HoverLinear gene (Some tissue) (group_of tissue_to_group (Some tissue))
             (Some v)
  end.

(** A bar trace and a box trace with the same name and points. *)
Definition same_series (bar box : Trace) : Prop :=
  ∃ name x y hover_text, bar = Bar name x y hover_text ∧ box = Box name x y.

(** The (gene name, tissue) labels of the rows of a frame. *)
Definition labels (f : Frame) : list (string * option string) :=
  (λ r, (cell_Gene_name r, cell_Tissue r)) <$> rows f.

(** The tissues of the tissue order that occur in a frame: the columns of
    its heatmap. *)
Definition displayed_tissues (f : Frame) (ordered_tissues : list string) : list string :=
  filter (λ t, Some t ∈ cell_Tissue <$> rows f) ordered_tissues.

(** The point a row gives in a bar chart or a box plot. *)
Definition row_point (r : FrameRow) : string * option string * option Q :=
  (cell_Gene_name r, cell_Tissue r, cell_nTPM r).

(** What [argsort] is known to yield: the positions [0 .. n-1] in some
    order. *)
Definition argsort_permutes `{Numpy} : Prop :=
  ∀ codes, argsort codes ≡ₚ seq 0 (length codes).

(** The names of the series of a bar chart or a box plot. *)
Definition series_names (fig : Figure) : list string :=
  omap (λ trace, (λ s, s.1.1) <$> series trace) (traces fig).

(** What [argsort] is known to yield besides: positions in an order in
    which the codes do not decrease. *)
Definition argsort_sorts `{Numpy} : Prop :=
  ∀ codes,
    StronglySorted (λ i j, default 0 (codes !! i) ≤ default 0 (codes !! j))
      (argsort codes).

(** *** What the callback hands to a chart builder *)

(** The tissue order: the one of the resolver, or the sorted groups of the
    aggregated rows. *)
Definition chart_tissues `{Numpy} (w : World) (selected_genes : list string)
    (grouping : string) : list string :=
  if bool_decide (grouping = "organ") then
    Py.sorted String.leb (unique (Tissue <$> prepared_rows w selected_genes grouping))
  else (get_ordered_tissues_by_group (App.tissue_groups w) (App.expression_data w)).1.

Definition chart_groups `{Numpy} (w : World) (selected_genes : list string)
    (grouping : string) : gmap string string :=
  if bool_decide (grouping = "organ") then
    list_to_map ((λ t, (t, t)) <$> chart_tissues w selected_genes grouping)
  else (get_ordered_tissues_by_group (App.tissue_groups w) (App.expression_data w)).2.

(** The rows, after the change of scale. *)
Definition chart_rows `{Numpy} (w : World) (selected_genes : list string)
    (grouping log_scale : string) : Table :=
  if bool_decide (log_scale = "log")
  then log_transform (prepared_rows w selected_genes grouping)
  else prepared_rows w selected_genes grouping.

(** The state with one more frame. *)
Definition with_frame (w : World) (f : Frame) : World :=
  {| expression_data := expression_data w;
     tissue_groups := App.tissue_groups w;
     heap := heap w ++ [f] |}.

(** The selected gene names that the table has, in the order in which the
    selector offers them. *)
Definition charted_genes (w : World) (selected_genes : list string) : list string :=
  filter (λ g, g ∈ selected_genes) (genes (expression_data w)).

(** The selection as a list: nothing chosen yet is no gene. *)
Definition selection (selected_genes : option (list string)) : list string :=
  default [] selected_genes.

(** A chart type the callback knows. *)
Definition known_chart (viz_type : string) : Prop :=
  viz_type ∈ ["heatmap"; "bar"; "box"].

(** The change of scale of a value, as the callback applies it. *)
Definition on_scale `{Numpy} (log_scale : string) (v : option Q) : option Q :=
  if bool_decide (log_scale = "log") then v ← v; log2 (round64 (v + 1)%Q) else v.

(** A dictionary that lists the liver under two groups, and the state
    after start-up with it. *)
Definition twice_listed_groups : PyDict.t (list string) :=
  [("Liver", ["liver"]); ("Digestive", ["Liver"])].

Definition twice_listed_world : World :=
  {| expression_data := example_table;
     tissue_groups := twice_listed_groups;
     heap := [] |}.

(** *** States of the loader *)

(** One call of a method of the loader, with any arguments, while the two
    files stay as they are; a call that raises leaves the object as it was
    when the exception came. *)
Inductive call `{Numpy} (files : LoaderObject.Files)
    : LoaderObject.loader → LoaderObject.loader → Prop :=
| call_load_expression_data self :
    call files self (LoaderObject.load_expression_data files self).2
| call_load_histology_dictionary self :
    call files self (LoaderObject.load_histology_dictionary files self).2
| call_get_tissue_to_group_mapping self :
    call files self (LoaderObject.get_tissue_to_group_mapping files self).2
| call_get_expression_for_genes gene_names self :
    call files self (LoaderObject.get_expression_for_genes files gene_names self).2
| call_get_ordered_tissues_by_group self :
    call files self (LoaderObject.get_ordered_tissues_by_group files self).2
| call_aggregate_by_organ_group data self :
    call files self (LoaderObject.aggregate_by_organ_group files data self).2.

(** The fields of the loader hold what the files hold, or nothing. *)
Definition reflects_files (files : LoaderObject.Files) (self : LoaderObject.loader)
    : Prop :=
  (∀ table, LoaderObject.expression_data self = Some table →
            LoaderObject.data_file files = Some table)
  ∧ LoaderObject.genes self = DataLoader.genes <$> LoaderObject.expression_data self
  ∧ (∀ groups, LoaderObject.tissue_groups self = Some groups →
               ∃ text, LoaderObject.histology_file files = Some text
                       ∧ groups = load_histology_dictionary text).

(** The loader after the start-up of the application: the table is loaded,
    then the dictionary. *)
Definition after_startup (files : LoaderObject.Files) : LoaderObject.loader :=
  (LoaderObject.load_histology_dictionary files
     (LoaderObject.load_expression_data files LoaderObject.init).2).2.

(** The two files of the examples. *)
Definition example_files : LoaderObject.Files :=
  {| LoaderObject.data_file := Some example_table;
     LoaderObject.histology_file :=
       Some ("# Liver" +:+ String Text.LF "liver" +:+ String Text.LF "# Brain"
             +:+ String Text.LF "cortex" +:+ String Text.LF "cerebellum") |}.

(** Files that can no longer be read. *)
Definition unreadable_files : LoaderObject.Files :=
  {| LoaderObject.data_file := None; LoaderObject.histology_file := None |}.

(** *** Readings of the specification that the code does not meet *)

(** The parser of section 4.1 read literally: whatever the name of the
    group, the tissue lines that follow its last header are its tissues. *)
Definition tissues_go_to_latest_group : Prop :=
  ∀ text pre h g rest,
    Text.readlines text = pre ++ h :: rest →
    header_name h = Some g → g ∉ header_names rest →
    PyDict.get (load_histology_dictionary text) g = Some (tissue_block rest).

(** Section 4.2 and 8 read literally: the tissue order is a permutation of
    the distinct tissues of the table, whatever the dictionary. *)
Definition order_is_permutation : Prop :=
  ∀ groups table,
    (get_ordered_tissues_by_group groups table).1 ≡ₚ all_tissues_in_data table.

(** Section 4.2 read literally: of the entries that stand for one table
    tissue, the first one decides its group. *)
Definition earliest_entry_wins : Prop :=
  ∀ groups table es1 g e es2 t,
    entries groups = es1 ++ (g, e) :: es2 →
    resolve table e = Some t →
    (∀ e', e' ∈ es1 → resolve table e'.2 ≠ Some t) →
    get_tissue_to_group_mapping groups table !! t = Some g.

(** Section 8 read literally: a selection of exactly ten genes gets a
    chart, whatever the genes are. *)
Definition ten_genes_get_a_chart `{Numpy} : Prop :=
  ∀ selected_genes grouping viz_type log_scale w,
    length selected_genes = 10 → known_chart viz_type →
    ∃ fig w',
      update_visualization (Some selected_genes) grouping viz_type log_scale w
      = Some (Graph fig, w').

(** Section 4.4 read literally: on a heatmap of single tissues, the
    separators are the lines between two neighbouring columns of different
    groups, and no other line. *)
Definition separators_only_between_groups `{Numpy} : Prop :=
  ∀ data ordered_tissues tissue_to_group log_scale w fig w'
    z columns index hover_text colorbar_title,
    create_heatmap data ordered_tissues tissue_to_group true log_scale w
    = Some (fig, w') →
    traces fig = [Heatmap z columns index hover_text colorbar_title] →
    ∀ v, v ∈ vlines fig
         ↔ ∃ i, i < length columns
                ∧ group_changes_at tissue_to_group columns i
                ∧ v = separator i.

End Notions.

(** ** Facts about ordered dictionaries and [unique] *)

Module PyDictFacts.
Import PyDict.

Section dict.
Context {V : Type}.
Implicit Types (d : PyDict.t V) (k : string) (v : V).

Lemma get_set_eq d k v : get (set d k v) k = Some v.
Proof.
  induction d as [|[k' v'] d IH]; simpl.
  - by rewrite bool_decide_eq_true_2.
  - case_bool_decide as Hk; simpl.
    + by rewrite bool_decide_eq_true_2.
    + by rewrite bool_decide_eq_false_2.
Qed.

Lemma get_set_ne d k k' v : k ≠ k' → get (set d k v) k' = get d k'.
Proof.
  intros Hne. induction d as [|[k0 v0] d IH]; simpl.
  - by rewrite bool_decide_eq_false_2.
  - case_bool_decide as Hk; simpl.
    + subst k0. by rewrite !bool_decide_eq_false_2.
    + by rewrite IH.
Qed.

Lemma get_update_eq d k f : get (update d k f) k = f <$> get d k.
Proof.
  induction d as [|[k0 v0] d IH]; simpl; [done|].
  case_bool_decide as Hk; simpl.
  - by rewrite bool_decide_eq_true_2.
  - by rewrite bool_decide_eq_false_2.
Qed.

Lemma get_update_ne d k k' f : k ≠ k' → get (update d k f) k' = get d k'.
Proof.
  intros Hne. induction d as [|[k0 v0] d IH]; simpl; [done|].
  case_bool_decide as Hk; simpl.
  - subst k0. by rewrite !bool_decide_eq_false_2.
  - by rewrite IH.
Qed.

Lemma keys_update d k f : keys (update d k f) = keys d.
Proof.
  unfold keys. induction d as [|[k0 v0] d IH]; simpl; [done|].
  case_bool_decide; simpl; [done|]. f_equal. apply IH.
Qed.

Lemma keys_set d k v :
  keys (set d k v) = if bool_decide (k ∈ keys d) then keys d else keys d ++ [k].
Proof.
  unfold keys. induction d as [|[k0 v0] d IH].
  - by rewrite bool_decide_eq_false_2 by apply not_elem_of_nil.
  - cbn [set]. destruct (bool_decide_reflect (k0 = k)) as [->|Hk];
      rewrite !fmap_cons; cbn [fst].
    + rewrite bool_decide_eq_true_2; [done|]. apply elem_of_cons. by left.
    + rewrite IH. destruct (bool_decide_reflect (k ∈ d.*1)) as [Hin|Hin].
      * rewrite bool_decide_eq_true_2; [done|]. apply elem_of_cons. by right.
      * rewrite bool_decide_eq_false_2; [done|].
        rewrite elem_of_cons. intros [->|?]; done.
Qed.

Lemma get_Some_keys d k v : get d k = Some v → k ∈ keys d.
Proof.
  unfold keys. induction d as [|[k0 v0] d IH]; simpl; [done|].
  case_bool_decide; intros ?; subst; [left|right; auto].
Qed.
End dict.

End PyDictFacts.

Module UniqueFacts.
Import DataLoader Notions.

Section unique.
Context {A : Type} `{EqDecision A}.
Implicit Types (l seen : list A).

Lemma unique_unfold l : unique l = foldl remember [] l.
Proof. reflexivity. Qed.

Lemma elem_of_remember_all seen l x :
  x ∈ foldl remember seen l ↔ x ∈ seen ∨ x ∈ l.
Proof.
  revert seen. induction l as [|y l IH]; intros seen; simpl.
  - rewrite elem_of_nil. tauto.
  - rewrite IH, elem_of_cons. unfold remember.
    destruct (bool_decide_reflect (y ∈ seen)) as [Hy|Hy].
    + split; [tauto|]. intros [?|[->|?]]; tauto.
    + rewrite elem_of_app, list_elem_of_singleton. tauto.
Qed.

Lemma NoDup_remember_all seen l : NoDup seen → NoDup (foldl remember seen l).
Proof.
  revert seen. induction l as [|y l IH]; intros seen Hnd; simpl; [done|].
  apply IH. unfold remember. case_bool_decide as Hy; [done|].
  apply NoDup_app. split_and!; [done| |apply NoDup_singleton].
  intros x Hx ->%list_elem_of_singleton. done.
Qed.

Lemma elem_of_unique l x : x ∈ unique l ↔ x ∈ l.
Proof.
  rewrite unique_unfold, elem_of_remember_all, elem_of_nil. tauto.
Qed.

Lemma NoDup_unique l : NoDup (unique l).
Proof. rewrite unique_unfold. apply NoDup_remember_all, NoDup_nil_2. Qed.
End unique.

End UniqueFacts.

(** ** The dictionary parser *)

Module Parser.
Import DataLoader Notions PyDictFacts UniqueFacts.

Implicit Types (st : parser_state) (line g : string) (lines : list string).

(** What one line does to the state, by the kind of the line. *)
Lemma parse_line_header st line g :
  header_name line = Some g →
  parse_line st line
  = {| tissue_groups := PyDict.set (tissue_groups st) g [];
       current_group := Some g |}.
Proof.
  unfold header_name, parse_line.
  destruct (bool_decide (Text.strip line = "")); [done|].
  destruct (Text.startswith_hash (Text.strip line)); [|done].
  by intros [= <-].
Qed.

Lemma parse_line_tissue st line t :
  header_name line = None → tissue_name line = Some t →
  parse_line st line
  = match current_group st with
    | Some g =>
        if bool_decide (g = "") then st
        else {| tissue_groups :=
                  PyDict.update (tissue_groups st) g (λ l, l ++ [t]);
                current_group := Some g |}
    | None => st
    end.
Proof.
  unfold header_name, tissue_name, parse_line.
  destruct (bool_decide (Text.strip line = "")); [done|].
  destruct (Text.startswith_hash (Text.strip line)); [done|].
  by intros _ [= <-].
Qed.

Lemma parse_line_blank st line :
  header_name line = None → tissue_name line = None → parse_line st line = st.
Proof.
  unfold header_name, tissue_name, parse_line.
  destruct (bool_decide (Text.strip line = "")); [done|].
  by destruct (Text.startswith_hash (Text.strip line)).
Qed.

(** Every line is a header, a tissue or blank. *)
Lemma line_kind line :
  (∃ g, header_name line = Some g)
  ∨ (header_name line = None ∧ ∃ t, tissue_name line = Some t)
  ∨ (header_name line = None ∧ tissue_name line = None).
Proof.
  unfold header_name, tissue_name.
  destruct (bool_decide (Text.strip line = "")); [by right; right|].
  destruct (Text.startswith_hash (Text.strip line)); eauto.
Qed.

(** Without a header the parser stays in its initial state. *)
Lemma no_header_no_group lines st :
  current_group st = None → header_names lines = [] →
  foldl parse_line st lines = st.
Proof.
  intros Hcur. unfold header_names.
  induction lines as [|line lines IH]; simpl; [done|].
  destruct (line_kind line) as [[g Hg]|[[Hh [t Ht]]|[Hh Ht]]]; rewrite ?Hg, ?Hh.
  - done.
  - rewrite (parse_line_tissue _ _ t), Hcur by done. exact IH.
  - rewrite parse_line_blank by done. exact IH.
Qed.

(** A group that is not the current one is touched only by its header. *)
Lemma other_group_kept lines st g :
  current_group st ≠ Some g → g ∉ header_names lines →
  PyDict.get (tissue_groups (foldl parse_line st lines)) g
  = PyDict.get (tissue_groups st) g.
Proof.
  unfold header_names. revert st.
  induction lines as [|line lines IH]; intros st Hcur Hno; simpl; [done|].
  destruct (line_kind line) as [[g' Hg]|[[Hh [t Ht]]|[Hh Ht]]].
  - simpl in Hno. rewrite Hg in Hno. apply not_elem_of_cons in Hno as [Hne Hno].
    rewrite (parse_line_header _ _ g') by done.
    rewrite IH; simpl; [|congruence|done]. by apply get_set_ne.
  - simpl in Hno. rewrite Hh in Hno.
    rewrite (parse_line_tissue _ _ t) by done.
    destruct (current_group st) as [g'|] eqn:Hc; [|by apply IH; [rewrite Hc|]].
    destruct (bool_decide_reflect (g' = "")); [by apply IH; [rewrite Hc|]|].
    rewrite IH; simpl; [|done..]. apply get_update_ne. congruence.
  - simpl in Hno. rewrite Hh in Hno. rewrite parse_line_blank by done. by apply IH.
Qed.

(** The tissues that follow a header go to its group, unless its name is
    empty. *)
Lemma current_group_filled lines st g v :
  current_group st = Some g → PyDict.get (tissue_groups st) g = Some v →
  g ∉ header_names lines →
  PyDict.get (tissue_groups (foldl parse_line st lines)) g
  = Some (if bool_decide (g = "") then v else v ++ tissue_block lines).
Proof.
  unfold header_names. revert st v.
  induction lines as [|line lines IH]; intros st v Hcur Hget Hno; simpl.
  - rewrite Hget, app_nil_r. by destruct (bool_decide _).
  - destruct (line_kind line) as [[g' Hg]|[[Hh [t Ht]]|[Hh Ht]]].
    + simpl in Hno. rewrite Hg in Hno |- *.
      apply not_elem_of_cons in Hno as [Hne Hno].
      rewrite (parse_line_header _ _ g') by done.
      rewrite other_group_kept; simpl; [|congruence|done].
      rewrite get_set_ne, Hget, app_nil_r by done. by destruct (bool_decide _).
    + simpl in Hno. rewrite Hh in Hno |- *. rewrite Ht.
      rewrite (parse_line_tissue _ _ t), Hcur by done.
      destruct (bool_decide_reflect (g = "")) as [Hempty|Hempty].
      * by apply IH.
      * rewrite (IH _ (v ++ [t])); simpl; [| |by rewrite get_update_eq, Hget|]; try done.
        by rewrite <-app_assoc.
    + simpl in Hno. rewrite Hh in Hno |- *. rewrite Ht.
      rewrite parse_line_blank by done. by apply IH.
Qed.

(** The keys are the header names in the order of their first occurrence. *)
Lemma keys_parse lines st :
  PyDict.keys (tissue_groups (foldl parse_line st lines))
  = foldl remember (PyDict.keys (tissue_groups st)) (header_names lines).
Proof.
  unfold header_names. revert st.
  induction lines as [|line lines IH]; intros st; simpl; [done|].
  destruct (line_kind line) as [[g' Hg]|[[Hh [t Ht]]|[Hh Ht]]].
  - rewrite Hg, (parse_line_header _ _ g'), IH by done. simpl.
    by rewrite keys_set.
  - rewrite Hh, (parse_line_tissue _ _ t) by done.
    destruct (current_group st) as [g'|]; [|done].
    destruct (bool_decide (g' = "")); [done|].
    rewrite IH. simpl. by rewrite keys_update.
  - by rewrite Hh, parse_line_blank.
Qed.

End Parser.

Module ParserClaims.
Import DataLoader Notions PyDictFacts UniqueFacts Parser.

(** C4, as the code has it.  The parser is a total function of the text
    (there is no error result).  A text without a header gives the empty
    dictionary; the lines before the first header are dropped; a blank line
    changes nothing; the tissue lines that follow the last header of a group
    are the tissues of that group, provided the name of the group is not
    empty. *)
Theorem parser_groups_tissue_lines (text : string) :
  (header_names (Text.readlines text) = [] → load_histology_dictionary text = [])
  ∧ (∀ pre rest,
       Text.readlines text = pre ++ rest → header_names pre = [] →
       load_histology_dictionary text = parse_lines rest)
  ∧ (∀ pre blank rest,
       Text.readlines text = pre ++ blank :: rest →
       Text.strip blank = "" →
       load_histology_dictionary text = parse_lines (pre ++ rest))
  ∧ (∀ pre h g rest,
       Text.readlines text = pre ++ h :: rest →
       header_name h = Some g → g ≠ "" → g ∉ header_names rest →
       PyDict.get (load_histology_dictionary text) g = Some (tissue_block rest)).
Proof.
  unfold load_histology_dictionary, parse_lines. split_and!.
  - intros Hno. by rewrite no_header_no_group.
  - intros pre rest Heq Hno.
    by rewrite Heq, foldl_app, (no_header_no_group pre parser_init).
  - intros pre blank rest Heq Hb. rewrite Heq, !foldl_app. simpl.
    replace (parse_line (foldl parse_line parser_init pre) blank)
      with (foldl parse_line parser_init pre); [done|].
    unfold parse_line. by rewrite Hb.
  - intros pre h g rest Heq Hh Hne Hno. rewrite Heq, foldl_app. simpl.
    rewrite (parse_line_header _ _ g) by done.
    rewrite (current_group_filled _ _ g []); simpl; [|done|apply get_set_eq|done].
    by rewrite bool_decide_eq_false_2.
Qed.

Lemma parser_groups_tissue_lines_witness :
  load_histology_dictionary "liver
skin" = []
  ∧ load_histology_dictionary "liver
#Liver
hepatocytes" = parse_lines ["#Liver" +:+ String Text.LF ""; "hepatocytes"]
  ∧ load_histology_dictionary "#Liver

hepatocytes" = parse_lines ["#Liver" +:+ String Text.LF ""; "hepatocytes"]
  ∧ PyDict.get (load_histology_dictionary "#Liver
liver
#Brain
cortex

cerebellum
") "Brain" = Some ["cortex"; "cerebellum"].
Proof.
  split_and!.
  - apply (proj1 (parser_groups_tissue_lines _)). reflexivity.
  - refine (proj1 (proj2 (parser_groups_tissue_lines _))
              ["liver" +:+ String Text.LF ""] _ _ _); reflexivity.
  - refine (proj1 (proj2 (proj2 (parser_groups_tissue_lines _)))
              ["#Liver" +:+ String Text.LF ""] (String Text.LF "") ["hepatocytes"] _ _);
      reflexivity.
  - refine (proj2 (proj2 (proj2 (parser_groups_tissue_lines _)))
              ["#Liver" +:+ String Text.LF ""; "liver" +:+ String Text.LF ""]
              ("#Brain" +:+ String Text.LF "") "Brain"
              ["cortex" +:+ String Text.LF ""; String Text.LF "";
               "cerebellum" +:+ String Text.LF ""] _ _ _ _).
    + reflexivity.
    + reflexivity.
    + discriminate.
    + vm_compute. apply not_elem_of_nil.
Defined.

(** C4 as written fails on a header with an empty name: the group is
    opened, and the tissue line after it is dropped. *)
Lemma empty_group_name_drops_tissues : ¬ tissues_go_to_latest_group.
Proof.
  intros Hclaim.
  specialize (Hclaim "#
liver" [] ("#" +:+ String Text.LF "") "" ["liver"]).
  vm_compute in Hclaim.
  specialize (Hclaim eq_refl eq_refl (not_elem_of_nil _)). discriminate.
Qed.

(** C10.  When the header of a group occurs again, the list of the group
    starts again from empty: after the last header of a group, the group
    holds the tissue lines that follow that header up to the next header
    (none when the name of the group is empty), whatever came before.  The
    groups are in the order in which their names first occur. *)
Theorem repeated_header_resets_group (text : string) :
  PyDict.keys (load_histology_dictionary text)
  = unique (header_names (Text.readlines text))
  ∧ (∀ pre h g rest,
       Text.readlines text = pre ++ h :: rest →
       header_name h = Some g → g ∈ header_names pre → g ∉ header_names rest →
       PyDict.get (load_histology_dictionary text) g
       = Some (if bool_decide (g = "") then [] else tissue_block rest)).
Proof.
  unfold load_histology_dictionary, parse_lines. split.
  - by rewrite keys_parse.
  - intros pre h g rest Heq Hh _ Hno. rewrite Heq, foldl_app. simpl.
    rewrite (parse_line_header _ _ g) by done.
    by rewrite (current_group_filled _ _ g []); simpl; [|done|apply get_set_eq|done].
Qed.

Lemma repeated_header_resets_group_witness :
  PyDict.keys (load_histology_dictionary "#A
x
#B
y
#A
z") = ["A"; "B"]
  ∧ PyDict.get (load_histology_dictionary "#A
x
#B
y
#A
z") "A" = Some ["z"].
Proof.
  split.
  - exact (proj1 (repeated_header_resets_group _)).
  - refine (proj2 (repeated_header_resets_group _)
              ["#A" +:+ String Text.LF ""; "x" +:+ String Text.LF "";
               "#B" +:+ String Text.LF ""; "y" +:+ String Text.LF ""]
              ("#A" +:+ String Text.LF "") "A" ["z"] _ _ _ _).
    + reflexivity.
    + reflexivity.
    + vm_compute. apply elem_of_cons. by left.
    + vm_compute. apply not_elem_of_nil.
Defined.

End ParserClaims.

(** ** The tissue resolver *)

Module Resolver.
Import DataLoader Notions PyDictFacts UniqueFacts.

Implicit Types (groups : PyDict.t (list string)) (table : Table).

Lemma foldl_bind {A B C} (f : A → C → A) (g : B → list C) (a : A) (l : list B) :
  foldl f a (l ≫= g) = foldl (λ a x, foldl f a (g x)) a l.
Proof.
  revert a. induction l as [|x l IH]; intros a; simpl; [done|].
  by rewrite foldl_app, IH.
Qed.

Lemma foldl_ext {A B} (f g : A → B → A) (a : A) (l : list B) :
  (∀ a x, f a x = g a x) → foldl f a l = foldl g a l.
Proof.
  intros Hfg. revert a. induction l as [|x l IH]; intros a; simpl; [done|].
  by rewrite Hfg, IH.
Qed.

(** The two nested loops visit the entries one after the other. *)
Lemma nested_loops {A} (f : A → string → string → A) (a : A) groups :
  foldl (λ acc '(group, tissues), foldl (λ acc tissue, f acc group tissue) acc tissues)
    a groups
  = foldl (λ acc e, f acc e.1 e.2) a (entries groups).
Proof.
  unfold entries. rewrite foldl_bind. apply foldl_ext.
  intros acc [group tissues]. by rewrite foldl_fmap.
Qed.

Lemma mapping_by_entries groups table :
  get_tissue_to_group_mapping groups table
  = foldl (record_group table) ∅ (entries groups).
Proof.
  unfold get_tissue_to_group_mapping.
  rewrite (nested_loops
    (λ acc group tissue,
       match matching_tissues (all_tissues_in_data table) tissue with
       | m :: _ => <[m:=group]> acc
       | [] => acc
       end)).
  apply foldl_ext. intros acc [g e]. unfold record_group, resolve. simpl.
  by destruct (matching_tissues _ _).
Qed.

Lemma append_resolved table (es : list (string * string)) (acc : list string) :
  foldl (λ acc e,
           match matching_tissues (all_tissues_in_data table) e.2 with
           | m :: _ => acc ++ [m]
           | [] => acc
           end) acc es
  = acc ++ omap (λ e, resolve table e.2) es.
Proof.
  revert acc. induction es as [|[g e] es IH]; intros acc; simpl.
  - by rewrite app_nil_r.
  - rewrite IH. unfold resolve. destruct (matching_tissues _ e); simpl; [done|].
    by rewrite <-app_assoc.
Qed.

Lemma first_loop_by_entries groups table :
  foldl (λ acc '(group, tissues),
           foldl (λ acc tissue,
                    match matching_tissues (all_tissues_in_data table) tissue with
                    | m :: _ => acc ++ [m]
                    | [] => acc
                    end) acc tissues)
        [] groups
  = resolved groups table.
Proof.
  rewrite (nested_loops
    (λ acc (_ : string) tissue,
       match matching_tissues (all_tissues_in_data table) tissue with
       | m :: _ => acc ++ [m]
       | [] => acc
       end)).
  by rewrite append_resolved.
Qed.

Lemma ordered_by_entries groups table :
  get_ordered_tissues_by_group groups table
  = foldl append_other
      (resolved groups table, foldl (record_group table) ∅ (entries groups))
      (all_tissues_in_data table).
Proof.
  unfold get_ordered_tissues_by_group.
  rewrite first_loop_by_entries, mapping_by_entries.
  apply foldl_ext. by intros [o m] t.
Qed.

Lemma filter_ext_in {A} (P1 P2 : A → Prop)
    `{!∀ x, Decision (P1 x), !∀ x, Decision (P2 x)} (l : list A) :
  (∀ x, x ∈ l → (P1 x ↔ P2 x)) → filter P1 l = filter P2 l.
Proof.
  induction l as [|a l IH]; intros Hiff; [done|].
  rewrite !filter_cons, IH.
  - apply decide_ext, Hiff, elem_of_cons. by left.
  - intros x Hx. apply Hiff, elem_of_cons. by right.
Qed.

Lemma if_bool_decide_ext {A} (P Q : Prop) `{Decision P, Decision Q} (a b : A) :
  (P ↔ Q) → (if bool_decide P then a else b) = (if bool_decide Q then a else b).
Proof. intros HPQ. by rewrite (bool_decide_ext P Q). Qed.

(** The last loop appends the tissues that are not placed yet and maps
    them to "Other". *)
Lemma append_other_all (all : list string) (o : list string) (m : gmap string string) :
  NoDup all →
  (foldl append_other (o, m) all).1 = o ++ filter (λ t, t ∉ o) all
  ∧ ∀ t, (foldl append_other (o, m) all).2 !! t
         = if bool_decide (t ∈ all ∧ t ∉ o) then Some "Other" else m !! t.
Proof.
  revert o m. induction all as [|x all IH]; intros o m Hnd.
  - cbn [foldl fst snd]. split; [by rewrite filter_nil, app_nil_r|]. intros t.
    rewrite bool_decide_eq_false_2; [done|]. rewrite elem_of_nil. tauto.
  - apply NoDup_cons in Hnd as [Hx Hnd]. cbn [foldl append_other].
    rewrite filter_cons.
    destruct (bool_decide_reflect (x ∈ o)) as [Hin|Hin].
    + destruct (IH o m Hnd) as [Ho Hm]. rewrite Ho. split.
      * by rewrite decide_False by tauto.
      * intros t. rewrite Hm. apply if_bool_decide_ext.
        rewrite elem_of_cons. split; [tauto|]. intros [[->|?] ?]; tauto.
    + destruct (IH (o ++ [x]) (<[x:="Other"]> m) Hnd) as [Ho Hm]. rewrite Ho. split.
      * rewrite decide_True by done. rewrite <-app_assoc. simpl. f_equal. f_equal.
        apply filter_ext_in. intros t Ht.
        rewrite elem_of_app, list_elem_of_singleton.
        split; [tauto|]. intros ? [?| ->]; tauto.
      * intros t. rewrite Hm.
        destruct (decide (t = x)) as [->|Hne].
        -- rewrite bool_decide_eq_false_2.
           2:{ rewrite elem_of_app, list_elem_of_singleton. tauto. }
           rewrite lookup_insert_eq, bool_decide_eq_true_2; [done|].
           rewrite elem_of_cons. tauto.
        -- rewrite lookup_insert_ne by done.
           apply if_bool_decide_ext.
           rewrite elem_of_cons, elem_of_app, list_elem_of_singleton. tauto.
Qed.

Lemma resolve_in_table table e t :
  resolve table e = Some t → t ∈ all_tissues_in_data table.
Proof.
  unfold resolve, matching_tissues. intros Hhead.
  assert (t ∈ filter (λ t0, Text.lower t0 = Text.lower e) (all_tissues_in_data table))
    as Hin.
  { destruct (filter _ _); simplify_eq/=. apply elem_of_cons. by left. }
  by apply list_elem_of_filter in Hin as [_ ?].
Qed.

Lemma resolved_in_table groups table t :
  t ∈ resolved groups table → t ∈ all_tissues_in_data table.
Proof.
  unfold resolved. intros ([g e] & _ & Hres)%list_elem_of_omap.
  by apply resolve_in_table in Hres.
Qed.

(** The keys of the mapping are the tissues the entries stand for. *)
Lemma mapping_is_Some table (es : list (string * string)) (m : gmap string string) t :
  is_Some (foldl (record_group table) m es !! t)
  ↔ is_Some (m !! t) ∨ t ∈ omap (λ e, resolve table e.2) es.
Proof.
  revert m. induction es as [|[g e] es IH]; intros m; simpl.
  - rewrite elem_of_nil. tauto.
  - rewrite IH. unfold record_group. simpl.
    destruct (resolve table e) as [t'|]; [|tauto].
    rewrite elem_of_cons. destruct (decide (t = t')) as [->|Hne].
    + rewrite lookup_insert_eq. split; [auto|]. intros _. left. eauto.
    + rewrite lookup_insert_ne by done. tauto.
Qed.

(** Entries that stand for other tissues leave the group of [t] alone. *)
Lemma mapping_kept table (es : list (string * string)) (m : gmap string string) t :
  (∀ e, e ∈ es → resolve table e.2 ≠ Some t) →
  foldl (record_group table) m es !! t = m !! t.
Proof.
  revert m. induction es as [|[g e] es IH]; intros m Hno; simpl; [done|].
  rewrite IH.
  - unfold record_group. simpl.
    destruct (resolve table e) as [t'|] eqn:Hres; [|done].
    apply lookup_insert_ne. intros ->.
    apply (Hno (g, e)); [apply elem_of_cons; by left|done].
  - intros e' He'. apply Hno, elem_of_cons. by right.
Qed.

Lemma ordered_NoDup groups table :
  NoDup (resolved groups table) →
  NoDup (get_ordered_tissues_by_group groups table).1.
Proof.
  intros Hres. rewrite ordered_by_entries.
  destruct (append_other_all (all_tissues_in_data table) (resolved groups table)
              (foldl (record_group table) ∅ (entries groups)) (NoDup_unique _))
    as [Ho _].
  rewrite Ho. apply NoDup_app. split_and!; [done| |apply NoDup_filter, NoDup_unique].
  intros t Ht [Hnot _]%list_elem_of_filter. done.
Qed.

End Resolver.

Module ResolverClaims.
Import DataLoader Notions PyDictFacts UniqueFacts Resolver.

(** X25.  The tissue order holds the distinct tissues of the table and
    nothing else, and the mapping is defined on exactly these tissues; a
    tissue that no dictionary entry stands for is mapped to "Other".  The
    order is a permutation of the distinct tissues when no two dictionary
    entries stand for the same table tissue. *)
Theorem tissue_order_covers_table (groups : PyDict.t (list string)) (table : Table) :
  let all := all_tissues_in_data table in
  let ordered_tissues := (get_ordered_tissues_by_group groups table).1 in
  let tissue_to_group := (get_ordered_tissues_by_group groups table).2 in
  NoDup all
  ∧ (∀ t, t ∈ ordered_tissues ↔ t ∈ all)
  ∧ (∀ t, is_Some (tissue_to_group !! t) ↔ t ∈ all)
  ∧ (∀ t, t ∈ all → t ∉ resolved groups table →
          tissue_to_group !! t = Some "Other")
  ∧ (NoDup (resolved groups table) → ordered_tissues ≡ₚ all).
Proof.
  intros all ordered_tissues tissue_to_group.
  assert (NoDup all) as Hnd by apply NoDup_unique.
  subst ordered_tissues tissue_to_group. rewrite ordered_by_entries.
  destruct (append_other_all all (resolved groups table)
              (foldl (record_group table) ∅ (entries groups)) Hnd) as [Ho Hm].
  fold all. rewrite Ho.
  assert (∀ t, t ∈ resolved groups table ++ filter (λ t, t ∉ resolved groups table) all
               ↔ t ∈ all) as Hmem.
  { intros t. rewrite elem_of_app, list_elem_of_filter. split.
    - intros [?%resolved_in_table|[_ ?]]; done.
    - intros ?. destruct (decide (t ∈ resolved groups table)); tauto. }
  split_and!; [done|done| | |].
  - intros t. rewrite Hm.
    destruct (bool_decide_reflect (t ∈ all ∧ t ∉ resolved groups table)) as [[? ?]|Hn].
    + split; [done|eauto].
    + rewrite mapping_is_Some, lookup_empty. split.
      * intros [[? [=]]|?%resolved_in_table]; done.
      * intros ?. right. destruct (decide (t ∈ resolved groups table)); tauto.
  - intros t Ht Hnot. rewrite Hm. by rewrite bool_decide_eq_true_2.
  - intros Hres. apply NoDup_Permutation; [|done|done].
    apply NoDup_app. split_and!; [done| |by apply NoDup_filter].
    intros t Ht [Hnot _]%list_elem_of_filter. done.
Qed.

Lemma tissue_order_covers_table_witness :
  (get_ordered_tissues_by_group example_groups example_table).1
  ≡ₚ ["liver"; "cortex"; "skin"; "CEREBELLUM"]
  ∧ (get_ordered_tissues_by_group example_groups example_table).2 !! "skin"
    = Some "Other".
Proof.
  split.
  - refine (proj2 (proj2 (proj2 (proj2
              (tissue_order_covers_table example_groups example_table)))) _).
    apply (bool_decide_unpack _). vm_compute. exact I.
  - refine (proj1 (proj2 (proj2 (proj2
              (tissue_order_covers_table example_groups example_table)))) "skin" _ _).
    + apply (bool_decide_unpack _). vm_compute. exact I.
    + apply (bool_decide_unpack _). vm_compute. exact I.
Defined.

(** C1.  The code on the dictionary with the lines "#Liver", "liver" and
    "Liver" and a table whose one tissue is "liver": both entries stand for
    that tissue, and the tissue order lists it once for each of them.  So
    the order is not a permutation of the distinct tissues of the table:
    the loop over the dictionary appends without the membership test that
    the loop over the remaining tissues makes. *)
Lemma repeated_entry_repeats_tissue :
  load_histology_dictionary "#Liver
liver
Liver" = [("Liver", ["liver"; "Liver"])]
  ∧ all_tissues_in_data [mkRow "ENSG1" "ALB" "liver" (Some 10%Q)] = ["liver"]
  ∧ (get_ordered_tissues_by_group [("Liver", ["liver"; "Liver"])]
       [mkRow "ENSG1" "ALB" "liver" (Some 10%Q)]).1
    = ["liver"; "liver"]
  ∧ ¬ order_is_permutation.
Proof.
  split_and!; [by vm_compute..|]. intros Hclaim.
  specialize (Hclaim [("Liver", ["liver"; "Liver"])]
                [mkRow "ENSG1" "ALB" "liver" (Some 10%Q)]).
  apply Permutation_length in Hclaim. vm_compute in Hclaim. discriminate.
Qed.

(** C2, as the code has it: of the entries that stand for one table
    tissue, the last one in the order of the dictionary decides its group. *)
Theorem latest_entry_wins (groups : PyDict.t (list string)) (table : Table)
    (es1 es2 : list (string * string)) (g e t : string) :
  entries groups = es1 ++ (g, e) :: es2 →
  resolve table e = Some t →
  (∀ e', e' ∈ es2 → resolve table e'.2 ≠ Some t) →
  get_tissue_to_group_mapping groups table !! t = Some g.
Proof.
  intros Hes Hres Hlast.
  rewrite mapping_by_entries, Hes, foldl_app. simpl.
  rewrite mapping_kept by done.
  unfold record_group at 1. simpl. rewrite Hres. apply lookup_insert_eq.
Qed.

Lemma latest_entry_wins_witness :
  get_tissue_to_group_mapping
    [("Digestive", ["liver"]); ("Glands", ["Liver"])]
    [mkRow "ENSG1" "ALB" "liver" (Some 10%Q)] !! "liver"
  = Some "Glands".
Proof.
  refine (latest_entry_wins _ _ [("Digestive", "liver")] [] "Glands" "Liver" "liver" _ _ _).
  - reflexivity.
  - reflexivity.
  - intros e' He'. by apply elem_of_nil in He'.
Defined.

(** C2 as written fails: the first of two entries for one tissue loses its
    group to the second. *)
Lemma earliest_entry_loses : ¬ earliest_entry_wins.
Proof.
  intros Hclaim.
  specialize (Hclaim [("Digestive", ["liver"]); ("Glands", ["Liver"])]
                [mkRow "ENSG1" "ALB" "liver" (Some 10%Q)]
                [] "Digestive" "liver" [("Glands", "Liver")] "liver"
                eq_refl eq_refl).
  assert (get_tissue_to_group_mapping
            [("Digestive", ["liver"]); ("Glands", ["Liver"])]
            [mkRow "ENSG1" "ALB" "liver" (Some 10%Q)] !! "liver"
          = Some "Glands") as Hcode by reflexivity.
  rewrite Hclaim in Hcode; [discriminate|].
  intros e' He'. by apply elem_of_nil in He'.
Qed.

End ResolverClaims.

(** ** The aggregator *)

Module Aggregator.
Import DataLoader Notions PyDictFacts UniqueFacts.

Lemma insert_sorted_perm {A} (leb : A → A → bool) (x : A) (l : list A) :
  Py.insert_sorted leb x l ≡ₚ x :: l.
Proof.
  induction l as [|y l IH]; simpl; [done|].
  destruct (leb x y); [done|]. rewrite IH. apply Permutation_swap.
Qed.

Lemma sorted_perm {A} (leb : A → A → bool) (l : list A) : Py.sorted leb l ≡ₚ l.
Proof.
  unfold Py.sorted. induction l as [|x l IH]; simpl; [done|].
  by rewrite insert_sorted_perm, IH.
Qed.

(** The keys of the output are the distinct keys of the input, sorted. *)
Lemma output_keys `{Numpy} (tissue_to_group : gmap string string) (data : Table) :
  output_key <$> aggregate_rows tissue_to_group data
  = sort_keys (unique (group_key tissue_to_group <$> data)).
Proof.
  unfold aggregate_rows. rewrite <-list_fmap_compose.
  rewrite <-(list_fmap_id (sort_keys _)) at 2.
  apply list_fmap_ext. by intros _ [[a b] c] _.
Qed.

End Aggregator.

Module AggregatorClaims.
Import DataLoader Notions PyDictFacts UniqueFacts Aggregator.



End AggregatorClaims.

(** ** The chart builders *)

Module Charts.
Import DataLoader App Notions PyDictFacts UniqueFacts.

Section run.
Context `{Numpy}.
Implicit Types (w : World) (f : Frame).

(** [create_heatmap] reads the frame and leaves the state as it is. *)
Lemma create_heatmap_run data ordered_tissues tissue_to_group show_groups log_scale w :
  create_heatmap data ordered_tissues tissue_to_group show_groups log_scale w
  = f ← heap w !! data;
    fig ← heatmap_figure f ordered_tissues tissue_to_group show_groups log_scale;
    Some (fig, w).
Proof.
  unfold create_heatmap, mbind, M_bind, bind, deref, lift.
  destruct (heap w !! data) as [f|]; simpl; [|done].
  by destruct (heatmap_figure _ _ _ _ _).
Qed.

Lemma insert_last {A} (l : list A) (x y : A) :
  <[length l := y]> (l ++ [x]) = l ++ [y].
Proof.
  replace (length l) with (length l + 0) by lia. by rewrite insert_app_r.
Qed.

(** The frame effects of [create_bar_chart] and [create_box_plot]: a
    copy is made, and the copy becomes categorical. *)
Lemma copy_as_categorical {A} (k : Frame → option A) data cats w :
  (data ← df_copy data; set_tissue_categorical data cats;;
   f ← deref data; lift (k f)) w
  = f ← heap w !! data;
    if bool_decide (NoDup cats) then
      x ← k (as_categorical f cats);
      Some (x,
            {| expression_data := expression_data w;
               tissue_groups := App.tissue_groups w;
               heap := heap w ++ [as_categorical f cats] |})
    else None.
Proof.
  unfold df_copy, set_tissue_categorical, mbind, mret, M_bind, M_ret, bind, ret,
    deref, alloc, store, raise, lift.
  destruct (heap w !! data) as [f|]; simpl; [|done].
  destruct (bool_decide (NoDup cats)); [|done]. simpl.
  rewrite list_lookup_middle by done. simpl.
  rewrite bool_decide_eq_true_2 by (rewrite length_app; simpl; lia). simpl.
  rewrite !insert_last. rewrite list_lookup_middle by done. simpl.
  by destruct (k (as_categorical f cats)).
Qed.

(** [create_bar_chart] raises for categories that are not unique and for
    a hover label that raises. *)
Lemma create_bar_chart_run data ordered_tissues tissue_to_group log_scale w :
  create_bar_chart data ordered_tissues tissue_to_group log_scale w
  = f ← heap w !! data;
    if bool_decide (NoDup ordered_tissues) then
      fig ← bar_figure (as_categorical f ordered_tissues) tissue_to_group log_scale;
      Some (fig,
            {| expression_data := expression_data w;
               tissue_groups := App.tissue_groups w;
               heap := heap w ++ [as_categorical f ordered_tissues] |})
    else None.
Proof.
  apply (copy_as_categorical (λ f, bar_figure f tissue_to_group log_scale)).
Qed.

Lemma create_box_plot_run data ordered_tissues tissue_to_group log_scale w :
  create_box_plot data ordered_tissues tissue_to_group log_scale w
  = f ← heap w !! data;
    if bool_decide (NoDup ordered_tissues) then
      Some (box_figure (as_categorical f ordered_tissues) log_scale,
            {| expression_data := expression_data w;
               tissue_groups := App.tissue_groups w;
               heap := heap w ++ [as_categorical f ordered_tissues] |})
    else None.
Proof.
  apply (copy_as_categorical (λ f, Some (box_figure f log_scale))).
Qed.
End run.


(** The test of the loop, with [pre] the columns already seen. *)
Lemma group_differs_iff (tissue_to_group : gmap string string)
    (pre columns : list string) (t : string) :
  Some (group_of tissue_to_group (Some t))
    ≠ (λ t, group_of tissue_to_group (Some t)) <$> last pre
  ↔ length pre = 0
    ∨ group_changes_at tissue_to_group (pre ++ t :: columns) (length pre).
Proof.
  unfold group_changes_at.
  rewrite (list_lookup_middle pre columns t (length pre)) by done.
  destruct pre as [|p pre _] using rev_ind; simpl.
  - split; [auto|done].
  - rewrite last_snoc, length_app. simpl.
    replace (length pre + 1 - 1) with (length pre) by lia.
    rewrite <-app_assoc. simpl.
    rewrite (list_lookup_middle pre (t :: columns) p (length pre)) by done.
    split.
    + intros Hne. right. split; [lia|]. congruence.
    + intros [?|[_ Hne]]; [lia|]. congruence.
Qed.

(** The loop of the separators: with [pre] the columns already seen and
    [current_group] the group of the last of them, a line is put before
    column [i] when [i] is the first column or starts another group. *)
Lemma group_separators_spec (tissue_to_group : gmap string string)
    (pre columns : list string) :
  group_separators tissue_to_group (length pre)
    ((λ t, group_of tissue_to_group (Some t)) <$> last pre) columns
  = separator
      <$> filter (λ i, i = 0 ∨ group_changes_at tissue_to_group (pre ++ columns) i)
            (seq (length pre) (length columns)).
Proof.
  revert pre. induction columns as [|t columns IH]; intros pre; [done|].
  cbn [group_separators length seq]. rewrite filter_cons.
  pose proof (group_differs_iff tissue_to_group pre columns t) as Hcond.
  assert (S (length pre) = length (pre ++ [t])) as Hlen
    by (rewrite length_app; simpl; lia).
  assert (pre ++ t :: columns = (pre ++ [t]) ++ columns) as Happ
    by by rewrite <-app_assoc.
  destruct (decide (Some (group_of tissue_to_group (Some t))
                    ≠ (λ t, group_of tissue_to_group (Some t)) <$> last pre))
    as [Hne|Heq].
  - rewrite bool_decide_eq_true_2 by done.
    rewrite decide_True by by apply Hcond.
    rewrite fmap_cons. f_equal.
    rewrite Hlen, Happ, <-IH. by rewrite last_snoc.
  - rewrite bool_decide_eq_false_2 by done.
    rewrite decide_False by by rewrite <-Hcond.
    rewrite Hlen, Happ, <-IH. rewrite last_snoc. simpl.
    f_equal. apply dec_stable in Heq. by rewrite <-Heq.
Qed.

Lemma separator_inj i j : separator i = separator j → i = j.
Proof.
  unfold separator. intros [= Hx]. lia.
Qed.

End Charts.

Module ChartClaims.
Import DataLoader App Notions PyDictFacts UniqueFacts Charts.

(** C7, as the code has it.  On a heatmap with [show_groups] the
    separators are, from left to right, one line before the first column
    and one line between every two neighbouring columns whose groups
    differ, each at [i - 0.5] for the column [i] it precedes; there is no
    other line. *)
Theorem heatmap_separators `{Numpy} (data : nat) (ordered_tissues : list string)
    (tissue_to_group : gmap string string) (log_scale : bool)
    (w w' : World) (fig : Figure) :
  create_heatmap data ordered_tissues tissue_to_group true log_scale w
  = Some (fig, w') →
  ∃ z columns index hover_text colorbar_title,
    traces fig = [Heatmap z columns index hover_text colorbar_title]
    ∧ vlines fig
      = separator
          <$> filter (λ i, i = 0 ∨ group_changes_at tissue_to_group columns i)
                (seq 0 (length columns)).
Proof.
  rewrite create_heatmap_run. intros Hrun.
  destruct (heap w !! data) as [f|]; simpl in Hrun; [|done].
  unfold heatmap_figure in Hrun.
  destruct (df_pivot f) as [[index pivot_columns]|]; simpl in Hrun; [|done].
  destruct (mapM _ index) as [hover_text|]; simpl in Hrun; [|done].
  injection Hrun as <- <-. do 5 eexists. split; [done|]. simpl.
  apply (group_separators_spec tissue_to_group []).
Qed.


Lemma heatmap_separators_witness :
  ∃ z columns index hover_text colorbar_title,
    traces (figure_of example_heatmap)
    = [Heatmap z columns index hover_text colorbar_title]
    ∧ vlines (figure_of example_heatmap)
      = separator
          <$> filter (λ i, i = 0 ∨ group_changes_at example_order.2 columns i)
                (seq 0 (length columns)).
Proof.
  apply (heatmap_separators (H := example_numpy) 0 example_order.1 example_order.2
           false example_world (world_of example_world example_heatmap)).
  vm_compute. reflexivity.
Defined.

(** C7 as written fails on every heatmap with a column: the loop starts
    with no current group, so the first column gets a line at [-0.5], which
    is not between two columns. *)
Lemma line_before_first_column :
  ¬ separators_only_between_groups (H := example_numpy).
Proof.
  intros Hclaim.
  assert (∃ z columns index hover_text colorbar_title,
            traces (figure_of example_heatmap)
            = [Heatmap z columns index hover_text colorbar_title])
    as (z & columns & index & hover_text & colorbar_title & Htraces)
    by (vm_compute; by do 5 eexists).
  specialize (Hclaim 0 example_order.1 example_order.2 false example_world
                (figure_of example_heatmap) (world_of example_world example_heatmap)
                z columns index hover_text colorbar_title).
  destruct (Hclaim ltac:(vm_compute; reflexivity) Htraces (separator 0))
    as [Hbetween _].
  destruct Hbetween as (i & _ & [Hpos _] & Heq).
  - vm_compute. apply elem_of_cons. by left.
  - apply separator_inj in Heq. lia.
Qed.

(** C9.  Each of the three chart builders yields a figure that depends
    on the state only through the rows of the frame it is given, so equal
    arguments give equal figures (or the same exception).  A run leaves the
    loaded table, the dictionary and every frame that existed before it as
    they were: the only effect is a new frame in the store (the copy that
    the bar chart and the box plot sort). *)
Theorem builders_are_pure `{Numpy} (ordered_tissues : list string)
    (tissue_to_group : gmap string string) (show_groups log_scale : bool) :
  pure_builder (λ data, create_heatmap data ordered_tissues tissue_to_group
                          show_groups log_scale)
  ∧ pure_builder (λ data, create_bar_chart data ordered_tissues tissue_to_group
                            log_scale)
  ∧ pure_builder (λ data, create_box_plot data ordered_tissues tissue_to_group
                            log_scale).
Proof.
  unfold pure_builder. split_and!.
  - intros w1 w2 data1 data2 Hsame. rewrite !create_heatmap_run, Hsame.
    destruct (heap w2 !! data2) as [f|]; simpl; [|done].
    by destruct (heatmap_figure _ _ _ _ _).
  - intros w data fig w'. rewrite create_heatmap_run.
    destruct (heap w !! data) as [f|]; simpl; [|done].
    destruct (heatmap_figure _ _ _ _ _); simpl; [|done].
    by intros [= _ <-].
  - intros w1 w2 data1 data2 Hsame. rewrite !create_bar_chart_run, Hsame.
    destruct (heap w2 !! data2) as [f|]; simpl; [|done].
    destruct (bool_decide _); [|done]. by destruct (bar_figure _ _ _).
  - intros w data fig w'. rewrite create_bar_chart_run.
    destruct (heap w !! data) as [f|]; simpl; [|done].
    destruct (bool_decide _); [|done].
    destruct (bar_figure _ _ _); simpl; [|done].
    intros [= _ <-]. simpl. split_and!; [done..|]. by apply prefix_app_r.
  - intros w1 w2 data1 data2 Hsame. rewrite !create_box_plot_run, Hsame.
    destruct (heap w2 !! data2) as [f|]; simpl; [|done].
    by destruct (bool_decide _).
  - intros w data fig w'. rewrite create_box_plot_run.
    destruct (heap w !! data) as [f|]; simpl; [|done].
    destruct (bool_decide _); [|done].
    intros [= _ <-]. simpl. split_and!; [done..|]. by apply prefix_app_r.
Qed.

Lemma builders_are_pure_witness :
  fst <$> create_bar_chart (H := example_numpy) 0 example_order.1 example_order.2
            false example_world
  = fst <$> create_bar_chart (H := example_numpy) 1 example_order.1 example_order.2
              false later_world
  ∧ expression_data (world_of example_world example_bar_chart) = example_table
  ∧ App.tissue_groups (world_of example_world example_bar_chart) = example_groups
  ∧ heap example_world `prefix_of` heap (world_of example_world example_bar_chart).
Proof.
  split.
  - refine (proj1 (proj1 (proj2
              (builders_are_pure (H := example_numpy) example_order.1 example_order.2
                 true false)))
              example_world later_world 0 1 _).
    reflexivity.
  - refine (proj2 (proj1 (proj2
              (builders_are_pure (H := example_numpy) example_order.1 example_order.2
                 true false)))
              example_world 0 (figure_of example_bar_chart) _ _).
    vm_compute. reflexivity.
Defined.

End ChartClaims.

(** ** The callback *)

Module Callback.
Import DataLoader App Notions PyDictFacts UniqueFacts Resolver Aggregator Charts.

Lemma filter_eq_absent {A} `{EqDecision A} (l : list A) (x : A) :
  x ∉ l → filter (λ c, c = x) l = [].
Proof.
  induction l as [|y l IH]; [done|]. intros [Hne Hnot]%not_elem_of_cons.
  rewrite filter_cons, decide_False by done. by apply IH.
Qed.

Lemma filter_eq_once {A} `{EqDecision A} (l : list A) (x : A) :
  NoDup l → x ∈ l → length (filter (λ c, c = x) l) = 1.
Proof.
  induction 1 as [|y l Hy Hnd IH]; [by intros ?%elem_of_nil|].
  rewrite filter_cons. destruct (decide (y = x)) as [->|Hne].
  - intros _. by rewrite filter_eq_absent.
  - intros [->|Hin]%elem_of_cons; [done|]. by apply IH.
Qed.

Section success.
Context `{Numpy}.

(** The heatmap is built when no (gene name, tissue) pair occurs twice in
    the frame and no tissue occurs twice in the tissue order. *)
Lemma heatmap_figure_is_Some (f : Frame) ordered_tissues tissue_to_group
    show_groups log_scale :
  NoDup ((λ r, (cell_Gene_name r, cell_Tissue r)) <$> rows f) →
  NoDup ordered_tissues →
  is_Some (heatmap_figure f ordered_tissues tissue_to_group show_groups log_scale).
Proof.
  intros Hpairs Hord. unfold heatmap_figure, df_pivot.
  rewrite bool_decide_eq_true_2 by done. simpl.
  set (columns := filter _ ordered_tissues).
  assert (NoDup columns) as Hcols by by apply NoDup_filter.
  match goal with
  | |- is_Some (mbind _ (mapM ?g ?index)) =>
      assert (is_Some (mapM g index)) as [hover_text ->]
  end; [|by eexists].
  apply mapM_is_Some, Forall_forall. intros gene _. simpl.
  apply mapM_is_Some, Forall_forall. intros tissue Htissue. simpl.
  unfold loc. rewrite bool_decide_eq_true_2 by by apply filter_eq_once.
  by eexists.
Qed.

(** The change of scale keeps the gene names and the tissues. *)
Lemma log_transform_labels (data : Table) :
  (λ r, (Gene_name r, Tissue r)) <$> log_transform data
  = (λ r, (Gene_name r, Tissue r)) <$> data.
Proof. unfold log_transform. rewrite <-list_fmap_compose. done. Qed.

Lemma to_frame_labels (data : Table) :
  (λ r, (cell_Gene_name r, cell_Tissue r)) <$> rows (to_frame data)
  = (λ p, (p.1, Some p.2)) <$> ((λ r, (Gene_name r, Tissue r)) <$> data).
Proof. unfold to_frame. simpl. by rewrite <-!list_fmap_compose. Qed.

Lemma to_frame_NoDup (data : Table) :
  NoDup ((λ r, (Gene_name r, Tissue r)) <$> data) →
  NoDup ((λ r, (cell_Gene_name r, cell_Tissue r)) <$> rows (to_frame data)).
Proof.
  intros Hnd. rewrite to_frame_labels. apply NoDup_fmap_2; [|done].
  intros [a b] [a' b'] [= -> ->]. done.
Qed.
End success.

End Callback.

(** ** More about the text methods and the parser *)

Module TextFacts.
Import Text.

Lemma lstrip_head (s : string) :
  match lstrip s with
  | EmptyString => True
  | String c _ => isspace c = false
  end.
Proof.
  induction s as [|c s IH]; simpl; [done|].
  destruct (isspace c) eqn:Hc; [done|]. simpl. by rewrite Hc.
Qed.

Lemma rstrip_head (c : ascii) (s : string) :
  isspace c = false → ∃ r, rstrip (String c s) = String c r.
Proof.
  intros Hc. simpl. destruct (rstrip s); [|by eexists].
  rewrite Hc. by eexists.
Qed.

Lemma rstrip_rstrip (s : string) : rstrip (rstrip s) = rstrip s.
Proof.
  induction s as [|c s IH]; simpl; [done|].
  destruct (rstrip s) as [|c' r] eqn:Hr.
  - destruct (isspace c) eqn:Hc; simpl; [done|]. by rewrite Hc.
  - cbn [rstrip] in IH |- *. by rewrite IH.
Qed.

(** The result of [strip] does not start with white space. *)
Lemma strip_head (s : string) :
  match strip s with
  | EmptyString => True
  | String c _ => isspace c = false
  end.
Proof.
  unfold strip. pose proof (lstrip_head s) as Hl.
  destruct (lstrip s) as [|c r]; [done|].
  destruct (rstrip_head c r Hl) as [r' ->]. done.
Qed.

Lemma lstrip_strip (s : string) : lstrip (strip s) = strip s.
Proof.
  pose proof (strip_head s) as Hs. destruct (strip s) as [|c r]; [done|].
  simpl. by rewrite Hs.
Qed.

Lemma strip_strip (s : string) : strip (strip s) = strip s.
Proof.
  unfold strip at 1. rewrite lstrip_strip. unfold strip. apply rstrip_rstrip.
Qed.

(** The last character of a stripped string is no white space. *)
Lemma rstrip_last (s : string) (c : ascii) :
  rstrip s = String c EmptyString → isspace c = false.
Proof.
  revert c. induction s as [|c' s IH]; intros c; simpl; [done|].
  destruct (rstrip s) as [|c'' r] eqn:Hr.
  - destruct (isspace c') eqn:Hc; [done|]. by intros [= <-].
  - done.
Qed.

End TextFacts.

Module ParserFacts.
Import DataLoader Notions PyDictFacts UniqueFacts Parser Text TextFacts.

Lemma lstrip_app (s t : string) :
  lstrip (s +:+ t) = if bool_decide (lstrip s = "") then lstrip t else lstrip s +:+ t.
Proof.
  induction s as [|c s IH]; simpl; [done|].
  destruct (isspace c); [done|]. by rewrite bool_decide_eq_false_2.
Qed.

Lemma rstrip_blank (t : string) : lstrip t = "" → rstrip t = "".
Proof.
  induction t as [|c t IH]; simpl; [done|].
  destruct (isspace c) eqn:Hc; [|done]. intros Ht. by rewrite IH.
Qed.

Lemma rstrip_app_blank (s t : string) : lstrip t = "" → rstrip (s +:+ t) = rstrip s.
Proof.
  intros Ht. induction s as [|c s IH]; simpl.
  - by apply rstrip_blank.
  - change (String.append s t) with (s +:+ t). by rewrite IH.
Qed.

(** White space before and after a line is cut off. *)
Lemma strip_padded (before line after : string) :
  lstrip before = "" → lstrip after = "" →
  strip (before +:+ line +:+ after) = strip line.
Proof.
  intros Hb Ha. unfold strip.
  rewrite lstrip_app, bool_decide_eq_true_2 by done.
  rewrite lstrip_app. case_bool_decide as Hl.
  - by rewrite Ha, Hl.
  - by apply rstrip_app_blank.
Qed.

Lemma parse_line_strip st line : parse_line st (strip line) = parse_line st line.
Proof. unfold parse_line. by rewrite strip_strip. Qed.

Lemma parse_line_same_strip st line line' :
  strip line = strip line' → parse_line st line = parse_line st line'.
Proof. unfold parse_line. by intros ->. Qed.

Lemma foldl_parse_same_strip st lines lines' :
  strip <$> lines = strip <$> lines' →
  foldl parse_line st lines = foldl parse_line st lines'.
Proof.
  revert st lines'. induction lines as [|l lines IH]; intros st [|l' lines'] Heq;
    simplify_eq/=; [done|].
  rewrite (parse_line_same_strip st l l') by done. by apply IH.
Qed.

Lemma Forall_set {V} (P : string * V → Prop) (d : PyDict.t V) k v :
  Forall P d → P (k, v) → Forall P (PyDict.set d k v).
Proof.
  intros Hd Hkv. induction Hd as [|[k' v'] d Hp Hd IH]; simpl.
  - by constructor.
  - destruct (bool_decide (k' = k)); by constructor.
Qed.

Lemma Forall_update {V} (P : string * V → Prop) (d : PyDict.t V) k f :
  Forall P d → (∀ v, P (k, v) → P (k, f v)) → Forall P (PyDict.update d k f).
Proof.
  intros Hd Hf. induction Hd as [|[k' v'] d Hp Hd IH]; simpl; [done|].
  destruct (bool_decide_reflect (k' = k)) as [->|Hne]; constructor; auto.
Qed.

Lemma get_Some_elem_of {V} (d : PyDict.t V) k v :
  PyDict.get d k = Some v → (k, v) ∈ d.
Proof.
  induction d as [|[k' v'] d IH]; simpl; [done|].
  destruct (bool_decide_reflect (k' = k)) as [->|Hne].
  - intros [= ->]. apply elem_of_cons. by left.
  - intros Hget. apply elem_of_cons. right. by apply IH.
Qed.

Lemma parse_line_well_formed st line :
  Forall well_formed_group (tissue_groups st) →
  Forall well_formed_group (tissue_groups (parse_line st line)).
Proof.
  intros Hd. unfold parse_line.
  destruct (bool_decide_reflect (strip line = "")) as [Hblank|Hblank]; [done|].
  destruct (startswith_hash (strip line)) eqn:Hhash; simpl.
  - apply Forall_set; [done|]. split_and!; simpl; [apply strip_strip|done|done].
  - destruct (current_group st) as [g|]; [|done].
    destruct (bool_decide_reflect (g = "")) as [Hg|Hg]; [done|]. simpl.
    apply Forall_update; [done|].
    intros v (Htrim & Hempty & Hts). split_and!; simpl in *; [done|done|].
    apply Forall_app. split; [done|]. apply Forall_singleton.
    split_and!; [done|apply strip_strip|done].
Qed.

Lemma parse_lines_well_formed lines : Forall well_formed_group (parse_lines lines).
Proof.
  unfold parse_lines.
  assert (Forall well_formed_group (tissue_groups parser_init)) as Hinit
    by by constructor.
  revert Hinit. generalize parser_init.
  induction lines as [|line lines IH]; intros st Hst; simpl; [done|].
  by apply IH, parse_line_well_formed.
Qed.

(** X1.  The parser depends on a line only through the line without the
    white space around it: indenting the lines of the dictionary file, or
    leaving blanks at their ends, does not change the dictionary. *)
Theorem parser_ignores_padding (lines : list string) (pads : list (string * string)) :
  length pads = length lines →
  Forall (λ pad, lstrip pad.1 = "" ∧ lstrip pad.2 = "") pads →
  parse_lines (zip_with (λ pad line, pad.1 +:+ line +:+ pad.2) pads lines)
  = parse_lines lines.
Proof.
  intros Hlen Hpads. unfold parse_lines. f_equal.
  apply foldl_parse_same_strip.
  revert lines Hlen. induction Hpads as [|[b a] pads [Hb Ha] _ IH];
    intros [|line lines] Hlen; simplify_eq/=; [done|].
  f_equal; [by apply strip_padded|by apply IH].
Qed.

Lemma parser_ignores_padding_witness :
  parse_lines ["  #Liver "; String "009" "liver"; "   "]
  = parse_lines ["#Liver"; "liver"; ""].
Proof.
  apply (parser_ignores_padding ["#Liver"; "liver"; ""]
           [("  ", " "); (String "009" "", ""); ("   ", "")]).
  - reflexivity.
  - repeat constructor.
Defined.

(** X2.  In every dictionary the parser returns, the group names are
    distinct and have no white space around them, a group with the empty name
    has no tissues, and every tissue name is non-empty, has no white space
    around it and does not start with '#'. *)
Theorem parsed_dictionary_well_formed (text : string) :
  NoDup (PyDict.keys (load_histology_dictionary text))
  ∧ ∀ group tissues,
      PyDict.get (load_histology_dictionary text) group = Some tissues →
      trimmed group ∧ (group = "" → tissues = []) ∧ Forall tissue_like tissues.
Proof.
  unfold load_histology_dictionary. split.
  - unfold parse_lines. rewrite keys_parse. apply NoDup_remember_all, NoDup_nil_2.
  - intros group tissues Hget%get_Some_elem_of.
    pose proof (parse_lines_well_formed (readlines text)) as Hwf.
    rewrite Forall_forall in Hwf. apply (Hwf _ Hget).
Qed.

Lemma parsed_dictionary_well_formed_witness :
  trimmed "Brain" ∧ ("Brain" = "" → ["cortex"; "cerebellum"] = [])
  ∧ Forall tissue_like ["cortex"; "cerebellum"].
Proof.
  refine (proj2 (parsed_dictionary_well_formed "# Brain
  cortex
cerebellum  ") "Brain" ["cortex"; "cerebellum"] _).
  reflexivity.
Defined.

End ParserFacts.

(** ** More about sorting, the gene list and the selection of rows *)

Module SortFacts.
Import Aggregator.

Section sorted.
Context {A : Type} (leb : A → A → bool).
Hypothesis leb_total : ∀ x y, leb x y = true ∨ leb y x = true.
Hypothesis leb_trans : ∀ x y z, leb x y = true → leb y z = true → leb x z = true.

Lemma insert_sorted_StronglySorted (x : A) (l : list A) :
  StronglySorted (λ a b, leb a b = true) l →
  StronglySorted (λ a b, leb a b = true) (Py.insert_sorted leb x l).
Proof.
  induction 1 as [|y l Hl IH Hy]; simpl.
  - repeat constructor.
  - destruct (leb x y) eqn:Hxy.
    + constructor; [by constructor|]. constructor; [done|].
      eapply Forall_impl; [exact Hy|]. intros z Hz. by eapply leb_trans.
    + constructor; [done|].
      rewrite (insert_sorted_perm leb x l). constructor; [|done].
      destruct (leb_total x y) as [Hc|Hc]; [congruence|done].
Qed.

Lemma sorted_StronglySorted (l : list A) :
  StronglySorted (λ a b, leb a b = true) (Py.sorted leb l).
Proof.
  unfold Py.sorted. induction l as [|x l IH]; simpl; [constructor|].
  by apply insert_sorted_StronglySorted.
Qed.
End sorted.

Lemma string_leb_total (x y : string) : String.leb x y = true ∨ String.leb y x = true.
Proof.
  destruct (String.le_total x y) as [H|H]; [left|right]; by apply Is_true_true.
Qed.

Lemma string_leb_trans (x y z : string) :
  String.leb x y = true → String.leb y z = true → String.leb x z = true.
Proof.
  intros Hxy%Is_true_true Hyz%Is_true_true. apply Is_true_true.
  change (String.le x z). by trans y.
Qed.

End SortFacts.

Module LoaderFacts.
Import DataLoader Notions UniqueFacts Aggregator SortFacts.

Lemma elem_of_genes (table : Table) (g : string) :
  g ∈ genes table ↔ ∃ r, r ∈ table ∧ Gene_name r = g.
Proof.
  unfold genes. rewrite sorted_perm, elem_of_unique, list_elem_of_fmap.
  split; intros (r & ? & ?); eauto.
Qed.

(** X3.  The gene names offered by the selector are in increasing order
    (by character codes), each occurs once, and they are exactly the gene
    names that occur in the table. *)
Theorem gene_options_sorted (table : Table) :
  StronglySorted (λ a b, String.leb a b = true) (genes table)
  ∧ NoDup (genes table)
  ∧ ∀ g, g ∈ genes table ↔ ∃ r, r ∈ table ∧ Gene_name r = g.
Proof.
  unfold genes. split_and!.
  - apply sorted_StronglySorted; [apply string_leb_total|apply string_leb_trans].
  - rewrite sorted_perm. apply NoDup_unique.
  - intros g. fold (genes table). apply elem_of_genes.
Qed.

(** X4.  The rows selected for a list of gene names are the rows of the
    table whose gene name is in the list, in the order of the table.  There
    is no such row exactly when none of the names is offered by the selector.
    The order of the names and their repetitions do not matter. *)
Theorem selected_rows (gene_names : list string) (table : Table) :
  get_expression_for_genes gene_names table `sublist_of` table
  ∧ (∀ r, r ∈ get_expression_for_genes gene_names table
          ↔ r ∈ table ∧ Gene_name r ∈ gene_names)
  ∧ (get_expression_for_genes gene_names table = []
     ↔ ∀ g, g ∈ gene_names → g ∉ genes table)
  ∧ (∀ gene_names',
       (∀ g, g ∈ gene_names ↔ g ∈ gene_names') →
       get_expression_for_genes gene_names' table
       = get_expression_for_genes gene_names table).
Proof.
  assert (∀ r, r ∈ get_expression_for_genes gene_names table
               ↔ r ∈ table ∧ Gene_name r ∈ gene_names) as Hmem.
  { intros r. unfold get_expression_for_genes. rewrite list_elem_of_filter. tauto. }
  split_and!; [apply sublist_filter|done| |].
  - split.
    + intros Hnil g Hg Hin.
      apply elem_of_genes in Hin as (r & Hr & <-).
      assert (r ∈ get_expression_for_genes gene_names table) as Hin by by apply Hmem.
      rewrite Hnil in Hin. by apply elem_of_nil in Hin.
    + intros Hnone. apply elem_of_nil_inv. intros r [Hr Hg]%Hmem.
      apply (Hnone _ Hg).
      apply elem_of_genes. eauto.
  - intros gene_names' Hsame. unfold get_expression_for_genes.
    apply list_filter_iff. intros r. by rewrite Hsame.
Qed.

Lemma selected_rows_witness :
  get_expression_for_genes ["GFAP"; "ALB"; "GFAP"] example_table
  = get_expression_for_genes ["ALB"; "GFAP"] example_table.
Proof.
  refine (proj2 (proj2 (proj2 (selected_rows ["ALB"; "GFAP"] example_table)))
            ["GFAP"; "ALB"; "GFAP"] _).
  intros g. rewrite !elem_of_cons, !elem_of_nil. tauto.
Defined.

End LoaderFacts.

(** ** More about the tissue resolver *)

Module ResolverFacts.
Import DataLoader App Notions PyDictFacts UniqueFacts Resolver.

Implicit Types (groups : PyDict.t (list string)) (table : Table).

Lemma elem_of_entries groups g e :
  (g, e) ∈ entries groups ↔ ∃ tissues, (g, tissues) ∈ groups ∧ e ∈ tissues.
Proof.
  unfold entries. rewrite list_elem_of_bind. split.
  - intros ([g' ts] & (e' & [= -> ->] & He)%list_elem_of_fmap & Hin). eauto.
  - intros (ts & Hin & He). exists (g, ts). split; [|done].
    apply list_elem_of_fmap. eauto.
Qed.

Lemma resolve_lower table e t :
  resolve table e = Some t → Text.lower t = Text.lower e.
Proof.
  unfold resolve, matching_tissues. intros Hhead.
  apply head_Some_elem_of in Hhead. by apply list_elem_of_filter in Hhead as [? _].
Qed.

(** Where a group of the mapping comes from. *)
Lemma mapping_Some_entry table (es : list (string * string))
    (m : gmap string string) t g :
  foldl (record_group table) m es !! t = Some g →
  m !! t = Some g ∨ ∃ e, (g, e) ∈ es ∧ resolve table e = Some t.
Proof.
  revert m. induction es as [|[g' e'] es IH]; intros m; simpl; [auto|].
  intros [Hm|(e & Hin & Hres)]%IH.
  - unfold record_group in Hm. simpl in Hm.
    destruct (resolve table e') as [t'|] eqn:Hres; [|auto].
    destruct (decide (t' = t)) as [->|Hne].
    + rewrite lookup_insert_eq in Hm. injection Hm as ->.
      right. exists e'. split; [apply elem_of_cons; by left|done].
    + rewrite lookup_insert_ne in Hm by done. auto.
  - right. exists e. split; [apply elem_of_cons; by right|done].
Qed.

(** The result of the resolver, by entries. *)
Lemma ordered_layout groups table :
  (get_ordered_tissues_by_group groups table).1
  = resolved groups table
      ++ filter (λ t, t ∉ resolved groups table) (all_tissues_in_data table).
Proof.
  rewrite ordered_by_entries.
  by destruct (append_other_all (all_tissues_in_data table) (resolved groups table)
                 (foldl (record_group table) ∅ (entries groups)) (NoDup_unique _))
    as [-> _].
Qed.

Lemma ordered_mapping_lookup groups table t :
  (get_ordered_tissues_by_group groups table).2 !! t
  = if bool_decide (t ∈ all_tissues_in_data table ∧ t ∉ resolved groups table)
    then Some "Other"
    else get_tissue_to_group_mapping groups table !! t.
Proof.
  rewrite ordered_by_entries, mapping_by_entries.
  by destruct (append_other_all (all_tissues_in_data table) (resolved groups table)
                 (foldl (record_group table) ∅ (entries groups)) (NoDup_unique _))
    as [_ ->].
Qed.

(** X5.  The tissue order is made of two parts: first, for every
    dictionary entry that stands for a table tissue, that tissue, in the order
    of the entries; then the table tissues that no entry stands for, in the
    order in which the table first mentions them. *)
Theorem tissue_order_layout groups table :
  (get_ordered_tissues_by_group groups table).1
  = resolved groups table
      ++ filter (λ t, t ∉ resolved groups table) (all_tissues_in_data table)
  ∧ NoDup (filter (λ t, t ∉ resolved groups table) (all_tissues_in_data table))
  ∧ ∀ t, t ∈ resolved groups table
         ↔ ∃ g e, (g, e) ∈ entries groups
                  ∧ head (matching_tissues (all_tissues_in_data table) e) = Some t.
Proof.
  split_and!.
  - apply ordered_layout.
  - apply NoDup_filter, NoDup_unique.
  - intros t. unfold resolved, resolve. rewrite list_elem_of_omap. split.
    + intros ([g e] & Hin & Hres). eauto.
    + intros (g & e & Hin & Hres). exists (g, e). eauto.
Qed.

(** X6.  The mapping of [get_tissue_to_group_mapping] never invents
    anything: a tissue it maps is a tissue of the table, and the group it is
    mapped to is a group of the dictionary that lists a tissue name equal to
    it up to letter case. *)
Theorem mapping_comes_from_dictionary groups table (t g : string) :
  get_tissue_to_group_mapping groups table !! t = Some g →
  t ∈ all_tissues_in_data table
  ∧ ∃ tissues e, (g, tissues) ∈ groups ∧ e ∈ tissues
                 ∧ Text.lower e = Text.lower t.
Proof.
  rewrite mapping_by_entries.
  intros [Hm|(e & Hin & Hres)]%mapping_Some_entry; [by rewrite lookup_empty in Hm|].
  split; [by eapply resolve_in_table|].
  apply elem_of_entries in Hin as (tissues & Hg & He).
  exists tissues, e. split_and!; [done..|]. symmetry. by eapply resolve_lower.
Qed.

Lemma mapping_comes_from_dictionary_witness :
  "CEREBELLUM" ∈ all_tissues_in_data example_table
  ∧ ∃ tissues e, ("Brain", tissues) ∈ example_groups ∧ e ∈ tissues
                 ∧ Text.lower e = Text.lower "CEREBELLUM".
Proof.
  apply (mapping_comes_from_dictionary example_groups example_table). reflexivity.
Defined.

(** X7.  The aggregator and the resolver agree on the group of every
    tissue: the group the aggregator gives a row (its tissue looked up in the
    mapping of [get_tissue_to_group_mapping], "Other" when it is missing) is
    the group the chart builders read from the mapping that
    [get_ordered_tissues_by_group] returns. *)
Theorem aggregator_and_resolver_agree groups table (r : Row) :
  organ_group (get_tissue_to_group_mapping groups table) r
  = group_of (get_ordered_tissues_by_group groups table).2 (Some (Tissue r)).
Proof.
  unfold organ_group, group_of. simpl. rewrite ordered_mapping_lookup.
  case_bool_decide as Hcase; [|done].
  destruct Hcase as [_ Hnot].
  destruct (get_tissue_to_group_mapping groups table !! Tissue r) as [g|] eqn:Hm;
    [|done].
  exfalso. apply Hnot.
  assert (is_Some (foldl (record_group table) ∅ (entries groups) !! Tissue r)) as Hsome
    by (rewrite <-mapping_by_entries; eauto).
  apply mapping_is_Some in Hsome as [[? Hempty]|?]; [|done].
  by rewrite lookup_empty in Hempty.
Qed.

(** The loops skip an entry that stands for no table tissue. *)
Lemma record_group_skips table (es : list (string * string)) (m : gmap string string) :
  foldl (record_group table) m es
  = foldl (record_group table) m (filter (λ e, is_Some (resolve table e.2)) es).
Proof.
  revert m. induction es as [|[g e] es IH]; intros m; [done|].
  rewrite filter_cons. simpl. destruct (decide (is_Some (resolve table e))) as [Hs|Hn].
  - simpl. apply IH.
  - rewrite IH. f_equal. unfold record_group. simpl.
    destruct (resolve table e); [|done]. exfalso. apply Hn. eauto.
Qed.

Lemma resolved_skips table (es : list (string * string)) :
  omap (λ e, resolve table e.2) es
  = omap (λ e, resolve table e.2) (filter (λ e, is_Some (resolve table e.2)) es).
Proof.
  induction es as [|[g e] es IH]; [done|].
  rewrite filter_cons. simpl. destruct (decide (is_Some (resolve table e))) as [Hs|Hn].
  - simpl. destruct (resolve table e); [by f_equal|done].
  - destruct (resolve table e); [|done]. exfalso. apply Hn. eauto.
Qed.

(** X8.  A dictionary tissue that equals no table tissue up to letter case
    is dropped without a trace: two dictionaries whose entries differ only in
    such tissues give the same tissue order and the same mappings. *)
Theorem unmatched_entries_ignored groups groups' table :
  filter (λ e, is_Some (head (matching_tissues (all_tissues_in_data table) e.2)))
    (entries groups)
  = filter (λ e, is_Some (head (matching_tissues (all_tissues_in_data table) e.2)))
      (entries groups') →
  get_tissue_to_group_mapping groups table = get_tissue_to_group_mapping groups' table
  ∧ get_ordered_tissues_by_group groups table
    = get_ordered_tissues_by_group groups' table.
Proof.
  intros Hsame. fold (resolve table) in Hsame.
  assert (foldl (record_group table) ∅ (entries groups)
          = foldl (record_group table) ∅ (entries groups')) as Hmap.
  { rewrite (record_group_skips table (entries groups)).
    rewrite (record_group_skips table (entries groups')).
    unfold resolve. by rewrite Hsame. }
  split.
  - by rewrite !mapping_by_entries.
  - rewrite !ordered_by_entries, Hmap. unfold resolved.
    rewrite (resolved_skips table (entries groups)).
    rewrite (resolved_skips table (entries groups')).
    unfold resolve. by rewrite Hsame.
Qed.

Lemma unmatched_entries_ignored_witness :
  get_tissue_to_group_mapping
    [("Liver", ["liver"; "gallbladder"]); ("Eye", ["retina"]);
     ("Brain", ["cortex"; "cerebellum"])] example_table
  = get_tissue_to_group_mapping example_groups example_table
  ∧ get_ordered_tissues_by_group
      [("Liver", ["liver"; "gallbladder"]); ("Eye", ["retina"]);
       ("Brain", ["cortex"; "cerebellum"])] example_table
    = get_ordered_tissues_by_group example_groups example_table.
Proof.
  apply unmatched_entries_ignored. reflexivity.
Defined.

End ResolverFacts.

(** ** More about the aggregator *)

Module AggregatorFacts.
Import DataLoader Notions UniqueFacts Aggregator.


Lemma elem_of_aggregate_rows `{Numpy} (tissue_to_group : gmap string string)
    (data : Table) (r : Row) :
  r ∈ aggregate_rows tissue_to_group data →
  output_key r ∈ group_key tissue_to_group <$> data
  ∧ nTPM r
    = mean (nTPM <$> filter (λ x, group_key tissue_to_group x = output_key r) data).
Proof.
  unfold aggregate_rows, sort_keys.
  intros (k & -> & Hk)%list_elem_of_fmap.
  rewrite sorted_perm, elem_of_unique in Hk. by destruct k as [[a b] c].
Qed.



End AggregatorFacts.

(** ** More about the chart builders *)

Module ChartFacts.
Import DataLoader App Notions PyDictFacts UniqueFacts Aggregator Charts Callback.

Section charts.
Context `{Numpy}.
Implicit Types (w : World) (f : Frame).

(** The heatmap of a frame, when it is built. *)
Lemma heatmap_figure_Some f ordered_tissues tissue_to_group show_groups log_scale fig :
  heatmap_figure f ordered_tissues tissue_to_group show_groups log_scale = Some fig →
  let index := Py.sorted String.leb (unique (cell_Gene_name <$> rows f)) in
  let columns := displayed_tissues f ordered_tissues in
  NoDup (labels f)
  ∧ ∃ hover_text,
      mapM (λ gene,
              mapM (λ tissue,
                      value ← loc f columns gene tissue;
                      Some (cell_hover tissue_to_group log_scale gene tissue value))
                columns) index
      = Some hover_text
      ∧ fig
        = {| traces :=
               [Heatmap ((λ gene, pivot_cell f gene <$> columns) <$> index)
                  columns index hover_text
                  (if log_scale then "log2(nTPM+1)" else "nTPM")];
             vlines :=
               if show_groups then group_separators tissue_to_group 0 None columns
               else [];
             layout :=
               {| title_text :=
                    "Gene Expression Heatmap"
                    +:+ (if log_scale then " (Log Scale)" else "");
                  xaxis_title := "Tissue";
                  yaxis_title := "Gene";
                  barmode := None;
                  height := 600 `max` (Z.of_nat (length index) * 60);
                  width := dynamic_width (length columns) |} |}.
Proof.
  intros Hfig index columns. unfold heatmap_figure, df_pivot in Hfig.
  destruct (bool_decide_reflect
              (NoDup ((λ r, (cell_Gene_name r, cell_Tissue r)) <$> rows f)))
    as [Hnd|Hnd]; [|done].
  split; [done|]. simpl in Hfig.
  assert (filter (λ t, Some t ∈ unique (cell_Tissue <$> rows f)) ordered_tissues
          = columns) as Hcols.
  { apply list_filter_iff. intros t. apply elem_of_unique. }
  rewrite Hcols in Hfig. fold index in Hfig.
  match type of Hfig with
  | mbind _ (mapM ?g _) = _ =>
      assert (g = (λ gene,
                mapM (λ tissue,
                        value ← loc f columns gene tissue;
                        Some (cell_hover tissue_to_group log_scale gene tissue value))
                  columns)) as Hg
  end.
  { done. }
  rewrite Hg in Hfig.
  destruct (mapM _ index) as [hover_text|]; [|done]. simpl in Hfig.
  injection Hfig as <-. by eexists.
Qed.

Lemma dynamic_width_bounds (n : nat) :
  (800 ≤ dynamic_width n ≤ 2000)%Z
  ∧ (n ≤ 24 → dynamic_width n = 800%Z)
  ∧ (72 ≤ n → dynamic_width n = 2000%Z)
  ∧ (24 ≤ n ≤ 72 → dynamic_width n = (Z.of_nat n * 25 + 200)%Z).
Proof. unfold dynamic_width. lia. Qed.

(** Two rows with one label are one row, when no label occurs twice. *)
Lemma NoDup_fmap_eq {A B} (g : A → B) (l : list A) (x y : A) :
  NoDup (g <$> l) → x ∈ l → y ∈ l → g x = g y → x = y.
Proof.
  intros Hnd [i Hi]%list_elem_of_lookup [j Hj]%list_elem_of_lookup Hg.
  assert (i = j) as ->; [|congruence].
  apply (NoDup_lookup (g <$> l) i j (g x)); [done|..];
    rewrite list_lookup_fmap; [by rewrite Hi|by rewrite Hj, Hg].
Qed.

(** A cell of the pivot table holds the value of the one row with its gene
    name and tissue. *)
Lemma pivot_cell_Some f (gene tissue : string) (v : Q) :
  NoDup (labels f) →
  pivot_cell f gene tissue = Some v
  ↔ ∃ r, r ∈ rows f ∧ cell_Gene_name r = gene ∧ cell_Tissue r = Some tissue
         ∧ cell_nTPM r = Some v.
Proof.
  intros Hnd. unfold pivot_cell. split.
  - destruct (list_find _ (rows f)) as [[i r]|] eqn:Hfind; [|done]. simpl.
    apply list_find_Some in Hfind as (Hi & [Hg Ht] & _).
    intros Hv. exists r. split_and!; [|done..]. by eapply list_elem_of_lookup_2.
  - intros (r & Hr & Hg & Ht & Hv).
    destruct (list_find (λ r, cell_Gene_name r = gene ∧ cell_Tissue r = Some tissue)
                (rows f)) as [[i r']|] eqn:Hfind.
    + simpl. apply list_find_Some in Hfind as (Hi & [Hg' Ht'] & _).
      assert (r' = r) as ->; [|done].
      apply (NoDup_fmap_eq (λ r, (cell_Gene_name r, cell_Tissue r)) (rows f));
        [done|by eapply list_elem_of_lookup_2|done|congruence].
    + apply list_find_None in Hfind. rewrite Forall_forall in Hfind.
      by destruct (Hfind r Hr).
Qed.

Lemma pivot_cell_None f (gene tissue : string) :
  (∀ r, r ∈ rows f → ¬ (cell_Gene_name r = gene ∧ cell_Tissue r = Some tissue)) →
  pivot_cell f gene tissue = None.
Proof.
  intros Hnone. unfold pivot_cell.
  destruct (list_find _ (rows f)) as [[i r]|] eqn:Hfind; [|done].
  apply list_find_Some in Hfind as (Hi & HP & _).
  destruct (Hnone r); [by eapply list_elem_of_lookup_2|done].
Qed.

(** The rows and the cells of the hover text. *)
Lemma hover_text_cells f columns index hover_text tissue_to_group log_scale
    (i j : nat) (gene tissue : string) :
  mapM (λ gene,
          mapM (λ tissue,
                  value ← loc f columns gene tissue;
                  Some (cell_hover tissue_to_group log_scale gene tissue value))
            columns) index
  = Some hover_text →
  index !! i = Some gene → columns !! j = Some tissue →
  length hover_text = length index
  ∧ (hover_text !! i ≫= (.!! j))
    = Some (cell_hover tissue_to_group log_scale gene tissue
              (pivot_cell f gene tissue)).
Proof.
  intros Hmap%mapM_Some Hi Hj. split; [symmetry; by eapply Forall2_length|].
  destruct (Forall2_lookup_l _ _ _ _ _ Hmap Hi) as (row & -> & Hrow). simpl.
  apply mapM_Some in Hrow.
  destruct (Forall2_lookup_l _ _ _ _ _ Hrow Hj) as (cell & -> & Hcell).
  unfold loc in Hcell. destruct (bool_decide _); [|done]. simpl in Hcell.
  by injection Hcell as <-.
Qed.

(** A bar chart that is built has the traces of the box plot of the same
    frame, each with its hover labels, and the width of that plot. *)
Lemma bar_figure_Some f tissue_to_group log_scale fig :
  bar_figure f tissue_to_group log_scale = Some fig →
  Forall2 same_series (traces fig) (traces (box_figure f log_scale))
  ∧ vlines fig = []
  ∧ width (layout fig) = width (layout (box_figure f log_scale))
  ∧ height (layout fig) = 700%Z.
Proof.
  unfold bar_figure, box_figure. cbn [traces layout width].
  destruct (mapM _ (unique _)) as [fig_data|] eqn:Hmap; [|done].
  simpl. intros [= <-]. simpl. split_and!; [|done..].
  apply mapM_Some in Hmap. apply Forall2_fmap_r, Forall2_flip.
  eapply Forall2_impl; [exact Hmap|]. intros gene trace Htrace. simpl in Htrace.
  destruct (mapM _ (filter _ _)) as [hover_text|]; [|done].
  injection Htrace as <-. by eexists _, _, _, _.
Qed.

Lemma same_series_traces (bars boxes : list Trace) :
  Forall2 same_series bars boxes →
  series <$> bars = series <$> boxes
  ∧ bars ≫= points = boxes ≫= points
  ∧ omap (λ trace, (λ s, s.1.1) <$> series trace) bars
    = omap (λ trace, (λ s, s.1.1) <$> series trace) boxes.
Proof.
  induction 1 as [|bar box bars boxes (name & x & y & hover_text & -> & ->) _ IH];
    [done|].
  destruct IH as (IH1 & IH2 & IH3).
  rewrite !fmap_cons, !bind_cons, IH1, IH2. cbn [omap list_omap]. simpl.
  by rewrite IH3.
Qed.

(** The hover label of a bar is built unless the power is too large. *)
Lemma bar_hover_is_Some tissue_to_group log_scale gene (r : FrameRow) :
  is_Some (bar_hover tissue_to_group log_scale gene r)
  ↔ (log_scale = true → ∀ v, cell_nTPM r = Some v → is_Some (pow2 v)).
Proof.
  unfold bar_hover. destruct log_scale; [|split; [done|by eexists]].
  destruct (cell_nTPM r) as [ntpm|]; [|split; [done|by eexists]].
  split.
  - intros Hsome _ v [= <-]. destruct (pow2 ntpm); [by eexists|].
    by destruct Hsome.
  - intros Hpow. destruct (Hpow eq_refl ntpm eq_refl) as [p ->]. by eexists.
Qed.

(** The bar chart is built unless, on the log scale, the power of the
    value of a row is too large. *)
Lemma bar_figure_is_Some_iff f tissue_to_group log_scale :
  is_Some (bar_figure f tissue_to_group log_scale)
  ↔ (log_scale = true →
     ∀ r v, r ∈ sort_values_tissue f → cell_nTPM r = Some v → is_Some (pow2 v)).
Proof.
  unfold bar_figure.
  set (data := sort_values_tissue f).
  set (trace := λ gene : string, _).
  assert (is_Some (mapM trace (unique (cell_Gene_name <$> data)))
          ↔ (log_scale = true →
             ∀ r v, r ∈ data → cell_nTPM r = Some v → is_Some (pow2 v))) as <-.
  { rewrite mapM_is_Some, Forall_forall. split.
    - intros Hall Hlog r v Hr Hv.
      assert (is_Some (trace (cell_Gene_name r))) as Htrace.
      { apply Hall, elem_of_unique, list_elem_of_fmap. eauto. }
      subst trace. simpl in Htrace.
      assert (is_Some (mapM (bar_hover tissue_to_group log_scale (cell_Gene_name r))
                         (filter (λ r0, cell_Gene_name r0 = cell_Gene_name r) data)))
        as Hmap.
      { destruct (mapM _ (filter _ data)) as [hover_text|];
          [by eexists|by destruct Htrace]. }
      apply mapM_is_Some in Hmap. rewrite Forall_forall in Hmap.
      assert (is_Some (bar_hover tissue_to_group log_scale (cell_Gene_name r) r))
        as Hhover by (apply Hmap; by apply list_elem_of_filter).
      by apply (proj1 (bar_hover_is_Some _ _ _ _) Hhover Hlog v).
    - intros Hok gene _. subst trace. simpl.
      assert (is_Some (mapM (bar_hover tissue_to_group log_scale gene)
                         (filter (λ r, cell_Gene_name r = gene) data)))
        as [hover_text ->]; [|by eexists].
      apply mapM_is_Some, Forall_forall. intros r [_ Hr]%list_elem_of_filter.
      apply bar_hover_is_Some. intros Hlog v Hv. by apply (Hok Hlog r v). }
  destruct (mapM trace _) as [fig_data|]; simpl.
  - split; intros _; by eexists.
  - split; by intros [? ?].
Qed.

(** Either the value of some row has a power too large for a double, or
    that of none has. *)
Lemma overflow_or_not (l : list FrameRow) :
  (∃ r v, r ∈ l ∧ cell_nTPM r = Some v ∧ pow2 v = None)
  ∨ (∀ r v, r ∈ l → cell_nTPM r = Some v → is_Some (pow2 v)).
Proof.
  induction l as [|r l [(r' & v & Hr & Hv & Hp)|IH]].
  - right. by intros r v ?%elem_of_nil.
  - left. exists r', v. split; [apply elem_of_cons; by right|done].
  - destruct (cell_nTPM r) as [v|] eqn:Hv.
    + destruct (pow2 v) as [p|] eqn:Hp.
      * right. intros r' v' [->|Hr']%elem_of_cons Hv'; [|by eapply IH].
        rewrite Hv in Hv'. injection Hv' as <-. by rewrite Hp.
      * left. exists r, v. split; [apply elem_of_cons; by left|done].
    + right. intros r' v' [->|Hr']%elem_of_cons Hv'; [congruence|by eapply IH].
Qed.

(** X11.  Whatever the frame, a figure that a chart builder returns is
    between 800 and 2000 wide.  A heatmap is at least 600 high and 60 for each
    of its genes when that is more; a bar chart and a box plot are 700 high.
    The heatmap is 800 wide up to 24 tissue columns, 2000 wide from 72
    columns on, and 25 for each column plus 200 in between. *)
Theorem figure_size_bounds (data : nat) (ordered_tissues : list string)
    (tissue_to_group : gmap string string) (show_groups log_scale : bool)
    (w w' : World) (fig : Figure) :
  (create_heatmap data ordered_tissues tissue_to_group show_groups log_scale w
   = Some (fig, w') →
   ∃ z x y customdata colorbar_title,
     traces fig = [Heatmap z x y customdata colorbar_title]
     ∧ (800 ≤ width (layout fig) ≤ 2000)%Z
     ∧ (length x ≤ 24 → width (layout fig) = 800%Z)
     ∧ (72 ≤ length x → width (layout fig) = 2000%Z)
     ∧ (24 ≤ length x ≤ 72 →
        width (layout fig) = (Z.of_nat (length x) * 25 + 200)%Z)
     ∧ height (layout fig) = (600 `max` (Z.of_nat (length y) * 60))%Z)
  ∧ (create_bar_chart data ordered_tissues tissue_to_group log_scale w
     = Some (fig, w')
     ∨ create_box_plot data ordered_tissues tissue_to_group log_scale w
       = Some (fig, w') →
     (800 ≤ width (layout fig) ≤ 2000)%Z ∧ height (layout fig) = 700%Z).
Proof.
  split.
  - rewrite create_heatmap_run. intros Hrun.
    destruct (heap w !! data) as [f|]; simpl in Hrun; [|done].
    destruct (heatmap_figure f _ _ _ _) as [fig'|] eqn:Hfig; simpl in Hrun; [|done].
    injection Hrun as -> ->.
    apply heatmap_figure_Some in Hfig as (_ & hover_text & _ & ->).
    do 5 eexists. split; [done|]. simpl.
    pose proof (dynamic_width_bounds (length (displayed_tissues f ordered_tissues)))
      as ([? ?] & ? & ? & ?).
    by split_and!.
  - rewrite create_bar_chart_run, create_box_plot_run.
    destruct (heap w !! data) as [f|]; simpl; [|by intros [?|?]].
    destruct (bool_decide _); [|by intros [?|?]].
    intros [Hbar|[= <- _]]; [|by split; [apply dynamic_width_bounds|]].
    destruct (bar_figure _ _ _) as [bar|] eqn:Hfig; simpl in Hbar; [|done].
    injection Hbar as -> _.
    apply bar_figure_Some in Hfig as (_ & _ & -> & ->).
    split; [apply dynamic_width_bounds|done].
Qed.

(** X12.  A heatmap that is built has one row for every gene name of the
    frame, in increasing order, and one column for every tissue of the tissue
    order that occurs in the frame, in that order.  The cell of a gene and a
    tissue is the value of the row of the frame with that gene name and
    tissue; it is "no data", not zero, and its hover label is the "N/A" one,
    when the frame has no such row. *)
Theorem heatmap_cells (data : nat) (ordered_tissues : list string)
    (tissue_to_group : gmap string string) (show_groups log_scale : bool)
    (w w' : World) (fig : Figure) :
  create_heatmap data ordered_tissues tissue_to_group show_groups log_scale w
  = Some (fig, w') →
  ∃ f z x y customdata colorbar_title,
    heap w !! data = Some f
    ∧ traces fig = [Heatmap z x y customdata colorbar_title]
    ∧ x = displayed_tissues f ordered_tissues
    ∧ y = Py.sorted String.leb (unique (cell_Gene_name <$> rows f))
    ∧ length z = length y ∧ length customdata = length y
    ∧ ∀ i j gene tissue,
        y !! i = Some gene → x !! j = Some tissue →
        ∃ value,
          z !! i ≫= (.!! j) = Some value
          ∧ customdata !! i ≫= (.!! j)
            = Some (cell_hover tissue_to_group log_scale gene tissue value)
          ∧ (∀ v, value = Some v
                  ↔ ∃ r, r ∈ rows f ∧ cell_Gene_name r = gene
                         ∧ cell_Tissue r = Some tissue ∧ cell_nTPM r = Some v)
          ∧ ((∀ r, r ∈ rows f →
                   ¬ (cell_Gene_name r = gene ∧ cell_Tissue r = Some tissue)) →
             value = None).
Proof.
  rewrite create_heatmap_run. intros Hrun.
  destruct (heap w !! data) as [f|]; simpl in Hrun; [|done].
  destruct (heatmap_figure f _ _ _ _) as [fig'|] eqn:Hfig; simpl in Hrun; [|done].
  injection Hrun as -> ->.
  apply heatmap_figure_Some in Hfig as (Hnd & hover_text & Hhover & ->).
  exists f. do 5 eexists. split_and!; [done..| | |].
  - by rewrite length_fmap.
  - apply mapM_Some in Hhover. symmetry. by eapply Forall2_length.
  - intros i j gene tissue Hi Hj. exists (pivot_cell f gene tissue). split_and!.
    + rewrite list_lookup_fmap, Hi. simpl. by rewrite list_lookup_fmap, Hj.
    + by eapply hover_text_cells.
    + intros v. by apply pivot_cell_Some.
    + apply pivot_cell_None.
Qed.

(** A list in which every element occurs once has no duplicates. *)
Lemma once_NoDup {A} `{EqDecision A} (l : list A) :
  (∀ x, x ∈ l → length (filter (λ c, c = x) l) = 1) → NoDup l.
Proof.
  induction l as [|x l IH]; intros Honce; [constructor|].
  assert (x ∉ l) as Hx.
  { specialize (Honce x (proj2 (elem_of_cons _ _ _) (or_introl eq_refl))).
    rewrite filter_cons, decide_True in Honce by done. simpl in Honce.
    injection Honce as Hnil%length_zero_iff_nil.
    by apply (filter_nil_not_elem_of _ _ x) in Hnil. }
  constructor; [done|]. apply IH. intros y Hy.
  specialize (Honce y (proj2 (elem_of_cons _ _ _) (or_intror Hy))).
  rewrite filter_cons, decide_False in Honce; [done|]. by intros ->.
Qed.

Lemma sorted_nil_iff {A} (leb : A → A → bool) (l : list A) :
  Py.sorted leb l = [] ↔ l = [].
Proof.
  split; [|by intros ->]. intros Hnil.
  apply length_zero_iff_nil. by rewrite <-(sorted_perm leb l), Hnil.
Qed.

Lemma unique_nil_iff {A} `{EqDecision A} (l : list A) : unique l = [] ↔ l = [].
Proof.
  split; [|by intros ->]. intros Hnil. apply elem_of_nil_inv. intros x Hx.
  apply elem_of_unique in Hx. rewrite Hnil in Hx. by apply elem_of_nil in Hx.
Qed.

(** The heatmap of a frame is built exactly when no (gene name, tissue)
    label and no displayed tissue occurs twice. *)
Lemma heatmap_figure_is_Some_iff f ordered_tissues tissue_to_group show_groups
    log_scale :
  is_Some (heatmap_figure f ordered_tissues tissue_to_group show_groups log_scale)
  ↔ NoDup (labels f) ∧ NoDup (displayed_tissues f ordered_tissues).
Proof.
  split.
  - intros [fig Hfig]. apply heatmap_figure_Some in Hfig as (Hnd & hover & Hmap & _).
    split; [done|]. apply mapM_Some in Hmap.
    destruct (Py.sorted String.leb (unique (cell_Gene_name <$> rows f)))
      as [|gene index] eqn:Hindex.
    + apply sorted_nil_iff, unique_nil_iff, fmap_nil_inv in Hindex.
      unfold displayed_tissues. rewrite Hindex. simpl.
      assert (filter (λ t : string, Some t ∈ @nil (option string)) ordered_tissues = [])
        as ->; [|constructor].
      apply elem_of_nil_inv. intros t [Ht _]%list_elem_of_filter.
      by apply elem_of_nil in Ht.
    + inversion Hmap as [|? row ? ? Hrow _]; subst. apply mapM_Some in Hrow.
      apply once_NoDup. intros t [j Hj]%list_elem_of_lookup.
      destruct (Forall2_lookup_l _ _ _ _ _ Hrow Hj) as (cell & _ & Hcell).
      unfold loc in Hcell. by case_bool_decide.
  - intros [Hlabels Hcols]. unfold heatmap_figure, df_pivot.
    rewrite bool_decide_eq_true_2 by done. simpl.
    assert (filter (λ t, Some t ∈ unique (cell_Tissue <$> rows f)) ordered_tissues
            = displayed_tissues f ordered_tissues) as ->.
    { apply list_filter_iff. intros t. apply elem_of_unique. }
    match goal with
    | |- is_Some (mbind _ (mapM ?g ?index)) =>
        assert (is_Some (mapM g index)) as [hover_text ->]
    end; [|by eexists].
    apply mapM_is_Some, Forall_forall. intros gene _. simpl.
    apply mapM_is_Some, Forall_forall. intros tissue Htissue. simpl.
    unfold loc. rewrite bool_decide_eq_true_2 by by apply filter_eq_once.
    by eexists.
Qed.

(** X13.  [create_heatmap] raises exactly when the frame has two rows
    with the same gene name and tissue (the pivot fails), or a tissue that
    occurs in the frame is listed twice in the tissue order (the hover text
    fails).  A tissue that is listed twice but does not occur in the frame
    does no harm. *)
Theorem heatmap_raises_iff (data : nat) (f : Frame) (ordered_tissues : list string)
    (tissue_to_group : gmap string string) (show_groups log_scale : bool) (w : World) :
  heap w !! data = Some f →
  create_heatmap data ordered_tissues tissue_to_group show_groups log_scale w = None
  ↔ ¬ NoDup (labels f) ∨ ¬ NoDup (displayed_tissues f ordered_tissues).
Proof.
  intros Hf. rewrite create_heatmap_run, Hf. simpl.
  pose proof (heatmap_figure_is_Some_iff f ordered_tissues tissue_to_group
                show_groups log_scale) as Hiff.
  destruct (heatmap_figure f _ _ _ _) as [fig|]; simpl.
  - split; [done|]. destruct (proj1 Hiff) as [? ?]; [by eexists|]. tauto.
  - split; [|done]. intros _.
    destruct (decide (NoDup (labels f))) as [Hl|Hl]; [|by left].
    destruct (decide (NoDup (displayed_tissues f ordered_tissues))) as [Hc|Hc];
      [|by right].
    by destruct (proj2 Hiff (conj Hl Hc)).
Qed.

(** X15.  On the same frame and tissue order the bar chart and the box
    plot draw the same series: the same gene names in the same order, each
    with the same tissues and values; the group mapping and the scale flag
    have no part in it.  Both leave the same state behind. *)
Theorem bar_and_box_same_series (data : nat) (ordered_tissues : list string)
    (tissue_to_group tissue_to_group' : gmap string string)
    (log_scale log_scale' : bool) (w w_bar w_box : World) (bar box : Figure) :
  create_bar_chart data ordered_tissues tissue_to_group log_scale w
  = Some (bar, w_bar) →
  create_box_plot data ordered_tissues tissue_to_group' log_scale' w
  = Some (box, w_box) →
  series <$> traces bar = series <$> traces box
  ∧ Forall (λ trace, is_Some (series trace)) (traces bar)
  ∧ width (layout bar) = width (layout box)
  ∧ w_bar = w_box.
Proof.
  rewrite create_bar_chart_run, create_box_plot_run.
  destruct (heap w !! data) as [f|]; simpl; [|done].
  destruct (bool_decide _); [|done].
  destruct (bar_figure _ _ _) as [fig|] eqn:Hfig; simpl; [|done].
  intros [= <- <-] [= <- <-].
  apply bar_figure_Some in Hfig as (Hsame & _ & Hwidth & _).
  assert (traces (box_figure (as_categorical f ordered_tissues) log_scale)
          = traces (box_figure (as_categorical f ordered_tissues) log_scale'))
    as Htraces by done.
  split_and!; [| |done..].
  - rewrite <-Htraces. by apply same_series_traces.
  - eapply Forall2_Forall_l; [exact Hsame|]. apply Forall_true.
    intros box bar (name & x & y & hover_text & -> & _). by eexists.
Qed.

Lemma omap_lookup_seq {A} (pre l : list A) :
  omap (λ i, (pre ++ l) !! i) (seq (length pre) (length l)) = l.
Proof.
  revert pre. induction l as [|x l IH]; intros pre; [done|].
  simpl. rewrite list_lookup_middle by done. f_equal.
  specialize (IH (pre ++ [x])). rewrite length_app, <-app_assoc in IH. simpl in IH.
  by rewrite Nat.add_1_r in IH.
Qed.

(** With an [argsort] that permutes, sorting keeps every row. *)
Lemma sort_values_perm f : argsort_permutes → sort_values_tissue f ≡ₚ rows f.
Proof.
  intros Hperm. unfold argsort_permutes in Hperm. unfold sort_values_tissue.
  set (valued := filter (λ r, is_Some (cell_Tissue r)) (rows f)).
  rewrite Hperm, length_fmap.
  pose proof (omap_lookup_seq [] valued) as Hseq. simpl in Hseq. rewrite Hseq.
  assert (filter (λ r, cell_Tissue r = None) (rows f)
          = filter (λ r, ¬ is_Some (cell_Tissue r)) (rows f)) as ->.
  { apply list_filter_iff. intros r. by rewrite eq_None_not_Some. }
  apply filter_app_complement.
Qed.

Lemma bind_filter_other {A K} `{EqDecision K} (key : A → K) (k : K) (ks : list K)
    (l : list A) :
  k ∉ ks →
  (k0 ← ks; filter (λ x, key x = k0) l)
  = (k0 ← ks; filter (λ x, key x = k0) (filter (λ x, ¬ key x = k) l)).
Proof.
  induction ks as [|k' ks IH]; [done|]. intros [Hne Hk]%not_elem_of_cons.
  rewrite !bind_cons, <-IH by done. f_equal. rewrite list_filter_filter.
  apply list_filter_iff. intros x. split; [by intros ->|tauto].
Qed.

(** Splitting a list by a key and putting the parts together keeps every
    element. *)
Lemma split_by_key {A K} `{EqDecision K} (key : A → K) (ks : list K) (l : list A) :
  NoDup ks → (∀ x, x ∈ l → key x ∈ ks) →
  (k ← ks; filter (λ x, key x = k) l) ≡ₚ l.
Proof.
  intros Hks. revert l. induction Hks as [|k ks Hk Hks IH]; intros l Hl.
  - destruct l as [|x l]; [done|].
    destruct (elem_of_nil (key x)) as [Hno _]. destruct Hno. apply Hl, elem_of_cons. by left.
  - rewrite bind_cons. etrans; [|apply (filter_app_complement (λ x, key x = k) l)].
    f_equiv. rewrite (bind_filter_other key k ks l) by done. apply IH.
    intros x [Hne Hx]%list_elem_of_filter.
    specialize (Hl x Hx). apply elem_of_cons in Hl as [?|?]; done.
Qed.

(** The points of the traces of a bar chart or a box plot. *)
Lemma series_points (data : list FrameRow) (gene : string) :
  zip_with (λ t v, (gene, t, v))
    (cell_Tissue <$> filter (λ r, cell_Gene_name r = gene) data)
    (cell_nTPM <$> filter (λ r, cell_Gene_name r = gene) data)
  = row_point <$> filter (λ r, cell_Gene_name r = gene) data.
Proof.
  rewrite zip_with_fmap_l, zip_with_fmap_r, zip_with_diag.
  apply list_fmap_ext. intros _ r [Hname _]%list_elem_of_lookup_2%list_elem_of_filter.
  unfold row_point. by rewrite Hname.
Qed.

Lemma traces_points (data : list FrameRow) (trace : string → list FrameRow → Trace) :
  (∀ gene, points (trace gene (filter (λ r, cell_Gene_name r = gene) data))
           = row_point <$> filter (λ r, cell_Gene_name r = gene) data) →
  ((λ gene, trace gene (filter (λ r, cell_Gene_name r = gene) data))
     <$> unique (cell_Gene_name <$> data)) ≫= points
  ≡ₚ row_point <$> data.
Proof.
  intros Hpoints.
  rewrite <-(split_by_key cell_Gene_name (unique (cell_Gene_name <$> data)) data) at 2.
  - rewrite list_fmap_bind. induction (unique (cell_Gene_name <$> data)) as [|g gs IH];
      [done|].
    rewrite !bind_cons, fmap_app. simpl. rewrite Hpoints. by f_equiv.
  - apply NoDup_unique.
  - intros r Hr. apply elem_of_unique, list_elem_of_fmap. eauto.
Qed.

(** The cells of a frame whose tissues are all categories stay as they
    are when the column becomes categorical. *)
Lemma as_categorical_rows f (cats : list string) :
  Forall (λ r, ∃ t, cell_Tissue r = Some t ∧ t ∈ cats) (rows f) →
  rows (as_categorical f cats) = rows f.
Proof.
  intros Hall. unfold as_categorical. simpl.
  rewrite <-(list_fmap_id (rows f)) at 2. apply list_fmap_ext.
  intros _ r Hr%list_elem_of_lookup_2. rewrite Forall_forall in Hall.
  destruct (Hall r Hr) as (t & Ht & Hin). destruct r as [g n t' v]. simpl in *.
  subst t'. simpl. by rewrite bool_decide_eq_true_2.
Qed.

Lemma box_figure_points f log_scale :
  argsort_permutes →
  traces (box_figure f log_scale) ≫= points ≡ₚ row_point <$> rows f.
Proof.
  intros Hperm. unfold box_figure. cbn [traces].
  rewrite (traces_points (sort_values_tissue f)
             (λ gene gene_data,
                Box gene (cell_Tissue <$> gene_data) (cell_nTPM <$> gene_data))).
  - by rewrite sort_values_perm.
  - intros gene. apply series_points.
Qed.

Lemma names_of_traces (mk : string → Trace) (l : list string) :
  (∀ g, (λ s, s.1.1) <$> series (mk g) = Some g) →
  omap (λ trace, (λ s, s.1.1) <$> series trace) (mk <$> l) = l.
Proof.
  intros Hmk. induction l as [|g l IH]; [done|].
  rewrite fmap_cons. cbn [omap list_omap]. rewrite Hmk. by f_equal.
Qed.

Lemma box_figure_names f log_scale :
  series_names (box_figure f log_scale)
  = unique (cell_Gene_name <$> sort_values_tissue f).
Proof. unfold series_names, box_figure. cbn [traces]. by apply names_of_traces. Qed.

Lemma bar_figure_points f tissue_to_group log_scale fig :
  argsort_permutes →
  bar_figure f tissue_to_group log_scale = Some fig →
  traces fig ≫= points ≡ₚ row_point <$> rows f.
Proof.
  intros Hperm [Hsame _]%bar_figure_Some.
  apply same_series_traces in Hsame as (_ & -> & _). by apply box_figure_points.
Qed.

Lemma bar_figure_names f tissue_to_group log_scale fig :
  bar_figure f tissue_to_group log_scale = Some fig →
  series_names fig = unique (cell_Gene_name <$> sort_values_tissue f).
Proof.
  intros [Hsame _]%bar_figure_Some.
  apply same_series_traces in Hsame as (_ & _ & Hnames).
  unfold series_names. rewrite Hnames. apply box_figure_names.
Qed.

Lemma sorted_gene_names f (g : string) :
  argsort_permutes →
  g ∈ unique (cell_Gene_name <$> sort_values_tissue f) ↔ g ∈ cell_Gene_name <$> rows f.
Proof. intros Hperm. by rewrite elem_of_unique, sort_values_perm. Qed.

Lemma as_categorical_names f (cats : list string) :
  cell_Gene_name <$> rows (as_categorical f cats) = cell_Gene_name <$> rows f.
Proof. unfold as_categorical. simpl. by rewrite <-list_fmap_compose. Qed.

(** The values of the rows stay as they are when the column becomes
    categorical. *)
Lemma as_categorical_values f (cats : list string) (v : Q) :
  (∃ r, r ∈ rows (as_categorical f cats) ∧ cell_nTPM r = Some v)
  ↔ ∃ r, r ∈ rows f ∧ cell_nTPM r = Some v.
Proof.
  unfold as_categorical. simpl. split.
  - intros (r & (r0 & -> & Hr0)%list_elem_of_fmap & Hv). by exists r0.
  - intros (r & Hr & Hv). eexists. split; [apply list_elem_of_fmap; eauto|done].
Qed.

(** When the bar chart of a frame raises, for an [argsort] that permutes. *)
Lemma bar_figure_None_iff f tissue_to_group :
  argsort_permutes →
  bar_figure f tissue_to_group true = None
  ↔ ∃ r v, r ∈ rows f ∧ cell_nTPM r = Some v ∧ pow2 v = None.
Proof.
  intros Hperm.
  pose proof (bar_figure_is_Some_iff f tissue_to_group true) as Hsome.
  assert (∀ r, r ∈ sort_values_tissue f ↔ r ∈ rows f) as Hrows
    by (intros r; by rewrite sort_values_perm).
  split.
  - intros Hnone. destruct (overflow_or_not (rows f)) as [?|Hok]; [done|].
    destruct (proj2 Hsome) as [fig Hfig]; [|congruence].
    intros _ r v Hr Hv. apply (Hok r v); [by apply Hrows|done].
  - intros (r & v & Hr & Hv & Hp).
    destruct (bar_figure f tissue_to_group true) as [fig|] eqn:Hfig; [|done].
    destruct (proj1 Hsome (ltac:(by eexists)) eq_refl r v) as [p Hp'];
      [by apply Hrows|done|congruence].
Qed.

(** X14.  [create_box_plot] raises exactly when a tissue is listed twice
    in the tissue order, whether or not that tissue occurs in the frame, and
    so does [create_bar_chart] on the linear scale.  On the log scale
    [create_bar_chart] raises besides when the power of two of the value of
    some row is too large for a double, which the hover text of the row
    takes (provided [argsort] yields a permutation of the positions, so
    that every row gets its hover text). *)
Theorem bar_and_box_raise_iff (data : nat) (f : Frame) (ordered_tissues : list string)
    (tissue_to_group : gmap string string) (log_scale : bool) (w : World) :
  heap w !! data = Some f →
  (create_box_plot data ordered_tissues tissue_to_group log_scale w = None
   ↔ ¬ NoDup ordered_tissues)
  ∧ (create_bar_chart data ordered_tissues tissue_to_group false w = None
     ↔ ¬ NoDup ordered_tissues)
  ∧ (argsort_permutes →
     create_bar_chart data ordered_tissues tissue_to_group true w = None
     ↔ ¬ NoDup ordered_tissues
       ∨ ∃ r v, r ∈ rows f ∧ cell_nTPM r = Some v ∧ pow2 v = None).
Proof.
  intros Hf. rewrite !create_bar_chart_run, create_box_plot_run, Hf. simpl.
  destruct (bool_decide_reflect (NoDup ordered_tissues)) as [Hnd|Hnd].
  - split_and!; [by split|..].
    + destruct (proj2 (bar_figure_is_Some_iff (as_categorical f ordered_tissues)
                         tissue_to_group false)) as [fig ->]; [done|].
      by split.
    + intros Hperm.
      pose proof (bar_figure_None_iff (as_categorical f ordered_tissues)
                    tissue_to_group Hperm) as Hnone.
      assert ((∃ r v, r ∈ rows (as_categorical f ordered_tissues)
                      ∧ cell_nTPM r = Some v ∧ pow2 v = None)
              ↔ ∃ r v, r ∈ rows f ∧ cell_nTPM r = Some v ∧ pow2 v = None) as Hrows.
      { split; intros (r & v & Hr & Hv & Hp).
        - destruct (proj1 (as_categorical_values f ordered_tissues v))
            as (r0 & ? & ?); eauto 6.
        - destruct (proj2 (as_categorical_values f ordered_tissues v))
            as (r0 & ? & ?); eauto 6. }
      rewrite <-Hrows, <-Hnone.
      destruct (bar_figure _ _ _); simpl.
      * split; [done|]. by intros [?|?].
      * split; [by right|done].
  - split_and!; [by split..|]. intros _. split; [by left|done].
Qed.

(** X16.  If [argsort] yields a permutation of the positions, a bar chart
    and a box plot draw every row of the frame exactly once, in the series of
    its gene name: the points of all series together are the rows of the
    frame (the tissue of a row outside the tissue order read as missing), the
    names of the series are the gene names of the frame, each once. *)
Theorem every_row_is_drawn (data : nat) (f : Frame) (ordered_tissues : list string)
    (tissue_to_group : gmap string string) (log_scale : bool)
    (w w' : World) (fig : Figure) :
  argsort_permutes →
  heap w !! data = Some f →
  create_bar_chart data ordered_tissues tissue_to_group log_scale w = Some (fig, w')
  ∨ create_box_plot data ordered_tissues tissue_to_group log_scale w = Some (fig, w') →
  traces fig ≫= points ≡ₚ row_point <$> rows (as_categorical f ordered_tissues)
  ∧ (Forall (λ r, ∃ t, cell_Tissue r = Some t ∧ t ∈ ordered_tissues) (rows f) →
     traces fig ≫= points ≡ₚ row_point <$> rows f)
  ∧ NoDup (series_names fig)
  ∧ ∀ g, g ∈ series_names fig ↔ g ∈ cell_Gene_name <$> rows f.
Proof.
  intros Hperm Hf. rewrite create_bar_chart_run, create_box_plot_run, Hf. simpl.
  destruct (bool_decide _); [|by intros [?|?]].
  intros [Hbar|[= <- _]].
  - destruct (bar_figure _ _ _) as [bar|] eqn:Hfig; simpl in Hbar; [|done].
    injection Hbar as -> _.
    pose proof (bar_figure_points _ _ _ _ Hperm Hfig) as Hpoints.
    pose proof (bar_figure_names _ _ _ _ Hfig) as Hnames.
    split_and!; [done| | |].
    + intros Hall. by rewrite Hpoints, as_categorical_rows.
    + rewrite Hnames. apply NoDup_unique.
    + intros g. by rewrite Hnames, sorted_gene_names, as_categorical_names.
  - pose proof (box_figure_points (as_categorical f ordered_tissues) log_scale Hperm)
      as Hpoints.
    split_and!; [done| | |].
    + intros Hall. by rewrite Hpoints, as_categorical_rows.
    + rewrite box_figure_names. apply NoDup_unique.
    + intros g. by rewrite box_figure_names, sorted_gene_names, as_categorical_names.
Qed.

End charts.

Lemma insert_index_perm (codes : list nat) (i : nat) (l : list nat) :
  insert_index codes i l ≡ₚ i :: l.
Proof.
  induction l as [|j l IH]; simpl; [done|].
  destruct (_ <=? _); [|done]. rewrite IH. apply Permutation_swap.
Qed.

(** The stable [argsort] of the examples permutes. *)
Lemma stable_argsort_permutes : argsort_permutes (H := example_numpy).
Proof.
  intros codes. simpl. unfold stable_argsort.
  generalize (seq 0 (length codes)). intros l.
  rewrite <-(app_nil_l l) at 2. generalize (@nil nat).
  induction l as [|i l IH]; intros acc; simpl; [by rewrite app_nil_r|].
  rewrite IH, insert_index_perm. simpl. apply Permutation_middle.
Qed.

Lemma figure_size_bounds_witness :
  ∃ z x y customdata colorbar_title,
    traces (figure_of example_heatmap) = [Heatmap z x y customdata colorbar_title]
    ∧ (800 ≤ width (layout (figure_of example_heatmap)) ≤ 2000)%Z
    ∧ (length x ≤ 24 → width (layout (figure_of example_heatmap)) = 800%Z)
    ∧ (72 ≤ length x → width (layout (figure_of example_heatmap)) = 2000%Z)
    ∧ (24 ≤ length x ≤ 72 →
       width (layout (figure_of example_heatmap))
       = (Z.of_nat (length x) * 25 + 200)%Z)
    ∧ height (layout (figure_of example_heatmap))
      = (600 `max` (Z.of_nat (length y) * 60))%Z.
Proof.
  apply (proj1 (figure_size_bounds (H := example_numpy) 0 example_order.1 example_order.2 true false
                  example_world (world_of example_world example_heatmap)
                  (figure_of example_heatmap))).
  vm_compute. reflexivity.
Defined.

Lemma heatmap_cells_witness :
  ∃ f z x y customdata colorbar_title,
    heap example_world !! 0 = Some f
    ∧ traces (figure_of example_heatmap) = [Heatmap z x y customdata colorbar_title]
    ∧ x = displayed_tissues f example_order.1
    ∧ y = Py.sorted String.leb (unique (cell_Gene_name <$> rows f))
    ∧ length z = length y ∧ length customdata = length y
    ∧ ∀ i j gene tissue,
        y !! i = Some gene → x !! j = Some tissue →
        ∃ value,
          z !! i ≫= (.!! j) = Some value
          ∧ customdata !! i ≫= (.!! j)
            = Some (cell_hover (H := example_numpy) example_order.2 false
                      gene tissue value)
          ∧ (∀ v, value = Some v
                  ↔ ∃ r, r ∈ rows f ∧ cell_Gene_name r = gene
                         ∧ cell_Tissue r = Some tissue ∧ cell_nTPM r = Some v)
          ∧ ((∀ r, r ∈ rows f →
                   ¬ (cell_Gene_name r = gene ∧ cell_Tissue r = Some tissue)) →
             value = None).
Proof.
  apply (heatmap_cells (H := example_numpy) 0 example_order.1 example_order.2
           true false example_world (world_of example_world example_heatmap)).
  vm_compute. reflexivity.
Defined.

Lemma heatmap_raises_iff_witness :
  create_heatmap (H := example_numpy) 0 ["liver"; "skin"; "liver"] ∅ true false
    example_world
  = None
  ↔ ¬ NoDup (labels (to_frame example_table))
    ∨ ¬ NoDup (displayed_tissues (to_frame example_table) ["liver"; "skin"; "liver"]).
Proof.
  apply (heatmap_raises_iff (H := example_numpy) 0 (to_frame example_table)).
  reflexivity.
Defined.

Lemma bar_and_box_raise_iff_witness :
  create_bar_chart (H := example_numpy) 0 example_order.1 example_order.2 true
    large_value_world
  = None
  ∧ create_bar_chart (H := example_numpy) 0 example_order.1 example_order.2 false
      large_value_world
    ≠ None
  ∧ create_box_plot (H := example_numpy) 0 ["liver"; "retina"; "retina"] ∅ true
      large_value_world
    = None.
Proof.
  pose proof (bar_and_box_raise_iff (H := example_numpy) 0
                (to_frame large_value_table) example_order.1 example_order.2 true
                large_value_world eq_refl) as (_ & Hlinear & Hlog).
  pose proof (bar_and_box_raise_iff (H := example_numpy) 0
                (to_frame large_value_table) ["liver"; "retina"; "retina"] ∅ true
                large_value_world eq_refl) as (Hbox & _ & _).
  split_and!.
  - apply (Hlog stable_argsort_permutes). right.
    exists (mkCell "ENSG01" "ALB" (Some "liver") (Some 1024%Q)), 1024%Q.
    split_and!; [|done..]. vm_compute. apply elem_of_cons. by left.
  - intros Hnone%Hlinear. apply Hnone. apply (bool_decide_unpack _). by vm_compute.
  - apply Hbox. intros Hnd%(bool_decide_pack _). by vm_compute in Hnd.
Defined.

Lemma bar_and_box_same_series_witness :
  series <$> traces (figure_of example_bar_chart)
  = series <$> traces (figure_of example_box_plot)
  ∧ Forall (λ trace, is_Some (series trace)) (traces (figure_of example_bar_chart))
  ∧ width (layout (figure_of example_bar_chart))
    = width (layout (figure_of example_box_plot))
  ∧ world_of example_world example_bar_chart
    = world_of example_world example_box_plot.
Proof.
  apply (bar_and_box_same_series (H := example_numpy) 0 example_order.1
           example_order.2 ∅ false true example_world).
  - vm_compute. reflexivity.
  - vm_compute. reflexivity.
Defined.

Lemma every_row_is_drawn_witness :
  traces (figure_of example_bar_chart) ≫= points
  ≡ₚ row_point <$> rows (as_categorical (to_frame example_table) example_order.1)
  ∧ (Forall (λ r, ∃ t, cell_Tissue r = Some t ∧ t ∈ example_order.1)
       (rows (to_frame example_table)) →
     traces (figure_of example_bar_chart) ≫= points
     ≡ₚ row_point <$> rows (to_frame example_table))
  ∧ NoDup (series_names (figure_of example_bar_chart))
  ∧ ∀ g, g ∈ series_names (figure_of example_bar_chart)
         ↔ g ∈ cell_Gene_name <$> rows (to_frame example_table).
Proof.
  apply (every_row_is_drawn (H := example_numpy) 0 (to_frame example_table)
           example_order.1 example_order.2 false example_world
           (world_of example_world example_bar_chart)).
  - apply stable_argsort_permutes.
  - reflexivity.
  - left. vm_compute. reflexivity.
Defined.

End ChartFacts.

(** ** More about the two callbacks *)

Module CallbackFacts.
Import DataLoader App Notions PyDictFacts UniqueFacts Resolver Aggregator Charts
  Callback LoaderFacts ResolverFacts AggregatorFacts ChartFacts.

Lemma length_append (a b : string) :
  String.length (a +:+ b) = String.length a + String.length b.
Proof. induction a as [|c a IH]; simpl; [done|]. by rewrite IH. Qed.

Lemma append_cancel_l (p a b : string) : p +:+ a = p +:+ b → a = b.
Proof. induction p as [|c p IH]; simpl; [done|]. intros [= Heq]. by apply IH. Qed.

Lemma append_cancel_r (a b s : string) : a +:+ s = b +:+ s → a = b.
Proof.
  revert b. induction a as [|c a IH]; intros [|c' b]; simpl; intros Heq.
  - done.
  - apply (f_equal String.length) in Heq.
    rewrite ?length_append in Heq. simpl in Heq. rewrite ?length_append in Heq. lia.
  - apply (f_equal String.length) in Heq.
    rewrite ?length_append in Heq. simpl in Heq. rewrite ?length_append in Heq. lia.
  - injection Heq as -> Heq. f_equal. by apply IH.
Qed.

(** The decimal numeral of a number determines it. *)
Lemma format_count_inj (a b : nat) : format_count a = format_count b → a = b.
Proof.
  unfold format_count. intros Heq.
  assert (∀ n, Nat.to_uint n ≠ Decimal.Nil) as Hnonnil.
  { intros n Hnil.
    pose proof (DecimalNat.Unsigned.to_of (Nat.to_uint n)) as Hto.
    rewrite DecimalNat.Unsigned.of_to, Hnil in Hto.
    by apply (DecimalFacts.unorm_nonnil Decimal.Nil). }
  apply (f_equal DecimalString.NilZero.uint_of_string) in Heq.
  rewrite !DecimalString.NilZero.usu in Heq by apply Hnonnil.
  injection Heq as Heq. by apply DecimalNat.Unsigned.to_uint_inj.
Qed.

Section callback.
Context `{Numpy}.
Implicit Types (w : World) (f : Frame).

(** The callback after its two checks of the selection, step by step. *)
Lemma build_visualization_run selected_genes grouping viz_type log_scale w :
  build_visualization selected_genes grouping viz_type log_scale w
  = if bool_decide (get_expression_for_genes selected_genes (expression_data w) = [])
    then Some (no_data_alert, w)
    else
      let f := to_frame (chart_rows w selected_genes grouping log_scale) in
      let tissues := chart_tissues w selected_genes grouping in
      let groups := chart_groups w selected_genes grouping in
      let log := bool_decide (log_scale = "log") in
      if bool_decide (viz_type = "heatmap") then
        fig ← heatmap_figure f tissues groups (bool_decide (grouping = "tissue")) log;
        Some (Graph fig, with_frame w f)
      else if bool_decide (viz_type = "bar") then
        if bool_decide (NoDup tissues) then
          fig ← bar_figure (as_categorical f tissues) groups log;
          Some (Graph fig, with_frame (with_frame w f) (as_categorical f tissues))
        else None
      else if bool_decide (viz_type = "box") then
        if bool_decide (NoDup tissues) then
          Some (Graph (box_figure (as_categorical f tissues) log),
                with_frame (with_frame w f) (as_categorical f tissues))
        else None
      else Some (invalid_type_alert, with_frame w f).
Proof.
  unfold build_visualization, chart_rows, chart_groups, chart_tissues, prepared_rows.
  unfold mbind at 1, M_bind at 1, bind at 1, get_world. simpl.
  destruct (bool_decide (get_expression_for_genes _ _ = [])); [done|].
  destruct (get_ordered_tissues_by_group _ _) as [ordered_tissues tissue_to_group].
  simpl.
  assert (∀ (rows : Table) tissues groups,
    (data ← alloc (to_frame rows);
     if bool_decide (viz_type = "heatmap") then
       fig ← create_heatmap data tissues groups
               (bool_decide (grouping = "tissue")) (bool_decide (log_scale = "log"));
       mret (Graph fig)
     else if bool_decide (viz_type = "bar") then
       fig ← create_bar_chart data tissues groups (bool_decide (log_scale = "log"));
       mret (Graph fig)
     else if bool_decide (viz_type = "box") then
       fig ← create_box_plot data tissues groups (bool_decide (log_scale = "log"));
       mret (Graph fig)
     else mret invalid_type_alert) w
    = (let f := to_frame rows in
       let log := bool_decide (log_scale = "log") in
       if bool_decide (viz_type = "heatmap") then
         fig ← heatmap_figure f tissues groups (bool_decide (grouping = "tissue")) log;
         Some (Graph fig, with_frame w f)
       else if bool_decide (viz_type = "bar") then
         if bool_decide (NoDup tissues) then
           fig ← bar_figure (as_categorical f tissues) groups log;
           Some (Graph fig, with_frame (with_frame w f) (as_categorical f tissues))
         else None
       else if bool_decide (viz_type = "box") then
         if bool_decide (NoDup tissues) then
           Some (Graph (box_figure (as_categorical f tissues) log),
                 with_frame (with_frame w f) (as_categorical f tissues))
         else None
       else Some (invalid_type_alert, with_frame w f))) as Hdraw.
  { intros rows tissues groups.
    unfold mbind at 1, M_bind at 1, bind at 1, alloc. fold (with_frame w (to_frame rows)).
    assert (heap (with_frame w (to_frame rows)) !! length (heap w)
            = Some (to_frame rows)) as Hf by by apply list_lookup_middle.
    cbv zeta.
    destruct (bool_decide (viz_type = "heatmap")).
    { unfold mbind, M_bind, bind. rewrite create_heatmap_run, Hf. simpl.
      by destruct (heatmap_figure _ _ _ _ _). }
    destruct (bool_decide (viz_type = "bar")).
    { unfold mbind, M_bind, bind. rewrite create_bar_chart_run, Hf. simpl.
      destruct (bool_decide (NoDup tissues)); [|done].
      by destruct (bar_figure _ _ _). }
    destruct (bool_decide (viz_type = "box")); [|done].
    unfold mbind, M_bind, bind. rewrite create_box_plot_run, Hf. simpl.
    by destruct (bool_decide (NoDup tissues)). }
  destruct (bool_decide (grouping = "organ")); simpl; apply Hdraw.
Qed.

Lemma no_rows_iff (selected_genes : list string) (table : Table) :
  get_expression_for_genes selected_genes table = []
  ↔ ¬ ∃ g, g ∈ selected_genes ∧ g ∈ genes table.
Proof.
  unfold get_expression_for_genes. split.
  - intros Hnil (g & Hg & (r & Hr & <-)%elem_of_genes).
    assert (r ∈ filter (λ r, Gene_name r ∈ selected_genes) table) as Hin
      by by apply list_elem_of_filter.
    rewrite Hnil in Hin. by apply elem_of_nil in Hin.
  - intros Hnone. apply elem_of_nil_inv. intros r [Hg Hr]%list_elem_of_filter.
    apply Hnone. exists (Gene_name r). split; [done|]. apply elem_of_genes. eauto.
Qed.

Lemma some_rows_iff (selected_genes : list string) (table : Table) :
  get_expression_for_genes selected_genes table ≠ []
  ↔ ∃ g, g ∈ selected_genes ∧ g ∈ genes table.
Proof.
  split.
  - intros Hrows.
    destruct (get_expression_for_genes selected_genes table) as [|r rows] eqn:Heq;
      [done|].
    assert (r ∈ get_expression_for_genes selected_genes table) as Hin
      by (rewrite Heq; apply elem_of_cons; by left).
    apply list_elem_of_filter in Hin as [Hg Hr].
    exists (Gene_name r). split; [done|]. apply elem_of_genes. eauto.
  - intros Hknown Hnil. by apply no_rows_iff in Hnil.
Qed.

(** The five ways the callback can go. *)
Lemma callback_cases (selected_genes : option (list string))
    (grouping viz_type log_scale : string) w :
  let run := update_visualization selected_genes grouping viz_type log_scale w in
  let n := length (selection selected_genes) in
  let known := ∃ g, g ∈ selection selected_genes ∧ g ∈ genes (expression_data w) in
  (n = 0 ∧ run = Some (empty_selection_alert, w))
  ∨ (10 < n ∧ run = Some (selection_too_large_alert, w))
  ∨ (0 < n ≤ 10 ∧ ¬ known ∧ run = Some (no_data_alert, w))
  ∨ (0 < n ≤ 10 ∧ known ∧ ¬ known_chart viz_type
     ∧ ∃ w', run = Some (invalid_type_alert, w'))
  ∨ (0 < n ≤ 10 ∧ known ∧ known_chart viz_type
     ∧ (run = None ∨ ∃ fig w', run = Some (Graph fig, w'))).
Proof.
  intros run n known. subst run n known. unfold update_visualization.
  destruct selected_genes as [[|g genes]|]; [by left|simpl selection|by left].
  case_bool_decide as Hlen; [by right; left|].
  assert (0 < length (g :: genes) ≤ 10) as Hn by (simpl in *; lia).
  rewrite build_visualization_run. case_bool_decide as Hrows.
  { right; right; left. by apply no_rows_iff in Hrows. }
  assert (∃ g0, g0 ∈ g :: genes ∧ g0 ∈ DataLoader.genes (expression_data w)) as Hknown.
  { by apply some_rows_iff. }
  do 3 right. cbv zeta. unfold known_chart.
  case_bool_decide as Hheat.
  { right. split; [lia|]. split; [done|]. split; [rewrite Hheat; apply elem_of_cons; by left|].
    destruct (heatmap_figure _ _ _ _ _); simpl; eauto. }
  case_bool_decide as Hbar.
  { right. split; [lia|]. split; [done|]. split; [rewrite Hbar; do 1 (apply elem_of_cons; right); apply elem_of_cons; by left|].
    case_bool_decide; [|eauto]. destruct (bar_figure _ _ _); simpl; eauto. }
  case_bool_decide as Hbox.
  { right. split; [lia|]. split; [done|]. split; [rewrite Hbox; do 2 (apply elem_of_cons; right); apply elem_of_cons; by left|].
    case_bool_decide; eauto. }
  left. split; [lia|]. split; [done|]. split; [|by eexists].
  rewrite !elem_of_cons, elem_of_nil. tauto.
Qed.

(** X17.  Which answer the chart callback gives is decided in this order:
    the prompt for no selection (none or the empty list), the warning for
    more than ten genes, the no-data warning when no selected name is a
    gene name of the table, the invalid-type alert when the chart type is
    none of heatmap, bar and box; each alert is given in exactly that case.
    So an unknown chart type is reported only for a selection that has
    data, and a selection made from the offered genes never gets the
    no-data warning.  The callback can raise only when a chart is to be
    built. *)
Theorem which_alert (selected_genes : option (list string))
    (grouping viz_type log_scale : string) (w : World) :
  let answer :=
    fst <$> update_visualization selected_genes grouping viz_type log_scale w in
  let n := length (selection selected_genes) in
  let known := ∃ g, g ∈ selection selected_genes ∧ g ∈ genes (expression_data w) in
  (answer = Some empty_selection_alert ↔ n = 0)
  ∧ (answer = Some selection_too_large_alert ↔ 10 < n)
  ∧ (answer = Some no_data_alert ↔ 0 < n ≤ 10 ∧ ¬ known)
  ∧ (answer = Some invalid_type_alert
     ↔ 0 < n ≤ 10 ∧ known ∧ ¬ known_chart viz_type)
  ∧ (answer = None → 0 < n ≤ 10 ∧ known ∧ known_chart viz_type).
Proof.
  intros answer n known. subst answer n known.
  destruct (callback_cases selected_genes grouping viz_type log_scale w)
    as [[Hn ->]|[[Hn ->]|[(Hn & Hk & ->)|[(Hn & Hk & Hv & w' & ->)
         |(Hn & Hk & Hv & [->|(fig & w' & ->)])]]]];
    simpl;
    (split_and!; [split..|]; try done; try discriminate; try lia; try tauto).
Qed.

(** X18.  The counter and the chart callback read the selection alike: the
    counter says that no gene is selected exactly when the chart callback
    prompts for a selection, it shows the red warning exactly when the
    chart callback refuses the selection as too large, and otherwise it
    shows the number of selected genes out of ten.  Selections whose
    counters read the same have the same size. *)
Theorem counter_agrees_with_callback (selected_genes : option (list string))
    (grouping viz_type log_scale : string) (w : World) :
  let answer :=
    fst <$> update_visualization selected_genes grouping viz_type log_scale w in
  let n := length (selection selected_genes) in
  (update_gene_count selected_genes = CountText "No genes selected"
   ↔ answer = Some empty_selection_alert)
  ∧ (update_gene_count selected_genes
     = CountWarning
         ("⚠️ " +:+ format_count n +:+ "/10 genes selected (maximum 10 allowed)")
         "red" "bold"
     ↔ answer = Some selection_too_large_alert)
  ∧ (update_gene_count selected_genes
     = CountText ("✓ " +:+ format_count n +:+ "/10 genes selected")
     ↔ answer ≠ Some empty_selection_alert
       ∧ answer ≠ Some selection_too_large_alert)
  ∧ (∀ other,
       update_gene_count selected_genes = update_gene_count other →
       length (selection other) = n).
Proof.
  intros answer n.
  pose proof (callback_cases selected_genes grouping viz_type log_scale w) as Hcases.
  subst answer n. unfold update_gene_count.
  destruct selected_genes as [[|g genes]|].
  - destruct Hcases as [[_ ->]|Hcases]; [|exfalso; simpl in Hcases;
       destruct Hcases as [[? _]|[(? & _)|[(? & _)|(? & _)]]]; lia].
    simpl. split_and!; [done|split; discriminate|split; [discriminate|tauto]|].
    intros [[|g' genes']|]; [done| |done].
    case_bool_decide; discriminate.
  - cbv zeta. remember (g :: genes) as l eqn:Hl. simpl selection in *.
    assert (0 < length l) as Hpos by (subst l; simpl; lia).
    case_bool_decide as Hlen.
    + destruct Hcases as [[? _]|[[_ ->]|Hcases]]; [lia|
        |exfalso; destruct Hcases as [(? & _)|[(? & _)|(? & _)]]; lia].
      simpl. subst l.
      split_and!; [split; discriminate|done|split; [discriminate|tauto]|].
      intros [[|g' genes']|]; [discriminate| |discriminate].
      case_bool_decide; [|discriminate].
      intros [= Heq%append_cancel_l%append_cancel_r%format_count_inj]. done.
    + assert (fst <$> update_visualization (Some l) grouping viz_type log_scale w
              ≠ Some empty_selection_alert
              ∧ fst <$> update_visualization (Some l) grouping viz_type log_scale w
                ≠ Some selection_too_large_alert) as Hanswer.
      { destruct Hcases as [[? _]|[[? _]|[(_ & _ & ->)|[(_ & _ & _ & w' & ->)
          |(_ & _ & _ & [->|(fig & w' & ->)])]]]]; [lia..| | | |];
          by split. }
      subst l.
      split_and!; [split; [discriminate|tauto]|split; [discriminate|tauto]|done|].
      intros [[|g' genes']|]; [discriminate| |discriminate].
      case_bool_decide; [discriminate|].
      intros [= Heq%append_cancel_l%append_cancel_r%format_count_inj]. done.
  - destruct Hcases as [[_ ->]|Hcases]; [|exfalso; simpl in Hcases;
       destruct Hcases as [[? _]|[(? & _)|[(? & _)|(? & _)]]]; lia].
    simpl. split_and!; [done|split; discriminate|split; [discriminate|tauto]|].
    intros [[|g' genes']|]; [done| |done].
    case_bool_decide; discriminate.
Qed.

(** The labels and the tissues of the frame the callback charts. *)
Lemma chart_rows_labels selected_genes grouping log_scale w :
  (λ r, (Gene_name r, Tissue r)) <$> chart_rows w selected_genes grouping log_scale
  = (λ r, (Gene_name r, Tissue r)) <$> prepared_rows w selected_genes grouping.
Proof.
  unfold chart_rows. case_bool_decide; [|done]. apply log_transform_labels.
Qed.

Lemma chart_rows_tissues selected_genes grouping log_scale w :
  Tissue <$> chart_rows w selected_genes grouping log_scale
  = Tissue <$> prepared_rows w selected_genes grouping.
Proof.
  pose proof (chart_rows_labels selected_genes grouping log_scale w) as Heq.
  apply (f_equal (fmap snd)) in Heq. by rewrite <-!list_fmap_compose in Heq.
Qed.

Lemma chart_rows_names selected_genes grouping log_scale w :
  Gene_name <$> chart_rows w selected_genes grouping log_scale
  = Gene_name <$> prepared_rows w selected_genes grouping.
Proof.
  pose proof (chart_rows_labels selected_genes grouping log_scale w) as Heq.
  apply (f_equal (fmap fst)) in Heq. by rewrite <-!list_fmap_compose in Heq.
Qed.

Lemma to_frame_tissue (data : Table) (t : string) :
  Some t ∈ cell_Tissue <$> rows (to_frame data) ↔ t ∈ Tissue <$> data.
Proof.
  unfold to_frame. simpl. rewrite <-list_fmap_compose, !list_elem_of_fmap.
  split; intros (r & Heq & Hr); exists r; simpl in *; [|by subst].
  by injection Heq as ->.
Qed.

Lemma to_frame_displayed (data : Table) (tissues : list string) :
  displayed_tissues (to_frame data) tissues = filter (λ t, t ∈ Tissue <$> data) tissues.
Proof.
  unfold displayed_tissues. apply list_filter_iff. intros t. apply to_frame_tissue.
Qed.

Lemma to_frame_labels_NoDup (data : Table) :
  NoDup (labels (to_frame data)) ↔ NoDup ((λ r, (Gene_name r, Tissue r)) <$> data).
Proof.
  unfold labels. rewrite to_frame_labels. apply NoDup_fmap.
  intros [a b] [a' b'] [= -> ->]. done.
Qed.

(** The tissue order handed to a builder has no tissue twice exactly when
    the grouping is by organ or the dictionary resolves to no table tissue
    twice. *)
Lemma chart_tissues_NoDup selected_genes grouping w :
  NoDup (chart_tissues w selected_genes grouping)
  ↔ grouping = "organ" ∨ NoDup (resolved (App.tissue_groups w) (expression_data w)).
Proof.
  unfold chart_tissues. case_bool_decide as Hg.
  - split; [by left|]. intros _. rewrite sorted_perm. apply NoDup_unique.
  - rewrite ordered_layout. split.
    + intros [Hnd _]%NoDup_app. by right.
    + intros [?|Hnd]; [done|]. apply NoDup_app. split_and!; [done| |].
      * intros t Ht [Hnot _]%list_elem_of_filter. done.
      * apply NoDup_filter, NoDup_unique.
Qed.

(** The values of the frame of a table. *)
Lemma to_frame_values (data : Table) (v : Q) :
  (∃ r, r ∈ rows (to_frame data) ∧ cell_nTPM r = Some v)
  ↔ ∃ r, r ∈ data ∧ nTPM r = Some v.
Proof.
  unfold to_frame. simpl. split.
  - intros (r & (r0 & -> & Hr0)%list_elem_of_fmap & Hv). by exists r0.
  - intros (r & Hr & Hv). eexists. split; [apply list_elem_of_fmap; eauto|done].
Qed.

(** When the bar chart of the callback raises on the log scale, on a
    tissue order without a tissue twice. *)
Lemma callback_bar_None_iff (data : Table) (tissues : list string)
    (groups : gmap string string) :
  argsort_permutes →
  bar_figure (as_categorical (to_frame data) tissues) groups true = None
  ↔ ∃ r v, r ∈ data ∧ nTPM r = Some v ∧ pow2 v = None.
Proof.
  intros Hperm. rewrite bar_figure_None_iff by done. split.
  - intros (c & v & Hc & Hv & Hp).
    destruct (proj1 (as_categorical_values (to_frame data) tissues v))
      as (c0 & Hc0 & Hv0); [eauto|].
    destruct (proj1 (to_frame_values data v)) as (r & Hr & Hrv); eauto 6.
  - intros (r & v & Hr & Hv & Hp).
    destruct (proj2 (to_frame_values data v)) as (c0 & Hc0 & Hv0); [eauto|].
    destruct (proj2 (as_categorical_values (to_frame data) tissues v))
      as (c & Hc & Hcv); eauto 6.
Qed.

(** X19.  For a selection of one to ten genes of which at least one has
    rows: a box plot raises exactly when the grouping is not by organ and
    the dictionary resolves to one table tissue more than once, and so does
    a bar chart on the linear scale; a bar chart on the log scale raises
    besides when the power of two of a value to chart (the logarithm) is
    too large for a double (provided [argsort] yields a permutation); a
    heatmap raises exactly when two rows to chart have the same gene name
    and tissue (or group), or, not by organ, a tissue that has a row to
    chart is twice in the tissue order; an unknown chart type never
    raises. *)
Theorem callback_raises_iff (selected_genes : list string)
    (grouping viz_type log_scale : string) (w : World) :
  0 < length selected_genes ≤ 10 →
  (∃ g, g ∈ selected_genes ∧ g ∈ genes (expression_data w)) →
  let run := update_visualization (Some selected_genes) grouping viz_type log_scale w in
  let rows := prepared_rows w selected_genes grouping in
  let ordered_tissues :=
    (get_ordered_tissues_by_group (App.tissue_groups w) (expression_data w)).1 in
  let repeated :=
    grouping ≠ "organ"
    ∧ ¬ NoDup (resolved (App.tissue_groups w) (expression_data w)) in
  (viz_type = "box" → run = None ↔ repeated)
  ∧ (viz_type = "bar" → log_scale ≠ "log" → run = None ↔ repeated)
  ∧ (viz_type = "bar" → log_scale = "log" → argsort_permutes →
     run = None
     ↔ repeated
       ∨ ∃ r v, r ∈ chart_rows w selected_genes grouping log_scale
                ∧ nTPM r = Some v ∧ pow2 v = None)
  ∧ (viz_type = "heatmap" →
     run = None
     ↔ ¬ NoDup ((λ r, (Gene_name r, Tissue r)) <$> rows)
       ∨ (grouping ≠ "organ"
          ∧ ¬ NoDup (filter (λ t, t ∈ Tissue <$> rows) ordered_tissues)))
  ∧ (¬ known_chart viz_type → run ≠ None).
Proof.
  intros Hn Hknown run rows0 ordered_tissues repeated.
  subst run rows0 ordered_tissues repeated.
  unfold update_visualization.
  destruct selected_genes as [|g genes]; [simpl in Hn; lia|].
  rewrite bool_decide_eq_false_2 by lia. rewrite build_visualization_run.
  rewrite bool_decide_eq_false_2 by by apply some_rows_iff. cbv zeta.
  set (sel := g :: genes) in *.
  pose proof (chart_tissues_NoDup sel grouping w) as Hnd.
  assert (¬ NoDup (chart_tissues w sel grouping)
          ↔ grouping ≠ "organ"
            ∧ ¬ NoDup (resolved (App.tissue_groups w) (expression_data w)))
    as Hdup.
  { rewrite Hnd. split; [|tauto]. intros Hnot. split; intros ?; apply Hnot; tauto. }
  split_and!.
  - intros ->. simpl. rewrite <-Hdup. by case_bool_decide.
  - intros -> Hlinear. simpl. rewrite <-Hdup.
    rewrite (bool_decide_eq_false_2 (log_scale = "log")) by done.
    case_bool_decide; [|done].
    destruct (proj2 (bar_figure_is_Some_iff
                       (as_categorical (to_frame (chart_rows w sel grouping log_scale))
                          (chart_tissues w sel grouping))
                       (chart_groups w sel grouping) false)) as [fig ->]; [done|].
    by split.
  - intros -> Hlog Hperm. simpl. rewrite <-Hdup.
    rewrite (bool_decide_eq_true_2 (log_scale = "log")) by done.
    rewrite <-(callback_bar_None_iff (chart_rows w sel grouping log_scale)
                 (chart_tissues w sel grouping) (chart_groups w sel grouping) Hperm).
    case_bool_decide as Hnodup.
    + destruct (bar_figure _ _ _); simpl.
      * split; [done|]. by intros [?|?].
      * split; [by right|done].
    + split; [by left|done].
  - intros ->. simpl.
    pose proof (heatmap_figure_is_Some_iff
                  (to_frame (chart_rows w sel grouping log_scale))
                  (chart_tissues w sel grouping) (chart_groups w sel grouping)
                  (bool_decide (grouping = "tissue"))
                  (bool_decide (log_scale = "log"))) as Hsome.
    rewrite to_frame_labels_NoDup, chart_rows_labels, to_frame_displayed,
      chart_rows_tissues in Hsome.
    assert (grouping = "organ" →
            NoDup (filter (λ t, t ∈ Tissue <$> prepared_rows w sel grouping)
                     (chart_tissues w sel grouping))) as Horgan.
    { intros Hg. apply NoDup_filter, chart_tissues_NoDup. by left. }
    assert (grouping ≠ "organ" →
            chart_tissues w sel grouping
            = (get_ordered_tissues_by_group (App.tissue_groups w)
                 (expression_data w)).1) as Htissue.
    { intros Hg. unfold chart_tissues. by rewrite bool_decide_eq_false_2. }
    destruct (decide (grouping = "organ")) as [Hg|Hg].
    + specialize (Horgan Hg).
      destruct (heatmap_figure _ _ _ _ _) as [fig|]; simpl.
      * split; [done|]. destruct Hsome as [[Hl _] _]; [by eexists|]. tauto.
      * split; [|done]. intros _. left. intros Hl.
        by destruct (proj2 Hsome (conj Hl Horgan)).
    + rewrite (Htissue Hg) in Hsome |- *.
      destruct (heatmap_figure _ _ _ _ _) as [fig|]; simpl.
      * split; [done|]. destruct Hsome as [[Hl Hd] _]; [by eexists|]. tauto.
      * split; [|done]. intros _.
        destruct (decide (NoDup ((λ r, (Gene_name r, Tissue r))
                                   <$> prepared_rows w sel grouping)))
          as [Hl|Hl]; [|by left].
        right. split; [done|]. intros Hd.
        by destruct (proj2 Hsome (conj Hl Hd)).
  - unfold known_chart. rewrite !elem_of_cons, elem_of_nil. intros Hviz.
    rewrite !bool_decide_eq_false_2 by tauto. done.
Qed.

Lemma filter_ext_elem {A} (P Q : A → Prop) `{∀ x, Decision (P x)}
    `{∀ x, Decision (Q x)} (l : list A) :
  (∀ x, x ∈ l → P x ↔ Q x) → filter P l = filter Q l.
Proof.
  induction l as [|x l IH]; [done|]. intros Hext.
  rewrite !filter_cons.
  rewrite IH by (intros y Hy; apply Hext, elem_of_cons; by right).
  destruct (decide (P x)) as [HP|HP], (decide (Q x)) as [HQ|HQ]; try done;
    destruct (Hext x); try (apply elem_of_cons; by left); tauto.
Qed.

Lemma filter_all {A} (P : A → Prop) `{∀ x, Decision (P x)} (l : list A) :
  (∀ x, x ∈ l → P x) → filter P l = l.
Proof.
  induction l as [|x l IH]; [done|]. intros HP.
  rewrite filter_cons_True by (apply HP, elem_of_cons; by left).
  f_equal. apply IH. intros y Hy. apply HP, elem_of_cons. by right.
Qed.

(** The rows of the aggregated table, by their keys. *)
Lemma aggregate_rows_key (tissue_to_group : gmap string string) (data : Table)
    (k : string * string * string) :
  k ∈ group_key tissue_to_group <$> data
  ↔ ∃ a, a ∈ aggregate_rows tissue_to_group data ∧ output_key a = k.
Proof.
  rewrite <-(elem_of_unique (group_key tissue_to_group <$> data)).
  rewrite <-(sorted_perm key_leb (unique _)). fold (sort_keys (unique
    (group_key tissue_to_group <$> data))).
  rewrite <-output_keys, list_elem_of_fmap. split; intros (a & ? & ?); eauto.
Qed.

(** The frame row of a table row after the change of scale. *)
Lemma chart_rows_frame selected_genes grouping log_scale w (c : FrameRow) :
  c ∈ rows (to_frame (chart_rows w selected_genes grouping log_scale))
  ↔ ∃ a, a ∈ prepared_rows w selected_genes grouping
         ∧ c = mkCell (Gene a) (Gene_name a) (Some (Tissue a))
                 (on_scale log_scale (nTPM a)).
Proof.
  unfold to_frame, chart_rows, on_scale, log_transform. simpl.
  case_bool_decide; rewrite ?list_elem_of_fmap.
  - split.
    + intros (r & -> & (a & -> & Ha)%list_elem_of_fmap). by exists a.
    + intros (a & Ha & ->). eexists. split; [|apply list_elem_of_fmap; eauto]. done.
  - split; intros (a & ? & ?); eauto.
Qed.

(** A cell of the heatmap by organ: the mean, on the scale of the chart, of
    the selected rows of the gene name in the group. *)
Lemma organ_cell selected_genes log_scale w (gene group : string) :
  let mapping :=
    get_tissue_to_group_mapping (App.tissue_groups w) (expression_data w) in
  let selected := get_expression_for_genes selected_genes (expression_data w) in
  let f := to_frame (chart_rows w selected_genes "organ" log_scale) in
  NoDup (labels f) →
  pivot_cell f gene group
  = on_scale log_scale
      (mean (nTPM <$> filter (λ r, Gene_name r = gene ∧ organ_group mapping r = group)
                        selected)).
Proof.
  intros mapping selected f Hnd.
  assert (prepared_rows w selected_genes "organ" = aggregate_rows mapping selected)
    as Hprepared by done.
  destruct (filter (λ r, Gene_name r = gene ∧ organ_group mapping r = group) selected)
    as [|x xs] eqn:Hfilter.
  - assert (on_scale log_scale (mean (nTPM <$> [])) = None) as ->
      by (unfold on_scale; by case_bool_decide).
    apply pivot_cell_None. intros c (a & Ha & ->)%chart_rows_frame [Hg Ht].
    simpl in Hg, Ht. injection Ht as Ht. rewrite Hprepared in Ha.
    assert (output_key a ∈ group_key mapping <$> selected) as Hkey
      by (apply aggregate_rows_key; eauto).
    apply list_elem_of_fmap in Hkey as (r & Hr & Hin).
    assert (r ∈ filter (λ r, Gene_name r = gene ∧ organ_group mapping r = group)
                  selected) as Hmem.
    { apply list_elem_of_filter. split; [|done].
      unfold output_key, group_key in Hr. injection Hr as _ <- <-. done. }
    rewrite Hfilter in Hmem. by apply elem_of_nil in Hmem.
  - rewrite <-Hfilter.
    assert (x ∈ filter (λ r, Gene_name r = gene ∧ organ_group mapping r = group)
                  selected) as Hx by (rewrite Hfilter; apply elem_of_cons; by left).
    apply list_elem_of_filter in Hx as [[Hxg Hxt] Hx].
    assert (∃ a, a ∈ aggregate_rows mapping selected
                 ∧ output_key a = group_key mapping x) as (a & Ha & Hka).
    { apply aggregate_rows_key, list_elem_of_fmap. eauto. }
    set (c := mkCell (Gene a) (Gene_name a) (Some (Tissue a))
                (on_scale log_scale (nTPM a))).
    assert (c ∈ rows f) as Hc by (apply chart_rows_frame; rewrite Hprepared; eauto).
    unfold output_key, group_key in Hka. injection Hka as Hka1 Hka2 Hka3.
    assert (pivot_cell f gene group = cell_nTPM c) as ->.
    { unfold pivot_cell.
      destruct (list_find (λ r, cell_Gene_name r = gene ∧ cell_Tissue r = Some group)
                  (rows f)) as [[i c']|] eqn:Hfind.
      - simpl. apply list_find_Some in Hfind as (Hi & [Hg' Ht'] & _).
        assert (c' = c) as ->; [|done].
        apply (NoDup_fmap_eq (λ r, (cell_Gene_name r, cell_Tissue r)) (rows f));
          [done|by eapply list_elem_of_lookup_2|done|].
        simpl. rewrite Hg', Ht'. congruence.
      - apply list_find_None in Hfind. rewrite Forall_forall in Hfind.
        destruct (Hfind c Hc). simpl. split; congruence. }
    simpl. f_equal.
    destruct (elem_of_aggregate_rows mapping selected a Ha) as [_ ->].
    do 2 f_equal. apply filter_ext_elem. intros y Hy.
    unfold output_key, group_key. split.
    + intros [= ? ? ?]. split; congruence.
    + intros [Hyg Hyt].
      assert (∃ a', a' ∈ aggregate_rows mapping selected
                    ∧ output_key a' = group_key mapping y) as (a' & Ha' & Hka').
      { apply aggregate_rows_key, list_elem_of_fmap. eauto. }
      unfold output_key, group_key in Hka'. injection Hka' as Hk1 Hk2 Hk3.
      set (c' := mkCell (Gene a') (Gene_name a') (Some (Tissue a'))
                   (on_scale log_scale (nTPM a'))).
      assert (c' ∈ rows f) as Hc'
        by (apply chart_rows_frame; rewrite Hprepared; eauto).
      assert (c' = c) as Heq.
      { apply (NoDup_fmap_eq (λ r, (cell_Gene_name r, cell_Tissue r)) (rows f));
          [done..|]. simpl. congruence. }
      apply (f_equal cell_Gene) in Heq. simpl in Heq. congruence.
Qed.

(** X20.  A heatmap by organ that the callback returns has one column for
    each organ group that a selected row falls in ("Other" for a tissue the
    mapping does not have), in increasing order and each once, one row for
    each selected gene name that the table has, in increasing order, and no
    group separators.  Each cell is the mean of the values of the selected
    rows of its gene name in its group, missing when there is no such row
    or none with a value, and on the log scale the logarithm of that mean
    plus one. *)
Theorem organ_heatmap (selected_genes : list string) (log_scale : string)
    (w w' : World) (fig : Figure) :
  update_visualization (Some selected_genes) "organ" "heatmap" log_scale w
  = Some (Graph fig, w') →
  let mapping :=
    get_tissue_to_group_mapping (App.tissue_groups w) (expression_data w) in
  let selected := get_expression_for_genes selected_genes (expression_data w) in
  ∃ z x y customdata colorbar_title,
    traces fig = [Heatmap z x y customdata colorbar_title]
    ∧ vlines fig = []
    ∧ StronglySorted (λ a b, String.leb a b = true) x ∧ NoDup x
    ∧ (∀ group, group ∈ x ↔ ∃ r, r ∈ selected ∧ organ_group mapping r = group)
    ∧ StronglySorted (λ a b, String.leb a b = true) y ∧ NoDup y
    ∧ (∀ gene, gene ∈ y
               ↔ gene ∈ selected_genes ∧ gene ∈ genes (expression_data w))
    ∧ ∀ i j gene group,
        y !! i = Some gene → x !! j = Some group →
        z !! i ≫= (.!! j)
        = Some (on_scale log_scale
                  (mean (nTPM <$> filter (λ r, Gene_name r = gene
                                               ∧ organ_group mapping r = group)
                                    selected))).
Proof.
  intros Hrun mapping selected. unfold update_visualization in Hrun.
  destruct selected_genes as [|g genes]; [done|].
  destruct (bool_decide (10 < length (g :: genes))); [done|].
  rewrite build_visualization_run in Hrun.
  destruct (bool_decide (get_expression_for_genes _ _ = [])); [done|].
  cbv zeta in Hrun. set (sel := g :: genes) in *.
  rewrite (bool_decide_eq_true_2 ("heatmap" = "heatmap")) in Hrun by done.
  destruct (heatmap_figure _ _ _ _ _) as [fig'|] eqn:Hfig; [|done].
  simpl in Hrun. injection Hrun as -> _.
  apply heatmap_figure_Some in Hfig as (Hnd & hover_text & Hhover & ->).
  assert (prepared_rows w sel "organ" = aggregate_rows mapping selected)
    as Hprepared by done.
  assert (∀ group, group ∈ Tissue <$> aggregate_rows mapping selected
                   ↔ ∃ r, r ∈ selected ∧ organ_group mapping r = group) as Hgroups.
  { intros group. rewrite list_elem_of_fmap. split.
    - intros (a & -> & Ha).
      assert (output_key a ∈ group_key mapping <$> selected) as Hkey
        by (apply aggregate_rows_key; eauto).
      apply list_elem_of_fmap in Hkey as (r & Hr & Hin).
      exists r. split; [done|]. unfold output_key, group_key in Hr. congruence.
    - intros (r & Hr & <-).
      assert (∃ a, a ∈ aggregate_rows mapping selected
                   ∧ output_key a = group_key mapping r) as (a & Ha & Hka).
      { apply aggregate_rows_key, list_elem_of_fmap. eauto. }
      exists a. split; [|done]. unfold output_key, group_key in Hka. congruence. }
  assert (∀ gene, gene ∈ Gene_name <$> aggregate_rows mapping selected
                  ↔ gene ∈ sel ∧ gene ∈ DataLoader.genes (expression_data w))
    as Hnames.
  { intros gene. rewrite list_elem_of_fmap, elem_of_genes. split.
    - intros (a & -> & Ha).
      assert (output_key a ∈ group_key mapping <$> selected) as Hkey
        by (apply aggregate_rows_key; eauto).
      apply list_elem_of_fmap in Hkey as (r & Hr & Hin).
      apply list_elem_of_filter in Hin as [Hsel Hin].
      unfold output_key, group_key in Hr. injection Hr as _ Hr _.
      rewrite Hr. eauto.
    - intros (Hsel & r & Hr & <-).
      assert (r ∈ selected) as Hin by by apply list_elem_of_filter.
      assert (∃ a, a ∈ aggregate_rows mapping selected
                   ∧ output_key a = group_key mapping r) as (a & Ha & Hka).
      { apply aggregate_rows_key, list_elem_of_fmap. eauto. }
      exists a. split; [|done]. unfold output_key, group_key in Hka. congruence. }
  assert (displayed_tissues (to_frame (chart_rows w sel "organ" log_scale))
            (chart_tissues w sel "organ")
          = Py.sorted String.leb (unique (Tissue <$> aggregate_rows mapping selected)))
    as Hcolumns.
  { rewrite to_frame_displayed, chart_rows_tissues, Hprepared.
    unfold chart_tissues. rewrite bool_decide_eq_true_2 by done. rewrite Hprepared.
    apply filter_all. intros t. by rewrite sorted_perm, elem_of_unique. }
  assert (cell_Gene_name <$> rows (to_frame (chart_rows w sel "organ" log_scale))
          = Gene_name <$> aggregate_rows mapping selected) as Hindex.
  { rewrite <-Hprepared, <-(chart_rows_names sel "organ" log_scale w).
    unfold to_frame. simpl. by rewrite <-list_fmap_compose. }
  cbv zeta. rewrite Hcolumns, Hindex. do 5 eexists.
  split; [reflexivity|]. split_and!.
  - done.
  - apply SortFacts.sorted_StronglySorted;
      [apply SortFacts.string_leb_total|apply SortFacts.string_leb_trans].
  - rewrite sorted_perm. apply NoDup_unique.
  - intros group. by rewrite sorted_perm, elem_of_unique.
  - apply SortFacts.sorted_StronglySorted;
      [apply SortFacts.string_leb_total|apply SortFacts.string_leb_trans].
  - rewrite sorted_perm. apply NoDup_unique.
  - intros gene. by rewrite sorted_perm, elem_of_unique.
  - intros i j gene group Hi Hj.
    rewrite list_lookup_fmap, Hi. simpl. rewrite list_lookup_fmap, Hj. simpl.
    f_equal. by apply organ_cell.
Qed.

End callback.

Lemma callback_raises_iff_witness :
  update_visualization (H := example_numpy) (Some ["ALB"]) "tissue" "bar" "linear"
    twice_listed_world
  = None
  ∧ update_visualization (H := example_numpy) (Some ["ALB"]) "organ" "bar" "log"
      twice_listed_world
    ≠ None.
Proof.
  assert (0 < length ["ALB"] ≤ 10) as Hn by (simpl; lia).
  assert (∃ g, g ∈ ["ALB"] ∧ g ∈ genes (expression_data twice_listed_world))
    as Hknown.
  { exists "ALB". split; apply (bool_decide_unpack _); vm_compute; exact I. }
  split.
  - apply (proj1 (proj2 (callback_raises_iff (H := example_numpy) ["ALB"] "tissue"
                           "bar" "linear" twice_listed_world Hn Hknown))
             eq_refl ltac:(done)).
    split; [done|]. intros Hnd%(bool_decide_pack _). by vm_compute in Hnd.
  - intros Hnone.
    apply (proj1 (proj2 (proj2 (callback_raises_iff (H := example_numpy) ["ALB"]
                                  "organ" "bar" "log" twice_listed_world Hn Hknown)))
             eq_refl eq_refl ChartFacts.stable_argsort_permutes) in Hnone.
    destruct Hnone as [[Hne _]|(r & v & Hr & Hv & Hp)]; [done|].
    vm_compute in Hr.
    repeat (apply elem_of_cons in Hr as [->|Hr]);
      [..|by apply elem_of_nil in Hr];
      simpl in Hv; first [done|injection Hv as <-; by vm_compute in Hp].
Defined.

Lemma organ_heatmap_witness :
  ∃ z x y customdata colorbar_title,
    traces (heatmap_by_organ.1) = [Heatmap z x y customdata colorbar_title]
    ∧ z !! 0 ≫= (.!! 0)
      = Some (on_scale (H := example_numpy) "linear"
                (mean (H := example_numpy) (nTPM <$> filter
                         (λ r, Gene_name r = "ALB"
                               ∧ organ_group
                                   (get_tissue_to_group_mapping example_groups
                                      example_table) r = "Brain")
                         (get_expression_for_genes ["ALB"; "GFAP"] example_table)))).
Proof.
  destruct (organ_heatmap (H := example_numpy) ["ALB"; "GFAP"] "linear"
              example_world heatmap_by_organ.2 heatmap_by_organ.1 eq_refl)
    as (z & x & y & customdata & colorbar_title & Htraces & _ & _ & _ & _ & _ & _
        & _ & Hcell).
  exists z, x, y, customdata, colorbar_title. split; [done|].
  apply Hcell.
  - injection Htraces as _ _ <- _ _. reflexivity.
  - injection Htraces as _ <- _ _ _. reflexivity.
Defined.

End CallbackFacts.

(** ** The loader object *)

Module LoaderObjectFacts.
Import DataLoader Notions LoaderObject.

Ltac loader_cases self files :=
  destruct self as [[?|] [?|] ?], files as [[?|] [?|]];
  unfold LoaderObject.get_ordered_tissues_by_group,
    LoaderObject.aggregate_by_organ_group,
    LoaderObject.get_tissue_to_group_mapping,
    LoaderObject.get_expression_for_genes,
    need_tissue_groups, need_expression_data,
    LoaderObject.load_histology_dictionary, load_expression_data;
  simpl.

Section loader.
Context `{Numpy}.

(** A call keeps the fields in line with the files. *)
Lemma call_reflects_files (files : Files) (self self' : loader) :
  reflects_files files self → call files self self' → reflects_files files self'.
Proof.
  unfold reflects_files. intros (Htable & Hgenes & Hgroups) Hcall.
  destruct Hcall; loader_cases self files; simpl in *;
    (split_and!;
     [intros ? [= <-]; eauto; by (apply Htable)
     |done
     |intros ? [= <-]; eauto; by (apply Hgroups)]).
Qed.

Lemma reachable_reflects_files (files : Files) (self : loader) :
  rtc (call files) init self → reflects_files files self.
Proof.
  revert self. apply (rtc_ind_r (reflects_files files)).
  - unfold reflects_files, init. simpl. by split_and!.
  - intros mid self _ Hcall IH. by eapply call_reflects_files.
Qed.

(** X21.  With both files readable, the data file as a table: whatever
    methods of a new loader were called before, with whatever arguments,
    the fields hold what the files hold or nothing, [genes] is the sorted
    gene list of the loaded table, and each of the four query methods
    returns what it returns on the contents of the files, so a result does
    not depend on what was called before; the three that need the
    dictionary leave both files loaded, and [get_expression_for_genes]
    never loads the dictionary. *)
Theorem results_independent_of_history (files : Files) (self : loader)
    (table : Table) (text : string) (gene_names : list string) (data : Table) :
  data_file files = Some table → histology_file files = Some text →
  rtc (call files) init self →
  let groups := DataLoader.load_histology_dictionary text in
  let loaded :=
    {| expression_data := Some table;
       tissue_groups := Some groups;
       genes := Some (DataLoader.genes table) |} in
  reflects_files files self
  ∧ LoaderObject.get_tissue_to_group_mapping files self
    = (Some (DataLoader.get_tissue_to_group_mapping groups table), loaded)
  ∧ LoaderObject.get_ordered_tissues_by_group files self
    = (Some (DataLoader.get_ordered_tissues_by_group groups table), loaded)
  ∧ LoaderObject.aggregate_by_organ_group files data self
    = (Some (DataLoader.aggregate_by_organ_group groups table data), loaded)
  ∧ (LoaderObject.get_expression_for_genes files gene_names self).1
    = Some (DataLoader.get_expression_for_genes gene_names table)
  ∧ tissue_groups (LoaderObject.get_expression_for_genes files gene_names self).2
    = tissue_groups self.
Proof.
  intros Hdata Hhistology Hreflects%reachable_reflects_files groups loaded.
  split; [done|]. subst groups loaded.
  destruct Hreflects as (Htable & Hgenes & Hgroups).
  destruct self as [t g gs]. simpl in *. subst gs.
  assert (t = None ∨ t = Some table) as Ht.
  { destruct t as [t|]; [right|by left].
    specialize (Htable t eq_refl). congruence. }
  assert (g = None ∨ g = Some (DataLoader.load_histology_dictionary text)) as Hg.
  { destruct g as [g|]; [right|by left].
    destruct (Hgroups g eq_refl) as (text' & Htext & ->). congruence. }
  unfold LoaderObject.get_ordered_tissues_by_group,
    LoaderObject.aggregate_by_organ_group,
    LoaderObject.get_tissue_to_group_mapping,
    LoaderObject.get_expression_for_genes,
    need_tissue_groups, need_expression_data,
    LoaderObject.load_histology_dictionary, load_expression_data.
  rewrite Hdata, Hhistology.
  destruct Ht as [-> | ->], Hg as [-> | ->]; simpl; by split_and!.
Qed.

(** X22.  After the start-up of the application (the table is loaded, then
    the dictionary, both readable) the files are not read again: whatever
    becomes of the files, each query method returns what it returns on the
    contents read at start-up, it cannot raise, and it leaves the loader as
    it is; the gene list offered by the selector is the sorted gene list of
    the table read at start-up. *)
Theorem startup_caches_files (files files' : Files) (table : Table) (text : string)
    (gene_names : list string) (data : Table) :
  data_file files = Some table → histology_file files = Some text →
  let groups := DataLoader.load_histology_dictionary text in
  let self := after_startup files in
  genes self = Some (DataLoader.genes table)
  ∧ LoaderObject.get_tissue_to_group_mapping files' self
    = (Some (DataLoader.get_tissue_to_group_mapping groups table), self)
  ∧ LoaderObject.get_expression_for_genes files' gene_names self
    = (Some (DataLoader.get_expression_for_genes gene_names table), self)
  ∧ LoaderObject.get_ordered_tissues_by_group files' self
    = (Some (DataLoader.get_ordered_tissues_by_group groups table), self)
  ∧ LoaderObject.aggregate_by_organ_group files' data self
    = (Some (DataLoader.aggregate_by_organ_group groups table data), self).
Proof.
  intros Hdata Hhistology groups self. subst groups self.
  unfold after_startup, LoaderObject.get_ordered_tissues_by_group,
    LoaderObject.aggregate_by_organ_group,
    LoaderObject.get_tissue_to_group_mapping,
    LoaderObject.get_expression_for_genes,
    need_tissue_groups, need_expression_data,
    LoaderObject.load_histology_dictionary, load_expression_data.
  rewrite Hdata, Hhistology. simpl. by split_and!.
Qed.

End loader.

Lemma results_independent_of_history_witness :
  LoaderObject.get_ordered_tissues_by_group example_files
    (LoaderObject.get_expression_for_genes example_files ["ALB"] init).2
  = (Some (DataLoader.get_ordered_tissues_by_group
             (DataLoader.load_histology_dictionary
                ("# Liver" +:+ String Text.LF "liver" +:+ String Text.LF "# Brain"
                 +:+ String Text.LF "cortex" +:+ String Text.LF "cerebellum"))
             example_table),
     {| expression_data := Some example_table;
        tissue_groups :=
          Some (DataLoader.load_histology_dictionary
                  ("# Liver" +:+ String Text.LF "liver" +:+ String Text.LF "# Brain"
                   +:+ String Text.LF "cortex" +:+ String Text.LF "cerebellum"));
        genes := Some (DataLoader.genes example_table) |}).
Proof.
  refine (proj1 (proj2 (proj2 (results_independent_of_history (H := example_numpy)
                   example_files
                   (LoaderObject.get_expression_for_genes example_files ["ALB"]
                      init).2 example_table _ [] [] eq_refl eq_refl _)))).
  apply rtc_once, call_get_expression_for_genes.
Defined.

Lemma startup_caches_files_witness :
  LoaderObject.get_expression_for_genes unreadable_files ["GFAP"]
    (after_startup example_files)
  = (Some (DataLoader.get_expression_for_genes ["GFAP"] example_table),
     after_startup example_files).
Proof.
  exact (proj1 (proj2 (proj2 (startup_caches_files (H := example_numpy)
                  example_files unreadable_files
                  example_table _ ["GFAP"] [] eq_refl eq_refl)))).
Defined.

End LoaderObjectFacts.

(** ** The order of the points of a series *)

Module SeriesFacts.
Import DataLoader App Notions Charts.

Lemma StronglySorted_filter {A} (R : relation A) (P : A → Prop)
    `{∀ x, Decision (P x)} (l : list A) :
  StronglySorted R l → StronglySorted R (filter P l).
Proof.
  induction 1 as [|x l Hl IH Hx]; [constructor|].
  rewrite filter_cons. destruct (decide (P x)); [|done].
  constructor; [done|]. rewrite Forall_forall in Hx. apply Forall_forall.
  intros y [_ Hy]%list_elem_of_filter. by apply Hx.
Qed.

Lemma fmap_constant {A B} (g : A → B) (c : B) (l : list A) :
  (∀ x, x ∈ l → g x = c) → g <$> l = replicate (length l) c.
Proof.
  induction l as [|x l IH]; [done|]. intros Hc.
  rewrite fmap_cons, Hc by (apply elem_of_cons; by left). simpl.
  f_equal. apply IH. intros y Hy. apply Hc, elem_of_cons. by right.
Qed.

(** The rows picked at sorted positions are sorted by their codes. *)
Lemma picked_rows_sorted {A} (code : A → nat) (l : list A) (positions : list nat) :
  StronglySorted (λ i j, default 0 ((code <$> l) !! i) ≤ default 0 ((code <$> l) !! j))
    positions →
  StronglySorted (λ a b, code a ≤ code b) (omap (λ i, l !! i) positions).
Proof.
  induction 1 as [|i positions Hsorted IH Hi]; [constructor|].
  simpl. destruct (l !! i) as [a|] eqn:Ha; [|done].
  constructor; [done|]. rewrite Forall_forall in Hi. apply Forall_forall.
  intros b (j & Hj & Hb)%list_elem_of_omap.
  specialize (Hi j Hj). by rewrite !list_lookup_fmap, Ha, Hb in Hi.
Qed.

Section series.
Context `{Numpy}.

(** The tissues of the rows of a sorted frame that a filter keeps: the
    tissues of the categories in the order of their codes, then the missing
    ones. *)
Lemma sorted_frame_tissues (f : Frame) (cats : list string) (P : FrameRow → Prop)
    `{∀ r, Decision (P r)} :
  argsort_sorts →
  ∃ tissues missing,
    cell_Tissue <$> filter P (sort_values_tissue (as_categorical f cats))
    = (Some <$> tissues) ++ replicate missing None
    ∧ Forall (λ t, t ∈ cats) tissues
    ∧ StronglySorted (λ a b, tissue_code cats a ≤ tissue_code cats b) tissues.
Proof.
  intros Hsorts. unfold sort_values_tissue.
  change (categories (as_categorical f cats)) with (Some cats). cbn [default].
  set (valued := filter (λ r, is_Some (cell_Tissue r)) (rows (as_categorical f cats))).
  set (missing := filter (λ r, cell_Tissue r = None) (rows (as_categorical f cats))).
  set (code := λ r : FrameRow, tissue_code cats (default "" (cell_Tissue r))).
  set (picked := omap (λ i, valued !! i) (argsort (code <$> valued))).
  assert (∀ r, r ∈ picked → ∃ t, cell_Tissue r = Some t ∧ t ∈ cats) as Hpicked.
  { intros r (i & _ & Hr%list_elem_of_lookup_2)%list_elem_of_omap.
    apply list_elem_of_filter in Hr as [[t Ht] Hr]. exists t. split; [done|].
    unfold as_categorical in Hr. simpl in Hr.
    apply list_elem_of_fmap in Hr as (r0 & -> & _). simpl in Ht.
    destruct (cell_Tissue r0) as [t0|]; simpl in Ht; [|done].
    destruct (bool_decide_reflect (t0 ∈ cats)); [|done]. by injection Ht as <-. }
  rewrite filter_app, fmap_app.
  exists ((λ r, default "" (cell_Tissue r)) <$> filter P picked),
    (length (filter P missing)).
  split_and!.
  - f_equal.
    + rewrite <-list_fmap_compose. apply list_fmap_ext.
      intros i r [_ Hr]%list_elem_of_lookup_2%list_elem_of_filter.
      destruct (Hpicked r Hr) as (t & Ht & _). simpl. by rewrite Ht.
    + apply fmap_constant. intros r [_ Hr]%list_elem_of_filter.
      by apply list_elem_of_filter in Hr as [Hr _].
  - apply Forall_fmap, Forall_forall. intros r [_ Hr]%list_elem_of_filter.
    destruct (Hpicked r Hr) as (t & Ht & Hin). simpl. by rewrite Ht.
  - apply (StronglySorted_fmap _ (λ a b, code a ≤ code b)); [done|].
    apply StronglySorted_filter, picked_rows_sorted, Hsorts.
Qed.

Lemma tissue_code_lookup (cats : list string) (t : string) :
  t ∈ cats → cats !! tissue_code cats t = Some t.
Proof.
  intros Ht. unfold tissue_code.
  destruct (list_find (λ c, c = t) cats) as [[i c]|] eqn:Hfind.
  - apply list_find_Some in Hfind as (Hi & -> & _). done.
  - apply list_find_None in Hfind. rewrite Forall_forall in Hfind.
    by destruct (Hfind t Ht).
Qed.

(** X24.  Provided argsort yields positions in an order in which the codes
    do not decrease: in every series of a bar chart or a box plot that is
    built, the points come in the order of the tissue list handed to the
    builder (the position of a tissue in that list does not decrease along
    the series), and the points of rows whose tissue is not in the list come
    last, without a tissue. *)
Theorem series_follow_tissue_order (data : nat) (f : Frame)
    (ordered_tissues : list string) (tissue_to_group : gmap string string)
    (log_scale : bool) (w w' : World) (fig : Figure) :
  argsort_sorts →
  heap w !! data = Some f →
  create_bar_chart data ordered_tissues tissue_to_group log_scale w = Some (fig, w')
  ∨ create_box_plot data ordered_tissues tissue_to_group log_scale w = Some (fig, w') →
  (∀ t, t ∈ ordered_tissues →
        ordered_tissues !! tissue_code ordered_tissues t = Some t)
  ∧ ∀ trace, trace ∈ traces fig →
      ∃ name tissues missing y,
        series trace = Some (name, (Some <$> tissues) ++ replicate missing None, y)
        ∧ Forall (λ t, t ∈ ordered_tissues) tissues
        ∧ StronglySorted
            (λ a b, tissue_code ordered_tissues a ≤ tissue_code ordered_tissues b)
            tissues.
Proof.
  intros Hsorts Hf Hrun. split; [apply tissue_code_lookup|].
  rewrite create_bar_chart_run, create_box_plot_run, Hf in Hrun. simpl in Hrun.
  destruct (bool_decide (NoDup ordered_tissues)); [|by destruct Hrun].
  assert (∀ box, box ∈ traces (box_figure (as_categorical f ordered_tissues) log_scale) →
            ∃ name tissues missing y,
              series box = Some (name, (Some <$> tissues) ++ replicate missing None, y)
              ∧ Forall (λ t, t ∈ ordered_tissues) tissues
              ∧ StronglySorted
                  (λ a b, tissue_code ordered_tissues a ≤ tissue_code ordered_tissues b)
                  tissues) as Hbox.
  { intros box Hin. unfold box_figure in Hin. cbn [traces] in Hin.
    apply list_elem_of_fmap in Hin as (gene & -> & _).
    destruct (sorted_frame_tissues f ordered_tissues
                (λ r, cell_Gene_name r = gene) Hsorts)
      as (tissues & missing & Heq & Hin & Hsorted).
    exists gene, tissues, missing. eexists. split; [|done].
    simpl. by rewrite Heq. }
  intros trace Htrace. destruct Hrun as [Hbar|[= <- _]]; [|by apply Hbox].
  destruct (bar_figure _ _ _) as [bar|] eqn:Hfig; simpl in Hbar; [|done].
  injection Hbar as -> _.
  apply ChartFacts.bar_figure_Some in Hfig as (Hsame & _).
  apply list_elem_of_lookup in Htrace as [i Hi].
  destruct (Forall2_lookup_l _ _ _ _ _ Hsame Hi)
    as (box & Hbox' & name & x & y & hover_text & -> & ->).
  apply list_elem_of_lookup_2 in Hbox'. by apply Hbox in Hbox'.
Qed.

End series.

Lemma insert_index_sorted (codes : list nat) (i : nat) (l : list nat) :
  StronglySorted (λ i j, default 0 (codes !! i) ≤ default 0 (codes !! j)) l →
  StronglySorted (λ i j, default 0 (codes !! i) ≤ default 0 (codes !! j))
    (insert_index codes i l).
Proof.
  induction l as [|j l IH]; simpl; intros Hsorted.
  - by repeat constructor.
  - apply StronglySorted_cons in Hsorted as [Hj Hsorted].
    destruct (default 0 (codes !! j) <=? default 0 (codes !! i)) eqn:Hle.
    + apply Nat.leb_le in Hle. constructor; [by apply IH|].
      rewrite ChartFacts.insert_index_perm. by constructor.
    + apply Nat.leb_gt in Hle. constructor; [by constructor|].
      constructor; [lia|]. eapply Forall_impl; [exact Hj|].
      intros k Hk. simpl in Hk. lia.
Qed.

Lemma stable_argsort_sorts : argsort_sorts (H := example_numpy).
Proof.
  intros codes. simpl. unfold stable_argsort.
  assert (∀ l acc,
            StronglySorted (λ i j, default 0 (codes !! i) ≤ default 0 (codes !! j)) acc →
            StronglySorted (λ i j, default 0 (codes !! i) ≤ default 0 (codes !! j))
              (foldl (λ acc i, insert_index codes i acc) acc l)) as Hfold.
  { induction l as [|i l IH]; intros acc Hacc; [done|].
    simpl. by apply IH, insert_index_sorted. }
  apply Hfold. constructor.
Qed.

Lemma series_follow_tissue_order_witness :
  Forall
    (λ trace,
       ∃ name tissues missing y,
         series trace = Some (name, (Some <$> tissues) ++ replicate missing None, y)
         ∧ Forall (λ t, t ∈ example_order.1) tissues
         ∧ StronglySorted
             (λ a b, tissue_code example_order.1 a ≤ tissue_code example_order.1 b)
             tissues)
    (traces (figure_of example_bar_chart)).
Proof.
  apply Forall_forall.
  refine (proj2 (series_follow_tissue_order (H := example_numpy) 0
                   (to_frame example_table) example_order.1 example_order.2 false
                   example_world (world_of example_world example_bar_chart)
                   (figure_of example_bar_chart) stable_argsort_sorts eq_refl _)).
  left. reflexivity.
Defined.

End SeriesFacts.

(** ** The genes of a chart *)

Module Selection.
Import DataLoader App Notions PyDictFacts UniqueFacts Resolver Aggregator Charts
  Callback SortFacts LoaderFacts AggregatorFacts ChartFacts CallbackFacts SeriesFacts.

(** Two increasing lists of strings without duplicates that have the same
    elements are the same list. *)
Lemma increasing_lists_eq (l1 l2 : list string) :
  StronglySorted (λ a b, String.leb a b = true) l1 →
  StronglySorted (λ a b, String.leb a b = true) l2 →
  NoDup l1 → NoDup l2 → (∀ x, x ∈ l1 ↔ x ∈ l2) → l1 = l2.
Proof.
  intros Hs1 Hs2 Hnd1 Hnd2 Hmem.
  eapply (StronglySorted_unique_strong (λ a b, String.leb a b = true));
    [|done|done|by apply NoDup_Permutation].
  intros x y _ _ Hxy Hyx. by apply String.leb_antisym.
Qed.

(** The rows of a sorted frame are rows of the frame. *)
Lemma sort_values_elem `{Numpy} (f : Frame) (r : FrameRow) :
  r ∈ sort_values_tissue f → r ∈ rows f.
Proof.
  unfold sort_values_tissue. rewrite elem_of_app. intros [Hr|Hr].
  - apply list_elem_of_omap in Hr as (i & _ & Hr%list_elem_of_lookup_2).
    by apply list_elem_of_filter in Hr as [_ Hr].
  - by apply list_elem_of_filter in Hr as [_ Hr].
Qed.

Section selection.
Context `{Numpy}.
Implicit Types (w : World) (f : Frame).

Lemma elem_of_charted_genes w (selected_genes : list string) (g : string) :
  g ∈ charted_genes w selected_genes
  ↔ g ∈ selected_genes ∧ g ∈ genes (expression_data w).
Proof. unfold charted_genes. by rewrite list_elem_of_filter. Qed.

Lemma charted_genes_nil w (selected_genes : list string) :
  charted_genes w selected_genes = []
  ↔ get_expression_for_genes selected_genes (expression_data w) = [].
Proof.
  rewrite no_rows_iff. split.
  - intros Hnil (g & Hg & Hin).
    assert (g ∈ charted_genes w selected_genes) as Hc
      by by apply elem_of_charted_genes.
    rewrite Hnil in Hc. by apply elem_of_nil in Hc.
  - intros Hnone. apply elem_of_nil_inv. intros g [? ?]%elem_of_charted_genes.
    apply Hnone. eauto.
Qed.

Lemma charted_genes_sorted w (selected_genes : list string) :
  StronglySorted (λ a b, String.leb a b = true) (charted_genes w selected_genes)
  ∧ NoDup (charted_genes w selected_genes).
Proof.
  unfold charted_genes, genes. split.
  - apply StronglySorted_filter, sorted_StronglySorted;
      [apply string_leb_total|apply string_leb_trans].
  - apply NoDup_filter. rewrite sorted_perm. apply NoDup_unique.
Qed.

(** The gene names of the rows to chart are the selected names that the
    table has. *)
Lemma prepared_rows_names w (selected_genes : list string) (grouping g : string) :
  g ∈ Gene_name <$> prepared_rows w selected_genes grouping
  ↔ g ∈ charted_genes w selected_genes.
Proof.
  rewrite elem_of_charted_genes, elem_of_genes.
  assert (g ∈ Gene_name <$> get_expression_for_genes selected_genes (expression_data w)
          ↔ g ∈ selected_genes ∧ ∃ r, r ∈ expression_data w ∧ Gene_name r = g)
    as Hselected.
  { rewrite list_elem_of_fmap. split.
    - intros (r & -> & [Hsel Hr]%list_elem_of_filter). eauto.
    - intros (Hsel & r & Hr & <-). exists r. split; [done|].
      by apply list_elem_of_filter. }
  unfold prepared_rows. case_bool_decide; [|done].
  rewrite <-Hselected. unfold aggregate_by_organ_group.
  set (mapping := get_tissue_to_group_mapping _ _).
  set (selected := get_expression_for_genes _ _).
  rewrite !list_elem_of_fmap. split.
  - intros (a & -> & Ha).
    assert (output_key a ∈ group_key mapping <$> selected) as Hkey
      by (apply aggregate_rows_key; eauto).
    apply list_elem_of_fmap in Hkey as (r & Hr & Hin).
    exists r. split; [|done]. unfold output_key, group_key in Hr. congruence.
  - intros (r & -> & Hr).
    assert (∃ a, a ∈ aggregate_rows mapping selected
                 ∧ output_key a = group_key mapping r) as (a & Ha & Hka).
    { apply aggregate_rows_key, list_elem_of_fmap. eauto. }
    exists a. split; [|done]. unfold output_key, group_key in Hka. congruence.
Qed.

Lemma to_frame_names (data : Table) :
  cell_Gene_name <$> rows (to_frame data) = Gene_name <$> data.
Proof. unfold to_frame. simpl. by rewrite <-list_fmap_compose. Qed.

(** The rows of the heatmap of the callback. *)
Lemma heatmap_rows_charted w (selected_genes : list string)
    (grouping log_scale : string) :
  Py.sorted String.leb
    (unique (cell_Gene_name
               <$> rows (to_frame (chart_rows w selected_genes grouping log_scale))))
  = charted_genes w selected_genes.
Proof.
  destruct (charted_genes_sorted w selected_genes) as [Hsorted Hnd].
  apply increasing_lists_eq; [|done| |done|].
  - apply sorted_StronglySorted; [apply string_leb_total|apply string_leb_trans].
  - rewrite sorted_perm. apply NoDup_unique.
  - intros g. rewrite sorted_perm, elem_of_unique, to_frame_names, chart_rows_names.
    apply prepared_rows_names.
Qed.

(** The names of the series of the bar chart and the box plot of the
    callback. *)
Lemma series_names_charted w (selected_genes : list string)
    (grouping log_scale : string) (tissues : list string) (fig : Figure) :
  argsort_permutes →
  series_names fig
  = unique (cell_Gene_name
              <$> sort_values_tissue
                    (as_categorical
                       (to_frame (chart_rows w selected_genes grouping log_scale))
                       tissues)) →
  NoDup (series_names fig)
  ∧ ∀ g, g ∈ series_names fig ↔ g ∈ charted_genes w selected_genes.
Proof.
  intros Hperm ->. split; [apply NoDup_unique|]. intros g.
  rewrite sorted_gene_names, as_categorical_names, to_frame_names, chart_rows_names
    by done.
  apply prepared_rows_names.
Qed.

(** The bar chart of the callback is built when no value to chart has a
    power of two too large for a double. *)
Lemma callback_bar_is_Some (data : Table) (tissues : list string)
    (groups : gmap string string) (log_scale : bool) :
  (log_scale = true → ∀ r v, r ∈ data → nTPM r = Some v → is_Some (pow2 v)) →
  is_Some (bar_figure (as_categorical (to_frame data) tissues) groups log_scale).
Proof.
  intros Hok. apply bar_figure_is_Some_iff. intros Hlog c v Hc%sort_values_elem Hv.
  destruct (proj1 (as_categorical_values (to_frame data) tissues v))
    as (c0 & Hc0 & Hv0); [eauto|].
  destruct (proj1 (to_frame_values data v)) as (r & Hr & Hrv); [eauto|].
  by apply (Hok Hlog r v).
Qed.

End selection.

End Selection.

(** ** The claims about the chart callback *)

Module CallbackClaims.
Import DataLoader App Notions PyDictFacts UniqueFacts Resolver Aggregator Charts
  Callback SortFacts LoaderFacts AggregatorFacts ChartFacts CallbackFacts SeriesFacts
  Selection.

(** C5, as the code has it.  A selection of more than ten genes is
    answered with the warning that asks for no more than ten, whatever the
    other inputs; nothing is charted and the state is untouched, so the
    selection is not cut down to ten.  A selection of one to ten genes, and
    so one of exactly ten, passes the check and is never answered with that
    warning.  It is answered with the no-data warning exactly when no
    selected name is a gene name of the table, and with the invalid-type
    alert when some is and the chart type is none of the three.  Otherwise
    the chart is built when the builder does not raise: the tissue order
    has no tissue twice, for the heatmap no gene name has two rows to chart
    for one tissue, and for the bar chart on the log scale no value has a
    power of two too large for a double.  A chart that is returned is the
    chart of exactly the selected names that the table has: they are the
    rows of the heatmap, in increasing order, and (for an [argsort] that
    permutes) the names of the series of the bar chart and the box plot,
    each once. *)
Theorem selection_size_gate `{Numpy} (selected_genes : list string)
    (grouping viz_type log_scale : string) (w : World) :
  let run := update_visualization (Some selected_genes) grouping viz_type log_scale w in
  let charted := charted_genes w selected_genes in
  (10 < length selected_genes → run = Some (selection_too_large_alert, w))
  ∧ (0 < length selected_genes ≤ 10 →
     fst <$> run ≠ Some selection_too_large_alert
     ∧ (charted = [] ↔ run = Some (no_data_alert, w))
     ∧ (charted ≠ [] → ¬ known_chart viz_type →
        fst <$> run = Some invalid_type_alert)
     ∧ (charted ≠ [] → known_chart viz_type →
        (grouping = "organ"
         ∨ NoDup (resolved (App.tissue_groups w) (expression_data w))) →
        (viz_type = "heatmap" →
         NoDup ((λ r, (Gene_name r, Tissue r))
                  <$> prepared_rows w selected_genes grouping)) →
        (viz_type = "bar" → log_scale = "log" →
         ∀ r v, r ∈ chart_rows w selected_genes grouping log_scale →
                nTPM r = Some v → is_Some (pow2 v)) →
        ∃ fig w', run = Some (Graph fig, w'))
     ∧ (∀ fig w', run = Some (Graph fig, w') →
        charted ≠ [] ∧ known_chart viz_type
        ∧ (viz_type = "heatmap" →
           ∃ z x customdata colorbar_title,
             traces fig = [Heatmap z x charted customdata colorbar_title])
        ∧ (viz_type ≠ "heatmap" → argsort_permutes →
           NoDup (series_names fig)
           ∧ ∀ g, g ∈ series_names fig ↔ g ∈ charted))).
Proof.
  intros run charted. subst run charted. split.
  { intros Hlen. unfold update_visualization.
    destruct selected_genes as [|g genes]; [simpl in Hlen; lia|].
    by rewrite bool_decide_eq_true_2. }
  intros Hlen.
  assert (update_visualization (Some selected_genes) grouping viz_type log_scale w
          = build_visualization selected_genes grouping viz_type log_scale w) as ->.
  { unfold update_visualization.
    destruct selected_genes as [|g genes]; [simpl in Hlen; lia|].
    rewrite bool_decide_eq_false_2; [done|lia]. }
  rewrite build_visualization_run.
  pose proof (charted_genes_nil w selected_genes) as Hnil.
  case_bool_decide as Hrows.
  { assert (charted_genes w selected_genes = []) as Hc by by apply Hnil.
    split_and!; [done|by split|by intros ?|by intros ?|by intros ? ? [=]]. }
  assert (charted_genes w selected_genes ≠ []) as Hc by by rewrite Hnil.
  cbv zeta.
  pose proof (chart_tissues_NoDup selected_genes grouping w) as Hnd.
  set (data := chart_rows w selected_genes grouping log_scale) in *.
  set (tissues := chart_tissues w selected_genes grouping) in *.
  set (groups := chart_groups w selected_genes grouping) in *.
  assert (known_chart viz_type
          ↔ viz_type = "heatmap" ∨ viz_type = "bar" ∨ viz_type = "box") as Hknown.
  { unfold known_chart. rewrite !elem_of_cons, elem_of_nil. tauto. }
  assert (∀ c w0, Some (c, w0) ≠ Some (no_data_alert, w) → 
                  charted_genes w selected_genes = [] ↔ Some (c, w0) = Some (no_data_alert, w))
    as Hdata by (intros c w0 Hne; by split).
  case_bool_decide as Hheat; [|case_bool_decide as Hbar; [|case_bool_decide as Hbox]].
  - (* the heatmap *)
    assert (known_chart viz_type) as Hk by (apply Hknown; tauto).
    destruct (heatmap_figure (to_frame data) tissues groups
                (bool_decide (grouping = "tissue")) (bool_decide (log_scale = "log")))
      as [fig|] eqn:Hfig; simpl.
    + split_and!; [done|by apply Hdata|done|by eexists _, _|].
      intros fig' w' [= <- _]. split_and!; [done|done| |done].
      intros _. apply heatmap_figure_Some in Hfig as (_ & hover_text & _ & ->).
      cbv zeta. cbn [traces]. subst data. rewrite heatmap_rows_charted.
      by eexists _, _, _, _.
    + split_and!; [done|by split|done| |by intros ? ? [=]].
      intros _ _ Horder Hpairs _.
      destruct (heatmap_figure_is_Some (to_frame data) tissues groups
                  (bool_decide (grouping = "tissue"))
                  (bool_decide (log_scale = "log"))) as [fig Hsome];
        [|by apply Hnd|congruence].
      apply to_frame_NoDup. subst data. rewrite chart_rows_labels. by apply Hpairs.
  - (* the bar chart *)
    assert (known_chart viz_type) as Hk by (apply Hknown; tauto).
    case_bool_decide as Hnodup;
      [|split_and!; [done|by split|done|intros _ _ ?%Hnd; done|by intros ? ? [=]]].
    destruct (bar_figure (as_categorical (to_frame data) tissues) groups
                (bool_decide (log_scale = "log"))) as [fig|] eqn:Hfig; simpl.
    + split_and!; [done|by apply Hdata|done|by eexists _, _|].
      intros fig' w' [= <- _]. split_and!; [done|done|done|].
      intros _ Hperm. apply (series_names_charted _ _ grouping log_scale tissues);
        [done|]. by eapply bar_figure_names.
    + split_and!; [done|by split|done| |by intros ? ? [=]].
      intros _ _ _ _ Hpow.
      destruct (callback_bar_is_Some data tissues groups
                  (bool_decide (log_scale = "log"))) as [fig Hsome]; [|congruence].
      intros Hlog%bool_decide_eq_true_1. by apply Hpow.
  - (* the box plot *)
    assert (known_chart viz_type) as Hk by (apply Hknown; tauto).
    case_bool_decide as Hnodup;
      [|split_and!; [done|by split|done|intros _ _ ?%Hnd; done|by intros ? ? [=]]].
    split_and!; [done|by apply Hdata|done|by eexists _, _|].
    intros fig' w' [= <- _]. split_and!; [done|done|done|].
    intros _ Hperm. apply (series_names_charted _ _ grouping log_scale tissues);
      [done|]. apply box_figure_names.
  - (* no such chart *)
    split_and!; [done|by apply Hdata|done|intros _ Hk%Hknown; tauto
                |by intros ? ? [=]].
Qed.

Lemma selection_size_gate_witness :
  update_visualization (H := example_numpy) (Some ("CFTR" :: ten_genes))
    "tissue" "heatmap" "linear" example_world
  = Some (selection_too_large_alert, example_world)
  ∧ update_visualization (H := example_numpy) (Some ten_unknown_genes)
      "tissue" "heatmap" "linear" example_world
    = Some (no_data_alert, example_world)
  ∧ ∃ fig w',
      update_visualization (H := example_numpy) (Some ten_genes)
        "tissue" "heatmap" "linear" example_world
      = Some (Graph fig, w')
      ∧ ∃ z x customdata colorbar_title,
          traces fig = [Heatmap z x ["ALB"; "GFAP"] customdata colorbar_title].
Proof.
  assert (0 < length ten_genes ≤ 10) as Hten by (simpl; lia).
  assert (0 < length ten_unknown_genes ≤ 10) as Hunknown by (simpl; lia).
  split_and!.
  - apply (proj1 (selection_size_gate (H := example_numpy) ("CFTR" :: ten_genes)
                    "tissue" "heatmap" "linear" example_world)).
    simpl. lia.
  - apply (proj1 (proj2 (proj2 (selection_size_gate (H := example_numpy)
                                  ten_unknown_genes "tissue" "heatmap" "linear"
                                  example_world) Hunknown))).
    reflexivity.
  - destruct (proj2 (selection_size_gate (H := example_numpy) ten_genes
                       "tissue" "heatmap" "linear" example_world) Hten)
      as (_ & _ & _ & Hbuilt & Hchart).
    destruct Hbuilt as (fig & w' & Hrun).
    + vm_compute. discriminate.
    + apply elem_of_cons. by left.
    + right. apply (bool_decide_unpack _). vm_compute. exact I.
    + intros _. apply (bool_decide_unpack _). vm_compute. exact I.
    + intros [=].
    + exists fig, w'. split; [done|].
      destruct (Hchart fig w' Hrun) as (_ & _ & Hheat & _). by apply Hheat.
Defined.

(** C5 as written fails for ten names that the table does not have: the
    selection passes the size check and is answered with the no-data
    warning, not with a chart. *)
Lemma ten_unknown_genes_get_no_chart :
  ¬ ten_genes_get_a_chart (H := example_numpy).
Proof.
  intros Hclaim.
  destruct (Hclaim ten_unknown_genes "tissue" "heatmap" "linear" example_world)
    as (fig & w' & Hrun); [done|apply elem_of_cons; by left|].
  vm_compute in Hrun. discriminate.
Qed.

(** C8.  For no selection (nothing chosen yet, or the empty list) the
    callback answers with the prompt to select genes, an alert of colour
    "info"; it raises nothing, builds no figure and leaves the state as it
    is. *)
Theorem empty_selection_prompts `{Numpy} (grouping viz_type log_scale : string)
    (w : World) :
  update_visualization None grouping viz_type log_scale w
  = Some (empty_selection_alert, w)
  ∧ update_visualization (Some []) grouping viz_type log_scale w
    = Some (empty_selection_alert, w)
  ∧ empty_selection_alert
    = Alert "👆 Please select one or more genes to visualize" "info"
  ∧ ∀ fig, empty_selection_alert ≠ Graph fig.
Proof. by split_and!. Qed.

End CallbackClaims.
